(** * AirBnBDataHandler: a shallow embedding of the listings pipeline

    The development follows [src/AirBnBDataHandler.js] (the handler factory
    with [parseCSV], [filterListings], [getListings], [computeStats],
    [computeListingsByHost], [exportResults]) and [src/cli.js] (the
    criteria construction, [askQuestion] and the menu loop of [main]).

    JavaScript values are modelled as the program uses them:
    - a Number is an IEEE 754 binary64 value, taken from the Standard
      Library's [SpecFloat] (one NaN, signed zeros and infinities), with
      [SFadd], [SFdiv] and [SFcompare] at precision 53; the conversions
      between Numbers and text ([Number(text)], [Number::toString]) round
      to the nearest value, ties to even;
    - a String is a sequence of code units; Rocq's [ascii] covers the code
      units below 256, which is the range modelled here;
    - [undefined] is the [None] of an option;
    - an object used as a dictionary keeps its own properties in creation
      order and reads through [Object.prototype];
    - the closed-over variable [_listings] is the state of a small state
      monad, the file system a map from paths to texts;
    - the front end runs over a session: the lines to come on the standard
      input, the handler, the file system and what the console shows.

    csv-parser, which turns the file into row objects, is outside the
    repository: [parseCSV] is modelled from the rows it emits. *)

From Stdlib Require Import ZArith QArith Qround Qpower Ascii String List Bool Lia Lqa.
From Stdlib Require Import Sorting.Sorted Sorting.Permutation.
From Stdlib Require Import Floats.SpecFloat.
From stdpp Require Import gmap strings list.
Close Scope Q_scope.

(** ** Numbers *)

Module Num.

Definition number : Type := spec_float.

Definition prec : Z := 53.
Definition emax : Z := 1024.

Definition NaN : number := S754_nan.
Definition zero : number := S754_zero false.
Definition neg_zero : number := S754_zero true.
Definition infinity (s : bool) : number := S754_infinity s.

Definition add : number -> number -> number := SFadd prec emax.
Definition sub : number -> number -> number := SFsub prec emax.
Definition div : number -> number -> number := SFdiv prec emax.

(** The relational operators on two Numbers.  [x < y] is true only when
    the comparison is defined and says "less"; [x >= y] is false when
    [x < y] or when the comparison is undefined (a NaN operand). *)
Definition lt (x y : number) : bool := SFltb x y.
Definition gt (x y : number) : bool := SFltb y x.
Definition ge (x y : number) : bool :=
  match SFcompare x y with
  | Some Lt | None => false
  | Some _ => true
  end.
Definition le (x y : number) : bool :=
  match SFcompare y x with
  | Some Lt | None => false
  | Some _ => true
  end.

(** [x === y] on Numbers: NaN differs from everything, [+0 === -0]. *)
Definition strict_eq (x y : number) : bool := SFeqb x y.

Definition is_nan (x : number) : bool :=
  match x with S754_nan => true | _ => false end.

Definition is_finite (x : number) : bool :=
  match x with S754_zero _ | S754_finite _ _ _ => true | _ => false end.

(** A Number of the language is a canonical binary64 value. *)
Definition valid (x : number) : bool := valid_binary prec emax x.

(** *** Rounding a real to the nearest Number, ties to even

    [ilog ndigits q], for [0 < q], is the integer [E] with
    [b^E <= q < b^(E+1)], when [ndigits z] is the number of digits of the
    integer [z >= 1] in radix [b]. *)
Definition ilog (ndigits : Z -> Z) (q : Q) : Z :=
  if Qle_bool 1 q then (ndigits (Qfloor q) - 1)%Z
  else (- ndigits (Qceiling (/ q) - 1))%Z.

Definition bits (z : Z) : Z := (Z.log2 z + 1)%Z.

Definition ilog2 (q : Q) : Z := ilog bits q.

Definition round_even (v : Q) : Z :=
  let m := Qfloor v in
  match Qcompare (v - inject_Z m) (1 # 2) with
  | Lt => m
  | Eq => if Z.even m then m else (m + 1)%Z
  | Gt => (m + 1)%Z
  end.

(** [round_pos s q], for [0 < q]: the binary64 value nearest to [q], with
    sign [s].  The exponent of the last place is [ilog2 q - 52], but not
    below the subnormal exponent -1074. *)
Definition round_pos (s : bool) (q : Q) : number :=
  let e := Z.max (ilog2 q - 52) (-1074) in
  let m := round_even (q / (2 ^ e))%Q in
  let '(m, e) := if (2 ^ 53 <=? m)%Z then ((2 ^ 52)%Z, (e + 1)%Z) else (m, e) in
  match m with
  | Zpos p => if (e <=? 971)%Z then S754_finite s p e else S754_infinity s
  | _ => S754_zero s
  end.

(** The Number for a real [q]; [s] is the sign given to a zero result. *)
Definition of_Q (s : bool) (q : Q) : number :=
  match Qcompare q 0 with
  | Eq => S754_zero s
  | Gt => round_pos false q
  | Lt => round_pos true (- q)
  end.

Definition of_Z (z : Z) : number := of_Q false (inject_Z z).
Definition of_nat (n : nat) : number := of_Z (Z.of_nat n).

(** The real denoted by a finite Number. *)
Definition to_Q (x : number) : Q :=
  match x with
  | S754_finite s m e =>
      ((if s then inject_Z (Zneg m) else inject_Z (Zpos m)) * 2 ^ e)%Q
  | _ => 0%Q
  end.

End Num.

Abbreviation number := Num.number.

(** ** Text *)

Module Text.

Definition chars := list ascii.

Definition code (c : ascii) : N := N_of_ascii c.

Definition is_digit (c : ascii) : bool :=
  (48 <=? code c)%N && (code c <=? 57)%N.

Definition digit_val (c : ascii) : Z := (Z.of_N (code c) - 48)%Z.

(** Value of a hexadecimal digit, [None] for any other character. *)
Definition hex_val (c : ascii) : option Z :=
  let n := code c in
  if (48 <=? n)%N && (n <=? 57)%N then Some (Z.of_N n - 48)%Z
  else if (65 <=? n)%N && (n <=? 70)%N then Some (Z.of_N n - 55)%Z
  else if (97 <=? n)%N && (n <=? 102)%N then Some (Z.of_N n - 87)%Z
  else None.

(** WhiteSpace and LineTerminator code units below 256: TAB, LF, VT, FF,
    CR, SP and NBSP. *)
Definition is_space (c : ascii) : bool :=
  let n := code c in
  ((9 <=? n)%N && (n <=? 13)%N) || (n =? 32)%N || (n =? 160)%N.

Fixpoint span (p : ascii -> bool) (l : chars) : chars * chars :=
  match l with
  | c :: l' =>
      if p c then let '(a, b) := span p l' in (c :: a, b) else ([], l)
  | [] => ([], [])
  end.

Fixpoint drop_spaces (l : chars) : chars :=
  match l with
  | c :: l' => if is_space c then drop_spaces l' else l
  | [] => []
  end.

Definition trim (l : chars) : chars :=
  rev (drop_spaces (rev (drop_spaces l))).

(** Value of a run of decimal digits, most significant first. *)
Definition digits_val (l : chars) : Z :=
  fold_left (fun a c => (10 * a + digit_val c)%Z) l 0%Z.

(** Value of a run of digits in radix [r]; [None] when a character is not
    a digit of that radix. *)
Definition radix_val (r : Z) (l : chars) : option Z :=
  fold_left
    (fun a c =>
       match a, hex_val c with
       | Some a, Some d => if (d <? r)%Z then Some (r * a + d)%Z else None
       | _, _ => None
       end) l (Some 0%Z).

Definition of_string (s : string) : chars := list_ascii_of_string s.
Definition to_string (l : chars) : string := string_of_list_ascii l.

End Text.

(** ** ToNumber on text (StringToNumber)

    The text is trimmed of white space; the empty text is [+0]; a
    StrDecimalLiteral (optional sign, then [Infinity] or digits with an
    optional fraction and exponent) or an unsigned [0x], [0o], [0b] integer
    literal is rounded to the nearest Number; any other text is NaN. *)

Module ToNumber.
Import Text.

(** The mathematical value of a decimal literal: [mant * 10^exp10]. *)
Record decimal := Dec { mant : Z; exp10 : Z }.

Definition MV (d : decimal) : Q := (inject_Z (mant d) * 10 ^ exp10 d)%Q.

(** ExponentPart, or nothing: the text after the digits. *)
Definition exponent_part (l : chars) : option Z :=
  match l with
  | [] => Some 0%Z
  | c :: l' =>
      if (code c =? 101)%N || (code c =? 69)%N then
        let '(neg, ds) :=
          match l' with
          | "+"%char :: ds => (false, ds)
          | "-"%char :: ds => (true, ds)
          | _ => (false, l')
          end in
        match span is_digit ds with
        | ([], _) => None
        | (e, []) => Some (if neg then - digits_val e else digits_val e)%Z
        | (_, _ :: _) => None
        end
      else None
  end.

(** StrUnsignedDecimalLiteral without the [Infinity] case. *)
Definition unsigned_decimal (l : chars) : option decimal :=
  let '(ip, r1) := span is_digit l in
  let '(fp, r2) :=
    match r1 with
    | "."%char :: r => span is_digit r
    | _ => ([], r1)
    end in
  match ip ++ fp with
  | [] => None
  | ds =>
      match exponent_part r2 with
      | Some e => Some (Dec (digits_val ds) (e - Z.of_nat (length fp)))
      | None => None
      end
  end.

Definition str_unsigned (s : bool) (l : chars) : number :=
  if decide (l = of_string "Infinity") then Num.infinity s
  else
    match unsigned_decimal l with
    | Some d => Num.of_Q s (if s then - MV d else MV d)%Q
    | None => Num.NaN
    end.

(** NonDecimalIntegerLiteral: [0x], [0o] or [0b] and at least one digit. *)
Definition non_decimal (l : chars) : option Z :=
  match l with
  | "0"%char :: c :: ds =>
      if decide (ds = []) then None
      else if (code c =? 120)%N || (code c =? 88)%N then radix_val 16 ds
      else if (code c =? 111)%N || (code c =? 79)%N then radix_val 8 ds
      else if (code c =? 98)%N || (code c =? 66)%N then radix_val 2 ds
      else None
  | _ => None
  end.

Definition of_chars (l : chars) : number :=
  match trim l with
  | [] => Num.zero
  | "+"%char :: r => str_unsigned false r
  | "-"%char :: r => str_unsigned true r
  | t =>
      match non_decimal t with
      | Some z => Num.of_Z z
      | None => str_unsigned false t
      end
  end.

Definition StringToNumber (s : string) : number := of_chars (of_string s).

(** [Number(v)] and the implicit ToNumber on a property that is a text or
    is missing: [undefined] converts to NaN. *)
Definition Number (v : option string) : number :=
  match v with
  | Some s => StringToNumber s
  | None => Num.NaN
  end.

End ToNumber.

(** ** Decimal digits of an integer *)

Module Digits.
Import Text.

Definition digit_char (d : Z) : ascii := ascii_of_N (Z.to_N (d + 48)).

Fixpoint digits_fuel (fuel : nat) (z : Z) (acc : chars) : chars :=
  match fuel with
  | O => acc
  | S fuel' =>
      if (z <? 10)%Z then digit_char z :: acc
      else digits_fuel fuel' (z / 10) (digit_char (z mod 10) :: acc)
  end.

(** The decimal digits of [z >= 0], most significant first, ["0"] for 0. *)
Definition digits_of (z : Z) : chars :=
  digits_fuel (S (Z.to_nat (Z.log2 z))) z [].

Definition ndigits (z : Z) : Z := Z.of_nat (length (digits_of z)).

End Digits.

(** ** Number::toString, radix 10

    For a positive finite [x] the digits are those of the integer [s] with
    the fewest digits [k] such that [s * 10^(n-k)] rounds to [x]; if two
    [s] qualify, the one nearest to [x] (the even one on a tie).  A
    candidate is kept as the pair [(s, p)] for the decimal [s * 10^p]. *)

Module NumberToString.
Import Text Digits.

Definition ilog10 (q : Q) : Z := Num.ilog ndigits q.

Definition decimal_Q (c : Z * Z) : Q := (inject_Z (fst c) * 10 ^ snd c)%Q.

#[global] Instance spec_float_eq_dec : EqDecision spec_float.
Proof. solve_decision. Defined.

Definition rounds_to (x : number) (c : Z * Z) : bool :=
  (0 <? fst c)%Z && bool_decide (Num.of_Q false (decimal_Q c) = x).

(** The candidates with [k] digits: the decimals just below and just above
    the real [X] of [x]. *)
Definition pick (x : number) (X : Q) (k : Z) : option (Z * Z) :=
  let p := (ilog10 X + 1 - k)%Z in
  let lo := Qfloor (X / 10 ^ p)%Q in
  let c_lo := (lo, p) in
  let c_hi := if (lo + 1 =? 10 ^ k)%Z then ((10 ^ (k - 1))%Z, (p + 1)%Z)
              else ((lo + 1)%Z, p) in
  match rounds_to x c_lo, rounds_to x c_hi with
  | true, true =>
      match Qcompare (X - decimal_Q c_lo) (decimal_Q c_hi - X) with
      | Lt => Some c_lo
      | Gt => Some c_hi
      | Eq => Some (if Z.even lo then c_lo else c_hi)
      end
  | true, false => Some c_lo
  | false, true => Some c_hi
  | false, false => None
  end.

Fixpoint search (x : number) (X : Q) (fuel : nat) (k : Z) : option (Z * Z) :=
  match fuel with
  | O => None
  | S fuel' =>
      match pick x X k with
      | Some c => Some c
      | None => search x X fuel' (k + 1)
      end
  end.

(** No binary64 value needs more digits than this to be written exactly. *)
Definition max_digits : nat := 1100.

Definition shortest (x : number) : option (Z * Z) :=
  search x (Num.to_Q x) max_digits 1.

(** The text for the digits of [s] and the position [n = p + k] of the
    decimal point. *)
Definition layout (c : Z * Z) : chars :=
  let ds := digits_of (fst c) in
  let k := Z.of_nat (length ds) in
  let n := (snd c + k)%Z in
  if (k <=? n)%Z && (n <=? 21)%Z then
    ds ++ repeat "0"%char (Z.to_nat (n - k))
  else if (0 <? n)%Z && (n <=? 21)%Z then
    take (Z.to_nat n) ds ++ "."%char :: drop (Z.to_nat n) ds
  else if (-6 <? n)%Z && (n <=? 0)%Z then
    "0"%char :: "."%char :: repeat "0"%char (Z.to_nat (- n)) ++ ds
  else
    let e := (n - 1)%Z in
    let exponent :=
      "e"%char :: (if (e <? 0)%Z then "-"%char else "+"%char)
        :: digits_of (Z.abs e) in
    match ds with
    | [] => exponent
    | [d] => d :: exponent
    | d :: rest => d :: "."%char :: rest ++ exponent
    end.

Definition positive_to_chars (x : number) : chars :=
  match shortest x with
  | Some c => layout c
  | None => []
  end.

Definition to_chars (x : number) : chars :=
  match x with
  | S754_nan => of_string "NaN"
  | S754_zero _ => of_string "0"
  | S754_infinity s => of_string (if s then "-Infinity" else "Infinity")
  | S754_finite s m e =>
      (if s then ["-"%char] else []) ++ positive_to_chars (S754_finite false m e)
  end.

Definition to_string (x : number) : string := Text.to_string (to_chars x).

End NumberToString.

(** ** JSON *)

Module JSON.
Import Text.

#[warnings="-register-all"]
Inductive json :=
| JNull
| JBool (b : bool)
| JNumber (x : number)
| JString (s : string)
| JArray (l : list json)
| JObject (l : list (string * json)).

Definition quote_char : ascii := ascii_of_N 34.
Definition backslash : ascii := ascii_of_N 92.
Definition newline : ascii := ascii_of_N 10.

Definition hex_char (d : N) : ascii :=
  if (d <? 10)%N then ascii_of_N (d + 48) else ascii_of_N (d + 87).

(** QuoteJSONString: the code units below 256 that are escaped. *)
Definition escape (c : ascii) : chars :=
  let n := code c in
  if (n =? 8)%N then [backslash; "b"%char]
  else if (n =? 9)%N then [backslash; "t"%char]
  else if (n =? 10)%N then [backslash; "n"%char]
  else if (n =? 12)%N then [backslash; "f"%char]
  else if (n =? 13)%N then [backslash; "r"%char]
  else if (n =? 34)%N then [backslash; quote_char]
  else if (n =? 92)%N then [backslash; backslash]
  else if (n <? 32)%N then
    [backslash; "u"%char; "0"%char; "0"%char; hex_char (n / 16); hex_char (n mod 16)]
  else [c].

Definition quote (s : string) : chars :=
  quote_char :: concat (map escape (of_string s)) ++ [quote_char].

Fixpoint join (sep : chars) (parts : list chars) : chars :=
  match parts with
  | [] => []
  | [part] => part
  | part :: parts' => part ++ sep ++ join sep parts'
  end.

(** [JSON.stringify(value, null, 2)] at the indentation [indent]: a Number
    that is not finite is written [null]; members and elements go one per
    line, two more spaces in. *)
Fixpoint serialize (indent : chars) (v : json) : chars :=
  let inner := " "%char :: " "%char :: indent in
  let separator := ","%char :: newline :: inner in
  match v with
  | JNull => of_string "null"
  | JBool b => of_string (if b then "true" else "false")
  | JNumber x =>
      if Num.is_finite x then NumberToString.to_chars x else of_string "null"
  | JString s => quote s
  | JArray [] => of_string "[]"
  | JArray l =>
      "["%char :: newline :: inner
        ++ join separator (map (serialize inner) l)
        ++ newline :: indent ++ ["]"%char]
  | JObject [] => of_string "{}"
  | JObject l =>
      "{"%char :: newline :: inner
        ++ join separator
             (map (fun '(k, v) => quote k ++ ":"%char :: " "%char :: serialize inner v) l)
        ++ newline :: indent ++ ["}"%char]
  end.

Definition stringify (v : json) : string := to_string (serialize [] v).

(** *** JSON.parse *)

Definition is_json_space (c : ascii) : bool :=
  let n := code c in (n =? 32)%N || (n =? 9)%N || (n =? 10)%N || (n =? 13)%N.

Fixpoint skip_space (l : chars) : chars :=
  match l with
  | c :: l' => if is_json_space c then skip_space l' else l
  | [] => []
  end.

Fixpoint strip_prefix (prefix l : chars) : option chars :=
  match prefix, l with
  | [], _ => Some l
  | p :: prefix', c :: l' => if decide (p = c) then strip_prefix prefix' l' else None
  | _ :: _, [] => None
  end.

(** A JSON number: [-]? int frac? exp?, where int has no leading zero and
    frac has a digit.  Its value is the decimal literal rounded to the
    nearest Number. *)
Definition number_char (c : ascii) : bool :=
  is_digit c || bool_decide (c ∈ ["+"; "-"; "."; "e"; "E"]%char).

Definition json_grammar (body : chars) : bool :=
  let '(ip, r1) := span is_digit body in
  match ip with
  | [] => false
  | d :: ip' =>
      (negb (code d =? 48)%N || bool_decide (ip' = []))
      && match r1 with
         | c :: r => if (code c =? 46)%N
                     then match span is_digit r with ([], _) => false | _ => true end
                     else true
         | [] => true
         end
  end.

Definition parse_number (token : chars) : option number :=
  let '(neg, body) :=
    match token with
    | c :: r => if (code c =? 45)%N then (true, r) else (false, token)
    | [] => (false, token)
    end in
  if json_grammar body then
    match ToNumber.unsigned_decimal body with
    | Some d => Some (Num.of_Q neg (if neg then - ToNumber.MV d else ToNumber.MV d)%Q)
    | None => None
    end
  else None.

(** The characters of a string after its opening quote, up to the closing
    one.  An escape [\uXXXX] of a code unit above 255 is outside the
    modelled range of texts. *)
Fixpoint parse_string (l : chars) : option (chars * chars) :=
  match l with
  | [] => None
  | c :: r =>
      if (code c =? 34)%N then Some ([], r)
      else if (code c <? 32)%N then None
      else if (code c =? 92)%N then
        match r with
        | e :: r' =>
            let simple (x : N) :=
              match parse_string r' with
              | Some (s, rest) => Some (ascii_of_N x :: s, rest)
              | None => None
              end in
            if (code e =? 34)%N then simple 34%N
            else if (code e =? 92)%N then simple 92%N
            else if (code e =? 47)%N then simple 47%N
            else if (code e =? 98)%N then simple 8%N
            else if (code e =? 102)%N then simple 12%N
            else if (code e =? 110)%N then simple 10%N
            else if (code e =? 114)%N then simple 13%N
            else if (code e =? 116)%N then simple 9%N
            else if (code e =? 117)%N then
              match r' with
              | h1 :: h2 :: h3 :: h4 :: r'' =>
                  match hex_val h1, hex_val h2, hex_val h3, hex_val h4 with
                  | Some 0%Z, Some 0%Z, Some a, Some b =>
                      match parse_string r'' with
                      | Some (s, rest) => Some (ascii_of_N (Z.to_N (16 * a + b)) :: s, rest)
                      | None => None
                      end
                  | _, _, _, _ => None
                  end
              | _ => None
              end
            else None
        | [] => None
        end
      else
        match parse_string r with
        | Some (s, rest) => Some (c :: s, rest)
        | None => None
        end
  end.

(** Modelled from the spec: the decoder of values.  The repository has no
    code that reads an exported file back; "decoding the exported
    structured text" is read as [JSON.parse], the inverse that the language
    provides for [JSON.stringify].  The fuel bounds the number of nested
    calls; the length of the text is enough. *)
Fixpoint parse_value (fuel : nat) (l : chars) : option (json * chars) :=
  match fuel with
  | O => None
  | S fuel' =>
      match skip_space l with
      | [] => None
      | c :: r =>
          if (code c =? 34)%N then
            match parse_string r with
            | Some (s, rest) => Some (JString (to_string s), rest)
            | None => None
            end
          else if (code c =? 91)%N then
            match skip_space r with
            | c' :: r' =>
                if (code c' =? 93)%N then Some (JArray [], r')
                else match parse_elements fuel' r with
                     | Some (vs, rest) => Some (JArray vs, rest)
                     | None => None
                     end
            | [] => None
            end
          else if (code c =? 123)%N then
            match skip_space r with
            | c' :: r' =>
                if (code c' =? 125)%N then Some (JObject [], r')
                else match parse_members fuel' r with
                     | Some (ms, rest) => Some (JObject ms, rest)
                     | None => None
                     end
            | [] => None
            end
          else
            match strip_prefix (of_string "null") (c :: r),
                  strip_prefix (of_string "true") (c :: r),
                  strip_prefix (of_string "false") (c :: r) with
            | Some rest, _, _ => Some (JNull, rest)
            | _, Some rest, _ => Some (JBool true, rest)
            | _, _, Some rest => Some (JBool false, rest)
            | None, None, None =>
                let '(token, rest) := span number_char (c :: r) in
                match parse_number token with
                | Some x => Some (JNumber x, rest)
                | None => None
                end
            end
      end
  end

(** The elements after [[], up to and with the closing bracket. *)
with parse_elements (fuel : nat) (l : chars) : option (list json * chars) :=
  match fuel with
  | O => None
  | S fuel' =>
      match parse_value fuel' l with
      | Some (v, r) =>
          match skip_space r with
          | c :: r' =>
              if (code c =? 44)%N then
                match parse_elements fuel' r' with
                | Some (vs, rest) => Some (v :: vs, rest)
                | None => None
                end
              else if (code c =? 93)%N then Some ([v], r')
              else None
          | [] => None
          end
      | None => None
      end
  end

(** The members after [{], up to and with the closing brace. *)
with parse_members (fuel : nat) (l : chars) : option (list (string * json) * chars) :=
  match fuel with
  | O => None
  | S fuel' =>
      match skip_space l with
      | q :: r0 =>
          if (code q =? 34)%N then
            match parse_string r0 with
            | Some (k, r1) =>
                match skip_space r1 with
                | colon :: r2 =>
                    if (code colon =? 58)%N then
                      match parse_value fuel' r2 with
                      | Some (v, r3) =>
                          match skip_space r3 with
                          | c :: r4 =>
                              if (code c =? 44)%N then
                                match parse_members fuel' r4 with
                                | Some (ms, rest) => Some ((to_string k, v) :: ms, rest)
                                | None => None
                                end
                              else if (code c =? 125)%N then Some ([(to_string k, v)], r4)
                              else None
                          | [] => None
                          end
                      | None => None
                      end
                    else None
                | [] => None
                end
            | None => None
            end
          else None
      | [] => None
      end
  end.

(** Modelled from the spec: [JSON.parse(text)], one value with nothing but
    white space after it; [None] stands for the SyntaxError. *)
Definition parse (text : string) : option json :=
  let l := of_string text in
  match parse_value (S (length l)) l with
  | Some (v, rest) =>
      match skip_space rest with
      | [] => Some v
      | _ :: _ => None
      end
  | None => None
  end.

End JSON.

(** ** Listings

    csv-parser emits one object per data row, whose properties are the
    header names and whose values are the cells as text; a row shorter than
    the header lacks the trailing properties.  A [Row] is that object.

    The ['data'] callback of [parseCSV] replaces the [price] property by a
    Number and leaves every other property as it is, so a [Listing] is a
    Number [price] together with the remaining text properties.  Reading a
    property that the row does not have gives [undefined] ([None]). *)

Abbreviation Row := (gmap string string).

Record Listing := mkListing {
  price : number;
  fields : gmap string string
}.

(** The properties read by the handler. *)
Definition bedrooms (l : Listing) : option string := fields l !! "bedrooms"%string.
Definition review_scores_rating (l : Listing) : option string :=
  fields l !! "review_scores_rating"%string.
Definition host_id (l : Listing) : option string := fields l !! "host_id"%string.

(** [typeof] of a property of a listing. *)
Inductive js_type := TUndefined | TNumber | TString.

Definition typeof_property (l : Listing) (k : string) : js_type :=
  if decide (k = "price"%string) then TNumber
  else match fields l !! k with Some _ => TString | None => TUndefined end.

(** ** parseCSV *)

Inductive error :=
| TypeError                       (* [row.price] is undefined *)
| StreamError (msg : string).     (* the ['error'] event of the stream *)

Inductive outcome (A : Type) :=
| Resolved (a : A)
| Failed (e : error).
Arguments Resolved {A} a.
Arguments Failed {A} e.

(** [s.replace(/[^0-9.]/g, '')] *)
Definition strip_non_numeric (s : string) : string :=
  Text.to_string
    (List.filter (fun c => Text.is_digit c || (Text.code c =? 46)%N)
       (Text.of_string s)).

(** The ['data'] callback: [row.price.replace] throws when the row has no
    [price]; otherwise the row, with [price] stored as a Number, is pushed
    on [results]. *)
Definition on_data (results : list Listing) (row : Row) : error + list Listing :=
  match row !! "price"%string with
  | None => inl TypeError
  | Some text =>
      let price := ToNumber.StringToNumber (strip_non_numeric text) in
      inr (results ++ [mkListing price (delete "price"%string row)])
  end.

Fixpoint on_rows (results : list Listing) (rows : list Row) : error + list Listing :=
  match rows with
  | [] => inr results
  | row :: rows' =>
      match on_data results row with
      | inl e => inl e
      | inr results' => on_rows results' rows'
      end
  end.

(** How the stream finishes after its rows: ['end'] or ['error']. *)
Inductive stream_end := End | Error (msg : string).

Definition parseCSV (rows : list Row) (fin : stream_end) : outcome (list Listing) :=
  match on_rows [] rows with
  | inl e => Failed e
  | inr results =>
      match fin with
      | End => Resolved results
      | Error msg => Failed (StreamError msg)
      end
  end.

(** ** The handler

    [createAirBnBDataHandler] closes over the variable [_listings]; its
    methods are computations over that one piece of state. *)

Definition Handler (A : Type) : Type := list Listing -> A * list Listing.

Definition ret {A} (a : A) : Handler A := fun s => (a, s).
Definition bind {A B} (m : Handler A) (k : A -> Handler B) : Handler B :=
  fun s => let '(a, s') := m s in k a s'.
Definition get_listings : Handler (list Listing) := fun s => (s, s).
Definition set_listings (ls : list Listing) : Handler unit := fun _ => (tt, ls).

Notation "'let*' x ':=' m 'in' k" := (bind m (fun x => k))
  (at level 10, x name, m at level 100, k at level 200).

Definition exec {A} (m : Handler A) (s : list Listing) : list Listing := snd (m s).
Definition eval {A} (m : Handler A) (s : list Listing) : A := fst (m s).

(** [let _listings = [...initialListings]] *)
Definition createAirBnBDataHandler (initialListings : list Listing) : list Listing :=
  initialListings.

Definition loadAirBnBData (rows : list Row) (fin : stream_end) : outcome (list Listing) :=
  match parseCSV rows fin with
  | Resolved parsedListings => Resolved (createAirBnBDataHandler parsedListings)
  | Failed e => Failed e
  end.

(** *** filterListings *)

Record Criteria := mkCriteria {
  minPrice : option number;
  maxPrice : option number;
  minRooms : option number;
  maxRooms : option number;
  minReview : option number;
  maxReview : option number
}.

(** [filterListings()] and [filterListings({})] *)
Definition no_criteria : Criteria := mkCriteria None None None None None None.

(** [bound !== undefined && value < bound] *)
Definition below (value : number) (bound : option number) : bool :=
  match bound with
  | Some b => Num.lt value b
  | None => false
  end.

(** [bound !== undefined && value > bound] *)
Definition above (value : number) (bound : option number) : bool :=
  match bound with
  | Some b => Num.gt value b
  | None => false
  end.

(** The callback given to [_listings.filter]. *)
Definition keeps (c : Criteria) (listing : Listing) : bool :=
  if below (price listing) (minPrice c) then false
  else if above (price listing) (maxPrice c) then false
  else if below (ToNumber.Number (bedrooms listing)) (minRooms c) then false
  else if above (ToNumber.Number (bedrooms listing)) (maxRooms c) then false
  else if below (ToNumber.Number (review_scores_rating listing)) (minReview c) then false
  else if above (ToNumber.Number (review_scores_rating listing)) (maxReview c) then false
  else true.

Definition filterListings (c : Criteria) : Handler unit :=
  let* ls := get_listings in
  set_listings (List.filter (keeps c) ls).

Definition getListings : Handler (list Listing) := get_listings.

(** *** computeStats *)

Record Stats := mkStats {
  count : nat;
  averagePricePerRoom : number
}.

Definition totalPrice (ls : list Listing) : number :=
  fold_left (fun sum l => Num.add sum (price l)) ls Num.zero.

Definition totalRooms (ls : list Listing) : number :=
  fold_left (fun sum l => Num.add sum (ToNumber.Number (bedrooms l))) ls Num.zero.

Definition computeStats : Handler Stats :=
  let* ls := get_listings in
  let count := length ls in
  let averagePricePerRoom :=
    if (0 <? count)%nat then
      if Num.strict_eq (totalRooms ls) Num.zero then Num.zero
      else Num.div (totalPrice ls) (totalRooms ls)
    else Num.zero in
  ret (mkStats count averagePricePerRoom).

(** *** computeListingsByHost

    [hostMap] starts as the object literal [{}] and is used as a dictionary
    from host keys to counts.  An object literal inherits the properties of
    [Object.prototype], and [acc[hostKey]] reads through that chain, so the
    model keeps the own properties (in creation order) apart from the
    inherited ones.  A count is a Number; it is kept as an exact integer,
    which is what Number addition gives below 2^53. *)

Module Obj.

Inductive value :=
| VNum (n : N)
| VStr (s : string).

(** Own properties, oldest first. *)
Definition obj := list (string * value).

Definition empty : obj := [].

Fixpoint own (o : obj) (k : string) : option value :=
  match o with
  | [] => None
  | (k', v) :: o' => if decide (k' = k) then Some v else own o' k
  end.

(** [o[k] = v] on an own or new property: an existing property keeps its
    place, a new one is created last. *)
Fixpoint set_own (o : obj) (k : string) (v : value) : obj :=
  match o with
  | [] => [(k, v)]
  | (k', v') :: o' =>
      if decide (k' = k) then (k, v) :: o' else (k', v') :: set_own o' k v
  end.

Definition native_function (name : string) : string :=
  ("function " +:+ name +:+ "() { [native code] }")%string.

(** The properties of [Object.prototype], each with the text that the
    [+] operator converts it to: the source text of a built-in function,
    and ["[object Object]"] for the prototype object that the [__proto__]
    getter returns. *)
Definition proto_text (k : string) : option string :=
  if decide (k = "__proto__"%string) then Some "[object Object]"%string
  else if decide (k = "constructor"%string) then Some (native_function "Object")
  else if bool_decide (k ∈ ["hasOwnProperty"; "isPrototypeOf";
                            "propertyIsEnumerable"; "toLocaleString";
                            "toString"; "valueOf"; "__defineGetter__";
                            "__defineSetter__"; "__lookupGetter__";
                            "__lookupSetter__"]%string)
  then Some (native_function k)
  else None.

(** An array index: the canonical decimal text of an integer below
    2^32 - 1.  Such keys are enumerated first, in ascending order. *)
Definition array_index (k : string) : option N :=
  let l := Text.of_string k in
  match l with
  | [] => None
  | c :: l' =>
      if forallb Text.is_digit l
         && (negb (Text.code c =? 48)%N || bool_decide (l' = []))
         && (Text.digits_val l <=? 4294967294)%Z
      then Some (Z.to_N (Text.digits_val l))
      else None
  end.

Fixpoint insert_index (e : N * (string * value)) (l : list (N * (string * value)))
  : list (N * (string * value)) :=
  match l with
  | [] => [e]
  | e' :: l' => if (fst e <=? fst e')%N then e :: l else e' :: insert_index e l'
  end.

Definition index_entries (o : obj) : list (N * (string * value)) :=
  foldr insert_index []
    (omap (fun kv => match array_index (fst kv) with
                     | Some i => Some (i, kv)
                     | None => None
                     end) o).

(** [Object.entries(o)]: array indices ascending, then the other keys in
    creation order. *)
Definition entries (o : obj) : list (string * value) :=
  map snd (index_entries o)
    ++ List.filter (fun kv => match array_index (fst kv) with
                              | Some _ => false
                              | None => true
                              end) o.

End Obj.

Record HostCount := mkHostCount {
  hc_host_id : string;
  hc_count : Obj.value
}.

(** [listing.host_id || 'unknown']: the empty text and [undefined] are falsy. *)
Definition hostKey (listing : Listing) : string :=
  match host_id listing with
  | Some s => if decide (s = ""%string) then "unknown"%string else s
  | None => "unknown"%string
  end.

(** The callback given to [reduce]:
    [acc[hostKey] = (acc[hostKey] || 0) + 1].
    - an own Number [n] (or no property at all, read as [undefined || 0])
      gives [n + 1];
    - an own non-empty text is truthy, and [text + 1] appends ["1"];
    - an inherited property is a truthy function or object, converted to
      its text by [+]; the assignment creates an own property, except for
      [__proto__], whose setter ignores a value that is not an object. *)
Definition tally (acc : Obj.obj) (listing : Listing) : Obj.obj :=
  let hostKey := hostKey listing in
  match Obj.own acc hostKey with
  | Some (Obj.VNum n) => Obj.set_own acc hostKey (Obj.VNum (n + 1))
  | Some (Obj.VStr s) =>
      if decide (s = ""%string) then Obj.set_own acc hostKey (Obj.VNum 1)
      else Obj.set_own acc hostKey (Obj.VStr (s +:+ "1"))
  | None =>
      match Obj.proto_text hostKey with
      | Some text =>
          if decide (hostKey = "__proto__"%string) then acc
          else Obj.set_own acc hostKey (Obj.VStr (text +:+ "1"))
      | None => Obj.set_own acc hostKey (Obj.VNum 1)
      end
  end.

Definition hostMap (ls : list Listing) : Obj.obj := fold_left tally ls Obj.empty.

(** The comparator [(a, b) => b.count - a.count].  [None] stands for NaN:
    a text count is the text of a built-in followed by 1s, which ToNumber
    turns into NaN.  [sort] reads a NaN result as 0. *)
Definition compare_counts (a b : HostCount) : option Z :=
  match hc_count a, hc_count b with
  | Obj.VNum x, Obj.VNum y => Some (Z.of_N y - Z.of_N x)%Z
  | _, _ => None
  end.

(** [true] when the comparator puts [a] after [b]. *)
Definition after (a b : HostCount) : bool :=
  match compare_counts a b with
  | Some d => (0 <? d)%Z
  | None => false
  end.

(** [Array.prototype.sort] is stable: elements that compare equal keep
    their order.  With a consistent comparator the result is the one of
    this insertion sort. *)
Fixpoint sort_insert (a : HostCount) (l : list HostCount) : list HostCount :=
  match l with
  | [] => [a]
  | b :: l' => if after a b then b :: sort_insert a l' else a :: l
  end.

Definition sort_ranking (l : list HostCount) : list HostCount :=
  foldr sort_insert [] l.

Definition computeListingsByHost : Handler (list HostCount) :=
  let* ls := get_listings in
  let ranking :=
    sort_ranking
      (map (fun '(host_id, count) => mkHostCount host_id count)
         (Obj.entries (hostMap ls))) in
  ret ranking.

(** *** exportResults

    [writeFile] replaces the content of the file, or fails when the
    destination cannot be written; the failure is passed on. *)

Record FileSystem := mkFileSystem {
  files : gmap string string;
  unwritable : gset string
}.

Inductive write_outcome :=
| Written (fs : FileSystem)
| WriteError (path : string).

Definition writeFile (path text : string) (fs : FileSystem) : write_outcome :=
  if decide (path ∈ unwritable fs) then WriteError path
  else Written (mkFileSystem (<[path := text]> (files fs)) (unwritable fs)).

Definition exportResults (outputPath : string) (data : JSON.json) (fs : FileSystem)
  : write_outcome :=
  let jsonString := JSON.stringify data in
  writeFile outputPath jsonString fs.

(** The values that the front end exports. *)
Definition stats_value (stats : Stats) : JSON.json :=
  JSON.JObject
    [("count"%string, JSON.JNumber (Num.of_nat (count stats)));
     ("averagePricePerRoom"%string, JSON.JNumber (averagePricePerRoom stats))].

Definition count_value (v : Obj.value) : JSON.json :=
  match v with
  | Obj.VNum n => JSON.JNumber (Num.of_Z (Z.of_N n))
  | Obj.VStr s => JSON.JString s
  end.

Definition ranking_value (ranking : list HostCount) : JSON.json :=
  JSON.JArray
    (map (fun h => JSON.JObject [("host_id"%string, JSON.JString (hc_host_id h));
                                 ("count"%string, count_value (hc_count h))])
       ranking).

(** Modelled from the spec: reading the exported file back and decoding
    it, which the repository leaves to the user of the file. *)
Definition reload (path : string) (fs : FileSystem) : option JSON.json :=
  match files fs !! path with
  | Some text => JSON.parse text
  | None => None
  end.

(** What a Number is after a round trip through its text: [-0] is written
    [0]. *)
Definition reread (x : number) : number :=
  match x with
  | S754_zero _ => Num.zero
  | _ => x
  end.

(** ** The criteria built by the command-line front end

    [answer ? Number(answer) : undefined] for each of the six answers: a
    blank answer leaves the bound out, any other text is converted. *)

Definition bound_of_answer (answer : string) : option number :=
  if decide (answer = ""%string) then None
  else Some (ToNumber.StringToNumber answer).

Definition filterCriteria
  (minPrice maxPrice minRooms maxRooms minReview maxReview : string) : Criteria :=
  mkCriteria (bound_of_answer minPrice) (bound_of_answer maxPrice)
    (bound_of_answer minRooms) (bound_of_answer maxRooms)
    (bound_of_answer minReview) (bound_of_answer maxReview).

(** ** The bounds as the specification words them

    A supplied lower bound holds when [value >= bound], a supplied upper
    bound when [value <= bound]; an omitted bound always holds. *)

Definition at_least (value : number) (bound : option number) : bool :=
  match bound with
  | Some b => Num.ge value b
  | None => true
  end.

Definition at_most (value : number) (bound : option number) : bool :=
  match bound with
  | Some b => Num.le value b
  | None => true
  end.

Definition satisfies_bounds (c : Criteria) (l : Listing) : bool :=
  at_least (price l) (minPrice c)
  && at_most (price l) (maxPrice c)
  && at_least (ToNumber.Number (bedrooms l)) (minRooms c)
  && at_most (ToNumber.Number (bedrooms l)) (maxRooms c)
  && at_least (ToNumber.Number (review_scores_rating l)) (minReview c)
  && at_most (ToNumber.Number (review_scores_rating l)) (maxReview c).

(** A supplied bound that cannot be compared: the bound or the value is NaN. *)
Definition incomparable (value : number) (bound : option number) : bool :=
  match bound with
  | Some b => Num.is_nan value || Num.is_nan b
  | None => false
  end.

(** Every supplied bound holds inclusively or cannot be compared. *)
Definition passes (c : Criteria) (l : Listing) : bool :=
  (at_least (price l) (minPrice c) || incomparable (price l) (minPrice c))
  && (at_most (price l) (maxPrice c) || incomparable (price l) (maxPrice c))
  && (at_least (ToNumber.Number (bedrooms l)) (minRooms c)
      || incomparable (ToNumber.Number (bedrooms l)) (minRooms c))
  && (at_most (ToNumber.Number (bedrooms l)) (maxRooms c)
      || incomparable (ToNumber.Number (bedrooms l)) (maxRooms c))
  && (at_least (ToNumber.Number (review_scores_rating l)) (minReview c)
      || incomparable (ToNumber.Number (review_scores_rating l)) (minReview c))
  && (at_most (ToNumber.Number (review_scores_rating l)) (maxReview c)
      || incomparable (ToNumber.Number (review_scores_rating l)) (maxReview c)).

(** A bound that is left out or is NaN. *)
Definition omitted_or_nan (bound : option number) : bool :=
  match bound with
  | Some b => Num.is_nan b
  | None => true
  end.

Definition all_omitted_or_nan (c : Criteria) : bool :=
  omitted_or_nan (minPrice c) && omitted_or_nan (maxPrice c)
  && omitted_or_nan (minRooms c) && omitted_or_nan (maxRooms c)
  && omitted_or_nan (minReview c) && omitted_or_nan (maxReview c).

(** A sequence of [filterListings] calls against one store. *)
Definition filter_calls (cs : list Criteria) : Handler unit :=
  fold_right (fun c rest => let* _ := filterListings c in rest) (ret tt) cs.

(** ** Sample data *)

Definition row_of (cells : list (string * string)) : Row := list_to_map cells.

Definition listing_of (p : Z) (cells : list (string * string)) : Listing :=
  mkListing (Num.of_Z p) (row_of cells).

Definition nan_min_price : Criteria :=
  mkCriteria (Some Num.NaN) None None None None None.

Definition min_rooms_2 : Criteria :=
  mkCriteria None None (Some (Num.of_Z 2)) None None None.

Definition studio : Listing :=
  listing_of 80 [("bedrooms", "studio"); ("host_id", "A")]%string.

(** The front end turns answers that are not numbers into NaN bounds. *)
Definition words_for_bounds : Criteria :=
  filterCriteria "cheap" "" "two" "" "n/a" "high".

(** ** Definitions for the statements

    The sum the specification speaks of, as the program computes it: Number
    additions from [0], left to right. *)
Fixpoint sum_from (acc : number) (xs : list number) : number :=
  match xs with
  | [] => acc
  | x :: xs' => sum_from (Num.add acc x) xs'
  end.

Definition sum (xs : list number) : number := sum_from Num.zero xs.

Definition prices (ls : list Listing) : list number := map price ls.
Definition rooms (ls : list Listing) : list number :=
  map (fun l => ToNumber.Number (bedrooms l)) ls.

(** The scenario of the specification: three rows with prices 100, 200, 300
    and bedrooms 1, 2, 3, filtered with [minPrice = 150]. *)
Definition three_rows : list Row :=
  [row_of [("price", "100"); ("bedrooms", "1")];
   row_of [("price", "200"); ("bedrooms", "2")];
   row_of [("price", "300"); ("bedrooms", "3")]]%string.

(** The listing that the ['data'] callback makes of a row with a price. *)
Definition listing_of_row (text : string) (row : Row) : Listing :=
  mkListing (ToNumber.StringToNumber (strip_non_numeric text))
    (delete "price"%string row).

Definition parsed_from (row : Row) (l : Listing) : Prop :=
  exists text, row !! "price"%string = Some text /\ l = listing_of_row text row.

Definition complete_row : Row :=
  row_of [("price", "$120.00"); ("bedrooms", "2");
          ("review_scores_rating", "95"); ("host_id", "A")]%string.

(** The coercion of the price text, as the callback does it. *)
Definition coerce_price (text : string) : number :=
  ToNumber.StringToNumber (strip_non_numeric text).

Definition hosted_by (host : string) : Listing :=
  listing_of 100 [("host_id", host)].

(** ** Definitions for the round trip of Numbers through text

    The exact decimal of a positive canonical value: an integer [N] and
    an exponent [P] with [N * 10^P] the real of the value. *)
Definition exact_digits (m : positive) (e : Z) : Z :=
  (if e <? 0 then Z.pos m * 5 ^ (- e) else Z.pos m * 2 ^ e)%Z.

Definition exact_exponent (e : Z) : Z := (if e <? 0 then e else 0)%Z.

(** The text of an exponent, and of a fraction. *)
Definition exp_text (e : option Z) : Text.chars :=
  match e with
  | None => []
  | Some e => "e"%char :: (if (e <? 0)%Z then "-"%char else "+"%char) :: Digits.digits_of (Z.abs e)
  end.

Definition frac_text (fp : Text.chars) : Text.chars :=
  match fp with
  | [] => []
  | _ :: _ => "."%char :: fp
  end.

(** [tok] is the text of a number that reads back as [x]. *)
Definition number_text (tok : Text.chars) (x : number) : Prop :=
  (exists h t, tok = h :: t /\ (Text.is_digit h = true \/ h = "-"%char))
  /\ forallb JSON.number_char tok = true
  /\ JSON.parse_number tok = Some x.

(** The text that [JSON.stringify] writes for a stats object. *)
Definition last_member (t2 : Text.chars) : Text.chars :=
  JSON.newline :: " "%char :: " "%char
    :: JSON.quote "averagePricePerRoom" ++ ":"%char :: " "%char :: t2
    ++ [JSON.newline; "}"%char].

Definition members (t1 t2 : Text.chars) : Text.chars :=
  JSON.newline :: " "%char :: " "%char
    :: JSON.quote "count" ++ ":"%char :: " "%char :: t1
    ++ ","%char :: last_member t2.

Definition empty_disk : FileSystem := mkFileSystem ∅ ∅.

(** ** Definitions for the host ranking

    The number of listings of a host. *)
Definition host_count (k : string) (ls : list Listing) : N :=
  N.of_nat (length (List.filter (fun l => bool_decide (hostKey l = k)) ls)).

Definition count_num (h : HostCount) : N :=
  match hc_count h with
  | Obj.VNum n => n
  | Obj.VStr _ => 0%N
  end.

Definition num_of (v : option Obj.value) : N :=
  match v with
  | Some (Obj.VNum n) => n
  | _ => 0%N
  end.

Definition counts_only (o : Obj.obj) : Prop :=
  forall k v, Obj.own o k = Some v -> exists n, v = Obj.VNum n.

Definition is_count (h : HostCount) : Prop := exists n, hc_count h = Obj.VNum n.

(** ** The command-line front end (cli.js)

    A session is the lines still to come on the standard input, the state
    of [airbnbHandler], the file system, and what has been written on the
    console, oldest first. *)

Inductive event :=
| Prompt (text : string)              (* [rl.question] shows its query *)
| Log (text : string)                 (* [console.log] of a text *)
| LogListings (ls : list Listing)     (* [console.log] of the listing array *)
| LogStats (stats : Stats)            (* [console.log('\nStats:', stats, '\n')] *)
| LogError (text : string)            (* [console.error] of a text *)
| LogCliError (path : string).        (* ['Error in CLI:'] and the error of [writeFile] *)

Record Session := mkSession {
  stdin : list string;
  airbnbHandler : list Listing;
  disk : FileSystem;
  console : list event
}.

(** How a computation of the front end ends: it returns; it waits for an
    answer that never comes; [exportResults] throws; the process exits. *)
Inductive result (A : Type) :=
| Returned (a : A) (s : Session)
| Waiting (s : Session)
| Thrown (path : string) (s : Session)
| Exited (code : Z) (s : Session)
| NoFuel.
Arguments Returned {A} a s.
Arguments Waiting {A} s.
Arguments Thrown {A} path s.
Arguments Exited {A} code s.
Arguments NoFuel {A}.

Definition CLI (A : Type) : Type := Session -> result A.

Definition cli_ret {A} (a : A) : CLI A := fun s => Returned a s.

Definition cli_bind {A B} (m : CLI A) (k : A -> CLI B) : CLI B :=
  fun s =>
    match m s with
    | Returned a s' => k a s'
    | Waiting s' => Waiting s'
    | Thrown path s' => Thrown path s'
    | Exited code s' => Exited code s'
    | NoFuel => NoFuel
    end.

Notation "'let!' x ':=' m 'in' k" := (cli_bind m (fun x => k))
  (at level 10, x name, m at level 100, k at level 200).

Definition write (e : event) : CLI unit :=
  fun s => Returned tt (mkSession (stdin s) (airbnbHandler s) (disk s) (console s ++ [e])).

Definition console_log (text : string) : CLI unit := write (Log text).
Definition console_error (text : string) : CLI unit := write (LogError text).

Definition process_exit (code : Z) : CLI unit := fun s => Exited code s.

(** [askQuestion(rl, question)]: the query is shown after ["~> "]; the
    promise resolves with the next line, if there is one. *)
Definition askQuestion (question : string) : CLI string :=
  let! _ := write (Prompt ("~> " +:+ question)) in
  fun s =>
    match stdin s with
    | answer :: rest =>
        Returned answer (mkSession rest (airbnbHandler s) (disk s) (console s))
    | [] => Waiting s
    end.

(** A method of [airbnbHandler]. *)
Definition call {A} (method : Handler A) : CLI A :=
  fun s =>
    let '(a, ls) := method (airbnbHandler s) in
    Returned a (mkSession (stdin s) ls (disk s) (console s)).

(** [await airbnbHandler.exportResults(outputPath, data)] *)
Definition export (outputPath : string) (data : JSON.json) : CLI unit :=
  fun s =>
    match exportResults outputPath data (disk s) with
    | Written fs => Returned tt (mkSession (stdin s) (airbnbHandler s) fs (console s))
    | WriteError path => Thrown path s
    end.

Definition nl : string := String JSON.newline "".
Definition dq : string := String JSON.quote_char "".

Definition menu : string :=
  nl +:+ "    What would you like to do?"
  +:+ nl +:+ "    1) Filter listings"
  +:+ nl +:+ "    2) Compute statistics"
  +:+ nl +:+ "    3) Compute listings by host (ranking)"
  +:+ nl +:+ "    4) Export current data or stats"
  +:+ nl +:+ "    5) Exit"
  +:+ nl +:+ "    ".

Definition export_question : string :=
  "Do you want to export " +:+ dq +:+ "listings" +:+ dq +:+ " or " +:+ dq +:+ "stats"
  +:+ dq +:+ " or " +:+ dq +:+ "hostRanking" +:+ dq +:+ "? ".

(** [`${host.count}`]: a Number count or a text. *)
Definition count_text (v : Obj.value) : string :=
  match v with
  | Obj.VNum n => NumberToString.to_string (Num.of_Z (Z.of_N n))
  | Obj.VStr s => s
  end.

Definition host_line (host : HostCount) : string :=
  "Host: " +:+ hc_host_id host +:+ ", Count: " +:+ count_text (hc_count host).

(** [ranking.forEach((host) => console.log(...))] *)
Fixpoint log_hosts (ranking : list HostCount) : CLI unit :=
  match ranking with
  | [] => cli_ret tt
  | host :: ranking' =>
      let! _ := console_log (host_line host) in
      log_hosts ranking'
  end.

(** [choice.trim()] *)
Definition trimmed (choice : string) : string :=
  Text.to_string (Text.trim (Text.of_string choice)).

(** The body of the [while] loop; the result is [exitRequested]. *)
Definition iteration : CLI bool :=
  let! _ := console_log menu in
  let! choice := askQuestion "Enter your choice (1-5): " in
  if decide (trimmed choice = "1"%string) then
    let! minPrice := askQuestion "Minimum price (leave blank if none)? " in
    let! maxPrice := askQuestion "Maximum price (leave blank if none)? " in
    let! minRooms := askQuestion "Minimum rooms (leave blank if none)? " in
    let! maxRooms := askQuestion "Maximum rooms (leave blank if none)? " in
    let! minReview := askQuestion "Minimum review score (leave blank if none)? " in
    let! maxReview := askQuestion "Maximum review score (leave blank if none)? " in
    let filterCriteria :=
      filterCriteria minPrice maxPrice minRooms maxRooms minReview maxReview in
    let! ls := call (let* _ := filterListings filterCriteria in getListings) in
    let! _ := write (LogListings ls) in
    let! _ := console_log
                (nl +:+ "Listings have been filtered based on your criteria." +:+ nl) in
    cli_ret false
  else if decide (trimmed choice = "2"%string) then
    let! stats := call computeStats in
    let! _ := write (LogStats stats) in
    cli_ret false
  else if decide (trimmed choice = "3"%string) then
    let! ranking := call computeListingsByHost in
    let! _ := console_log (nl +:+ "Listings by Host (sorted desc):") in
    let! _ := log_hosts ranking in
    let! _ := console_log "" in
    cli_ret false
  else if decide (trimmed choice = "4"%string) then
    let! exportChoice := askQuestion export_question in
    let! outputPath := askQuestion "Specify the output file path (e.g. output.json): " in
    let! _ :=
      if decide (exportChoice = "listings"%string) then
        let! ranking := call computeListingsByHost in
        let! _ := console_log
                    "Exporting current listings is not directly shown. Add a method if needed." in
        console_log
          ("For now, we will show hostRanking or stats. Re-run and choose "
           +:+ dq +:+ "hostRanking" +:+ dq +:+ " or " +:+ dq +:+ "stats" +:+ dq +:+ ".")
      else if decide (exportChoice = "stats"%string) then
        let! stats := call computeStats in
        let! _ := export outputPath (stats_value stats) in
        console_log (nl +:+ "Stats exported to: " +:+ outputPath +:+ nl)
      else if decide (exportChoice = "hostRanking"%string) then
        let! ranking := call computeListingsByHost in
        let! _ := export outputPath (ranking_value ranking) in
        console_log (nl +:+ "Host ranking exported to: " +:+ outputPath +:+ nl)
      else
        console_log (nl +:+ "Invalid export choice." +:+ nl) in
    cli_ret false
  else if decide (trimmed choice = "5"%string) then
    let! _ := console_log (nl +:+ "Exiting. Goodbye!" +:+ nl) in
    cli_ret true
  else
    let! _ := console_log (nl +:+ "Invalid choice. Please select a valid option." +:+ nl) in
    cli_ret false.

(** [while (!exitRequested) { ... }]; every turn reads a line, so the
    number of lines left plus one bounds the turns. *)
Fixpoint loop (fuel : nat) : CLI unit :=
  match fuel with
  | O => fun _ => NoFuel
  | S fuel' =>
      let! exitRequested := iteration in
      if exitRequested then cli_ret tt else loop fuel'
  end.

(** [main()], given [process.argv[2]] and what the stream of that file
    emits.  An error of the stream rejects the promise of [parseCSV]:
    [loadAirBnBData] reports it and throws it again, [main] reports it and
    exits.  The TypeError of the ['data'] callback is thrown inside the
    stream, where nothing catches it: the process ends with the exit code
    of an uncaught exception. *)
Definition main (csvFilePath : option string) (rows : list Row) (fin : stream_end)
  : CLI unit :=
  match csvFilePath with
  | None | Some ""%string =>
      let! _ := console_error "Please provide the path to the CSV file as an argument." in
      process_exit 1
  | Some _ =>
      match loadAirBnBData rows fin with
      | Failed (StreamError msg) =>
          let! _ := console_error ("Error loading Airbnb data: " +:+ msg) in
          let! _ := console_error ("Error reading CSV file: " +:+ msg) in
          process_exit 1
      | Failed TypeError => process_exit 1
      | Resolved listings =>
          let! _ := (fun s => Returned tt
                                (mkSession (stdin s) listings (disk s) (console s))) in
          let! _ := console_log (nl +:+ "Welcome to the Airbnb Data Processor!" +:+ nl) in
          let! _ := (fun s => loop (S (length (stdin s))) s) in
          cli_ret tt
      end
  end.

(** [main().catch((err) => console.error('Error in CLI:', err))], started
    with the lines [lines] on the standard input and the files [fs]. *)
Definition run (csvFilePath : option string) (rows : list Row) (fin : stream_end)
    (lines : list string) (fs : FileSystem) : result unit :=
  match main csvFilePath rows fin (mkSession lines [] fs []) with
  | Thrown path s =>
      Thrown path
        (mkSession (stdin s) (airbnbHandler s) (disk s) (console s ++ [LogCliError path]))
  | r => r
  end.

(** The session in which a run ends, if it has run to an end. *)
Definition final {A} (r : result A) : option Session :=
  match r with
  | Returned _ s | Waiting s | Thrown _ s | Exited _ s => Some s
  | NoFuel => None
  end.

(** ** The order of Numbers *)

(** A key whose lexicographic order is the order of the Numbers that are
    not NaN. *)
Definition order_key (x : number) : Z * Z * Z :=
  match x with
  | S754_infinity true => (-2, 0, 0)%Z
  | S754_finite true m e => (-1, - e, Z.neg m)%Z
  | S754_zero _ | S754_nan => (0, 0, 0)%Z
  | S754_finite false m e => (1, e, Z.pos m)%Z
  | S754_infinity false => (2, 0, 0)%Z
  end.

Definition lex3 (a b : Z * Z * Z) : comparison :=
  match (fst (fst a) ?= fst (fst b))%Z with
  | Eq => match (snd (fst a) ?= snd (fst b))%Z with
          | Eq => (snd a ?= snd b)%Z
          | c => c
          end
  | c => c
  end.

(** ** Definitions for the price coercion

    What is left of a price cell: its digits and its decimal points. *)
Definition is_point (c : ascii) : bool := (Text.code c =? 46)%N.

Definition kept (c : ascii) : bool := Text.is_digit c || is_point c.

Definition points (text : string) : nat :=
  length (List.filter is_point (Text.of_string text)).

Definition digits_in (text : string) : Text.chars :=
  List.filter Text.is_digit (Text.of_string text).

(** The digits after the first decimal point. *)
Definition fraction_digits (text : string) : Text.chars :=
  List.filter Text.is_digit
    (drop 1 (snd (Text.span (fun c => negb (is_point c)) (Text.of_string text)))).

(** The price that the digits and points of a cell denote. *)
Definition price_value (text : string) : number :=
  if (2 <=? points text)%nat
     || ((points text =? 1)%nat && bool_decide (digits_in text = []))
  then Num.NaN
  else Num.of_Q false
         (inject_Z (Text.digits_val (digits_in text))
          / inject_Z (10 ^ Z.of_nat (length (fraction_digits text))))%Q.

(** ** Definitions for the order of the ranking

    The host keys in the order in which they first appear. *)
Definition first_seen (keys : list string) : list string :=
  fold_left (fun seen k => if bool_decide (k ∈ seen) then seen else seen ++ [k]) keys [].

(** The entries of a ranking that have the count [c]. *)
Definition with_count (c : N) (ranking : list HostCount) : list HostCount :=
  List.filter (fun h => (count_num h =? c)%N) ranking.

Definition total_count (ranking : list HostCount) : N :=
  fold_right (fun h n => (count_num h + n)%N) 0%N ranking.

(** The array index that a host key is, 0 when it is none. *)
Definition host_index (h : HostCount) : N := default 0%N (Obj.array_index (hc_host_id h)).

(** * Properties *)

(** ** Comparisons of Numbers *)

Section Comparisons.

Lemma compare_undefined (x y : number) :
  SFcompare x y = None <-> Num.is_nan x || Num.is_nan y = true.
Proof.
  destruct x as [sx | sx | | sx mx ex], y as [sy | sy | | sy my ey];
    simpl; split; intros H; try reflexivity; try discriminate.
Qed.

Lemma lt_nan_r (x : number) : Num.lt x Num.NaN = false.
Proof. destruct x; reflexivity. Qed.

Lemma lt_nan_l (x : number) : Num.lt Num.NaN x = false.
Proof. destruct x; reflexivity. Qed.

Lemma not_lt_ge (x y : number) :
  negb (Num.lt x y) = Num.ge x y || (Num.is_nan x || Num.is_nan y).
Proof.
  unfold Num.lt, Num.ge, SFltb.
  destruct (SFcompare x y) as [[ | | ] | ] eqn:E; simpl.
  - reflexivity.
  - symmetry. apply not_true_is_false. intros H.
    apply compare_undefined in H. congruence.
  - reflexivity.
  - symmetry. now apply compare_undefined.
Qed.

Lemma not_gt_le (x y : number) :
  negb (Num.gt x y) = Num.le x y || (Num.is_nan x || Num.is_nan y).
Proof.
  unfold Num.gt, Num.le, SFltb.
  destruct (SFcompare y x) as [[ | | ] | ] eqn:E; simpl.
  - reflexivity.
  - symmetry. apply not_true_is_false. intros H.
    rewrite orb_comm in H. apply compare_undefined in H. congruence.
  - reflexivity.
  - symmetry. rewrite orb_comm. now apply compare_undefined.
Qed.

Lemma not_below (v : number) (bound : option number) :
  negb (below v bound) = at_least v bound || incomparable v bound.
Proof. destruct bound; simpl; [apply not_lt_ge | reflexivity]. Qed.

Lemma not_above (v : number) (bound : option number) :
  negb (above v bound) = at_most v bound || incomparable v bound.
Proof. destruct bound; simpl; [apply not_gt_le | reflexivity]. Qed.

Lemma below_omitted_or_nan (v : number) (bound : option number) :
  omitted_or_nan bound = true -> below v bound = false.
Proof.
  destruct bound as [[ | | | ] | ]; simpl; try discriminate; intros _;
    [apply lt_nan_r | reflexivity].
Qed.

Lemma above_omitted_or_nan (v : number) (bound : option number) :
  omitted_or_nan bound = true -> above v bound = false.
Proof.
  destruct bound as [[ | | | ] | ]; simpl; try discriminate; intros _;
    [apply lt_nan_l | reflexivity].
Qed.

End Comparisons.

(** ** filterListings *)

Section Filtering.

Lemma keeps_passes (c : Criteria) (l : Listing) : keeps c l = passes c l.
Proof.
  unfold keeps, passes.
  rewrite <- !not_below, <- !not_above.
  repeat match goal with
         | |- context [below ?v ?b] => destruct (below v b); simpl; try reflexivity
         | |- context [above ?v ?b] => destruct (above v b); simpl; try reflexivity
         end.
Qed.

Lemma exec_filterListings (c : Criteria) (s : list Listing) :
  exec (filterListings c) s = List.filter (keeps c) s.
Proof. reflexivity. Qed.

Lemma filter_all_true {A} (p : A -> bool) (l : list A) :
  (forall x, In x l -> p x = true) -> List.filter p l = l.
Proof.
  induction l as [ | a l IH]; simpl; intros H; [reflexivity | ].
  rewrite (H a) by now left. f_equal. apply IH. intros x Hx. apply H. now right.
Qed.

Lemma filter_sublist {A} (p : A -> bool) (l : list A) :
  sublist (List.filter p l) l.
Proof.
  induction l as [ | a l IH]; simpl; [constructor | ].
  destruct (p a); now constructor.
Qed.

Lemma filter_length_le {A} (p : A -> bool) (l : list A) :
  (length (List.filter p l) <= length l)%nat.
Proof. apply sublist_length, filter_sublist. Qed.

Lemma filter_filter {A} (p q : A -> bool) (l : list A) :
  List.filter q (List.filter p l) = List.filter (fun x => p x && q x) l.
Proof.
  induction l as [ | a l IH]; simpl; [reflexivity | ].
  destruct (p a); simpl; [destruct (q a) | ]; now rewrite IH.
Qed.

Lemma exec_filter_calls (cs : list Criteria) (s : list Listing) :
  exec (filter_calls cs) s
  = List.filter (fun l => forallb (fun c => keeps c l) cs) s.
Proof.
  revert s. induction cs as [ | c cs IH]; intros s; simpl.
  - symmetry. now apply filter_all_true.
  - change (exec (filter_calls cs) (List.filter (keeps c) s)
            = List.filter (fun l => keeps c l && forallb (fun c => keeps c l) cs) s).
    rewrite IH. apply filter_filter.
Qed.

End Filtering.

(** ** Claims on filtering *)

(** C1 (as stated, refuted): with the bound [minPrice] supplied as NaN, a
    listing priced 100 is kept, although [100 >= NaN] is false; so the kept
    listings are not those that satisfy every supplied inclusive bound. *)
Lemma filterListings_not_inclusive_bounds :
  ~ (forall (c : Criteria) (s : list Listing),
        exec (filterListings c) s = List.filter (satisfies_bounds c) s).
Proof.
  intros H. specialize (H nan_min_price [listing_of 100 []]).
  vm_compute in H. discriminate H.
Qed.

(** C1 (amended): for every listing set and every criteria object,
    [filterListings] keeps exactly the listings for which every supplied
    bound either holds inclusively ([price >= minPrice], [price <= maxPrice],
    and the same for [bedrooms] and [review_scores_rating] converted to
    Numbers) or cannot be compared because the bound or the value is NaN;
    omitted bounds impose no constraint, and the kept listings stay in
    their order. *)
Theorem filterListings_keeps_passing (c : Criteria) (s : list Listing) :
  exec (filterListings c) s = List.filter (passes c) s.
Proof.
  rewrite exec_filterListings. apply filter_ext. intros l. apply keeps_passes.
Qed.

(** Where nothing is NaN the test is the inclusive conjunction. *)
Lemma passes_comparable (c : Criteria) (l : Listing) :
  incomparable (price l) (minPrice c) = false ->
  incomparable (price l) (maxPrice c) = false ->
  incomparable (ToNumber.Number (bedrooms l)) (minRooms c) = false ->
  incomparable (ToNumber.Number (bedrooms l)) (maxRooms c) = false ->
  incomparable (ToNumber.Number (review_scores_rating l)) (minReview c) = false ->
  incomparable (ToNumber.Number (review_scores_rating l)) (maxReview c) = false ->
  passes c l = satisfies_bounds c l.
Proof.
  intros H1 H2 H3 H4 H5 H6. unfold passes, satisfies_bounds.
  rewrite H1, H2, H3, H4, H5, H6, !orb_false_r. reflexivity.
Qed.

(** C6 (as stated, refuted): a listing whose [bedrooms] text is not a number
    survives the call with [minRooms = 2], although it does not satisfy
    [bedrooms >= 2]. *)
Lemma filter_calls_survivor_outside_bounds :
  ~ (forall (cs : list Criteria) (s : list Listing) (l : Listing) (c : Criteria),
        In l (exec (filter_calls cs) s) -> In c cs -> satisfies_bounds c l = true).
Proof.
  intros H.
  specialize (H [no_criteria; min_rooms_2] [studio] studio min_rooms_2).
  assert (E : satisfies_bounds min_rooms_2 studio = false) by (vm_compute; reflexivity).
  rewrite H in E; [discriminate E | vm_compute; now left | now right; left].
Qed.

(** C6 (amended): for every sequence of [filterListings] calls against one
    store, each call leaves a subsequence of the set it found (order kept,
    size not increased); the set after the whole sequence is a subsequence
    of the initial set, it is the initial set filtered by all the calls'
    tests together, and every listing in it passes the test of every call:
    each supplied bound holds inclusively or cannot be compared because the
    bound or the value is NaN. *)
Theorem filter_calls_cumulative (cs : list Criteria) (s : list Listing) :
  (forall (c : Criteria) (s' : list Listing),
      sublist (exec (filterListings c) s') s'
      /\ (length (exec (filterListings c) s') <= length s')%nat)
  /\ sublist (exec (filter_calls cs) s) s
  /\ (length (exec (filter_calls cs) s) <= length s)%nat
  /\ exec (filter_calls cs) s
     = List.filter (fun l => forallb (fun c => passes c l) cs) s
  /\ (forall (l : Listing) (c : Criteria),
         In l (exec (filter_calls cs) s) -> In c cs -> passes c l = true).
Proof.
  assert (E : exec (filter_calls cs) s
              = List.filter (fun l => forallb (fun c => passes c l) cs) s).
  { rewrite exec_filter_calls. apply filter_ext. intros l.
    induction cs as [ | c cs IH]; simpl; [reflexivity | ].
    now rewrite keeps_passes, IH. }
  split; [ | split; [ | split; [ | split]]].
  - intros c s'. rewrite exec_filterListings.
    split; [apply filter_sublist | apply filter_length_le].
  - rewrite E. apply filter_sublist.
  - rewrite E. apply filter_length_le.
  - exact E.
  - intros l c Hl Hc. rewrite E in Hl. apply filter_In in Hl as [_ Hl].
    rewrite forallb_forall in Hl. now apply Hl.
Qed.

(** C7: for every listing set, [filterListings] with no criteria (all six
    bounds omitted) leaves the store's listing set unchanged. *)
Theorem filterListings_no_criteria (s : list Listing) :
  exec (filterListings no_criteria) s = s.
Proof.
  rewrite exec_filterListings. apply filter_all_true. intros l _. reflexivity.
Qed.

(** C10: for every listing set, [filterListings] with criteria in which
    every supplied bound is NaN leaves the listing set unchanged, as it
    does when the bounds are omitted. *)
Theorem filterListings_nan_bounds (c : Criteria) (s : list Listing) :
  all_omitted_or_nan c = true -> exec (filterListings c) s = s.
Proof.
  unfold all_omitted_or_nan. rewrite !andb_true_iff.
  intros [[[[[H1 H2] H3] H4] H5] H6].
  rewrite exec_filterListings. apply filter_all_true. intros l _.
  unfold keeps.
  rewrite (below_omitted_or_nan _ _ H1), (above_omitted_or_nan _ _ H2),
    (below_omitted_or_nan _ _ H3), (above_omitted_or_nan _ _ H4),
    (below_omitted_or_nan _ _ H5), (above_omitted_or_nan _ _ H6).
  reflexivity.
Qed.

Lemma filterListings_nan_bounds_witness :
  all_omitted_or_nan words_for_bounds = true
  /\ exec (filterListings words_for_bounds) [studio; listing_of 100 []]
     = [studio; listing_of 100 []].
Proof.
  split; [vm_compute; reflexivity | ].
  apply (filterListings_nan_bounds words_for_bounds [studio; listing_of 100 []]).
  vm_compute; reflexivity.
Defined.

(** ** Claims on the read-only views *)

(** C8: for every store state, [computeStats], [computeListingsByHost] and
    [getListings] leave the store's current listing set unchanged. *)
Theorem views_read_only (s : list Listing) :
  exec computeStats s = s
  /\ exec computeListingsByHost s = s
  /\ exec getListings s = s.
Proof. repeat split. Qed.

(** ** Claims on the statistics *)

Section Statistics.

Lemma fold_left_sum_from {A} (f : A -> number) (ls : list A) (acc : number) :
  fold_left (fun sum l => Num.add sum (f l)) ls acc = sum_from acc (map f ls).
Proof.
  revert acc. induction ls as [ | l ls IH]; intros acc; simpl; [reflexivity | apply IH].
Qed.

Lemma totalPrice_sum (ls : list Listing) : totalPrice ls = sum (prices ls).
Proof. apply fold_left_sum_from. Qed.

Lemma totalRooms_sum (ls : list Listing) : totalRooms ls = sum (rooms ls).
Proof. apply (fold_left_sum_from (fun l => ToNumber.Number (bedrooms l))). Qed.

(** Adding zeros of either sign to [+0] gives [+0]. *)
Lemma sum_from_zeros (xs : list number) :
  Forall (fun x => Num.strict_eq x Num.zero = true) xs ->
  Num.strict_eq (sum_from Num.zero xs) Num.zero = true.
Proof.
  induction 1 as [ | x xs Hx _ IH]; simpl; [reflexivity | ].
  destruct x as [[ | ] | [ | ] | | [ | ] m e]; try discriminate Hx; exact IH.
Qed.

Lemma average_computeStats (s : list Listing) :
  averagePricePerRoom (eval computeStats s)
  = (if decide (s = []) then Num.zero
     else if Num.strict_eq (sum (rooms s)) Num.zero then Num.zero
     else Num.div (sum (prices s)) (sum (rooms s))).
Proof.
  unfold eval, computeStats, bind, get_listings, ret; simpl.
  rewrite totalPrice_sum, totalRooms_sum.
  destruct s as [ | l s]; reflexivity.
Qed.

End Statistics.

(** C4: for every current listing set, [computeStats] returns [count] equal
    to the size of the set and [averagePricePerRoom] equal to the sum of the
    prices divided by the sum of the bedrooms (Number sums and quotient,
    the bedrooms converted by [Number]), except that it is 0 when the set is
    empty or the summed bedrooms are 0; on the empty set it returns
    [{count: 0, averagePricePerRoom: 0}]. *)
Theorem computeStats_spec (s : list Listing) :
  count (eval computeStats s) = length s
  /\ averagePricePerRoom (eval computeStats s)
     = (if decide (s = []) then Num.zero
        else if Num.strict_eq (sum (rooms s)) Num.zero then Num.zero
        else Num.div (sum (prices s)) (sum (rooms s)))
  /\ eval computeStats [] = mkStats 0 Num.zero.
Proof.
  split; [reflexivity | split; [apply average_computeStats | reflexivity]].
Qed.

(** X16: Listings that all have zero bedrooms give the average 0, whatever the
    prices. *)
Lemma computeStats_no_rooms (s : list Listing) :
  Forall (fun l => Num.strict_eq (ToNumber.Number (bedrooms l)) Num.zero = true) s ->
  averagePricePerRoom (eval computeStats s) = Num.zero.
Proof.
  intros H. rewrite average_computeStats.
  destruct (decide (s = [])); [reflexivity | ].
  unfold sum, rooms. rewrite sum_from_zeros; [reflexivity | ].
  now apply Forall_map.
Qed.

Example scenario_three_rows :
  exists s,
    loadAirBnBData three_rows End = Resolved s
    /\ eval (let* _ := filterListings (filterCriteria "150" "" "" "" "" "") in
             computeStats) s
       = mkStats 2 (Num.of_Z 100).
Proof. eexists. split; [reflexivity | vm_compute; reflexivity]. Qed.

(** ** Claims on parsing *)

Section Parsing.

Lemma on_rows_with_price (rows : list Row) (results : list Listing) :
  Forall (fun row => is_Some (row !! "price"%string)) rows ->
  exists ls, on_rows results rows = inr (results ++ ls)
             /\ Forall2 parsed_from rows ls.
Proof.
  intros H. revert results.
  induction H as [ | row rows [text Ht] _ IH]; intros results.
  - exists []. rewrite app_nil_r. split; [reflexivity | constructor].
  - destruct (IH (results ++ [listing_of_row text row])) as (ls & E & F).
    exists (listing_of_row text row :: ls). simpl. unfold on_data.
    rewrite Ht. fold (listing_of_row text row). rewrite E, <- app_assoc.
    split; [reflexivity | ].
    constructor; [now exists text | exact F].
Qed.

Lemma parsed_from_types (row : Row) (l : Listing) :
  parsed_from row l ->
  typeof_property l "price" = TNumber
  /\ bedrooms l = row !! "bedrooms"%string
  /\ review_scores_rating l = row !! "review_scores_rating"%string
  /\ host_id l = row !! "host_id"%string.
Proof.
  intros (text & _ & ->).
  unfold bedrooms, review_scores_rating, host_id, listing_of_row; simpl.
  rewrite !lookup_delete_ne by discriminate. repeat split.
Qed.

End Parsing.

(** C2 (as stated, refuted): a row with the three cells present is parsed
    into a listing whose [bedrooms] is still the text of the cell. *)
Lemma parseCSV_leaves_text :
  ~ (forall rows : list Row,
        Forall (fun row => is_Some (row !! "price"%string)
                           /\ is_Some (row !! "bedrooms"%string)
                           /\ is_Some (row !! "review_scores_rating"%string)) rows ->
        exists ls, parseCSV rows End = Resolved ls
                   /\ length ls = length rows
                   /\ Forall (fun l => typeof_property l "price" = TNumber
                                       /\ typeof_property l "bedrooms" = TNumber
                                       /\ typeof_property l "review_scores_rating" = TNumber) ls).
Proof.
  intros H. destruct (H [complete_row]) as (ls & E & _ & F).
  { constructor; [ | constructor]. repeat split; eexists; reflexivity. }
  vm_compute in E. injection E as <-.
  apply Forall_inv in F. destruct F as (_ & F & _). vm_compute in F. discriminate F.
Qed.

(** C2 (amended): for every input whose N data rows all have a [price]
    cell, parsing produces exactly N listings, one per row in order; in each
    of them [price] is a Number, the one coerced from the cell, while
    [bedrooms] and [review_scores_rating] (and [host_id]) are left as the
    row has them: the raw text of the cell, or missing. *)
Theorem parseCSV_one_listing_per_row (rows : list Row) :
  Forall (fun row => is_Some (row !! "price"%string)) rows ->
  exists ls,
    parseCSV rows End = Resolved ls
    /\ length ls = length rows
    /\ Forall2 (fun row l =>
                  parsed_from row l
                  /\ typeof_property l "price" = TNumber
                  /\ bedrooms l = row !! "bedrooms"%string
                  /\ review_scores_rating l = row !! "review_scores_rating"%string) rows ls.
Proof.
  intros H. destruct (on_rows_with_price rows [] H) as (ls & E & F).
  exists ls. unfold parseCSV. rewrite E. simpl.
  split; [reflexivity | split].
  - symmetry. eapply Forall2_length, F.
  - eapply Forall2_impl; [exact F | ]. intros row l P.
    destruct (parsed_from_types row l P) as (T & B & R & _). auto.
Qed.

Lemma parseCSV_one_listing_per_row_witness :
  Forall (fun row => is_Some (row !! "price"%string)) [complete_row]
  /\ exists ls,
      parseCSV [complete_row] End = Resolved ls
      /\ length ls = length [complete_row]
      /\ Forall2 (fun row l =>
                    parsed_from row l
                    /\ typeof_property l "price" = TNumber
                    /\ bedrooms l = row !! "bedrooms"%string
                    /\ review_scores_rating l = row !! "review_scores_rating"%string)
           [complete_row] ls.
Proof.
  assert (H : Forall (fun row => is_Some (row !! "price"%string)) [complete_row]).
  { constructor; [eexists; reflexivity | constructor]. }
  split; [exact H | ].
  exact (parseCSV_one_listing_per_row [complete_row] H).
Defined.

(** A row without a [price] cell makes the callback throw. *)
Example parseCSV_row_without_price :
  parseCSV [row_of [("bedrooms", "2")]%string] End = Failed TypeError.
Proof. reflexivity. Qed.

(** The two examples of the specification. *)
Example coerce_price_examples :
  coerce_price "$1,200.50" = Num.of_Q false (120050 # 100)
  /\ coerce_price "abc" = Num.zero.
Proof. split; vm_compute; reflexivity. Qed.

(** C3 (the code differs): a price text with two decimal points keeps both
    after the stripping, is not a numeric literal, and is coerced to NaN,
    not to 0; the listing is stored with the price NaN. *)
Theorem coerce_price_two_points :
  strip_non_numeric "$1.234.567" = "1.234.567"%string
  /\ coerce_price "$1.234.567" = Num.NaN
  /\ exists l, parseCSV [row_of [("price", "$1.234.567")]%string] End = Resolved [l]
               /\ price l = Num.NaN.
Proof.
  split; [reflexivity | split; [vm_compute; reflexivity | ]].
  eexists. split; [reflexivity | vm_compute; reflexivity].
Qed.

(** ** The ranking outside the inherited keys *)

Section Ranking.
Import Obj.

Lemma own_set_own (o : obj) (k k' : string) (v : value) :
  own (set_own o k v) k' = if decide (k = k') then Some v else own o k'.
Proof.
  induction o as [ | [k0 v0] o IH]; simpl.
  - destruct (decide (k = k')); reflexivity.
  - destruct (decide (k0 = k)) as [-> | Hne]; simpl.
    + destruct (decide (k = k')); reflexivity.
    + destruct (decide (k0 = k')) as [-> | Hne'].
      * destruct (decide (k = k')); [congruence | reflexivity].
      * exact IH.
Qed.

Lemma keys_set_own (o : obj) (k : string) (v : value) :
  map fst (set_own o k v)
  = match own o k with
    | Some _ => map fst o
    | None => map fst o ++ [k]
    end.
Proof.
  induction o as [ | [k0 v0] o IH]; simpl; [reflexivity | ].
  destruct (decide (k0 = k)) as [-> | Hne]; simpl; [reflexivity | ].
  rewrite IH. destruct (own o k); reflexivity.
Qed.

Lemma own_In (o : obj) (k : string) (v : value) :
  own o k = Some v -> In (k, v) o.
Proof.
  induction o as [ | [k0 v0] o IH]; simpl; [discriminate | ].
  destruct (decide (k0 = k)) as [-> | Hne].
  - intros [= ->]. now left.
  - intros H. right. now apply IH.
Qed.

Lemma own_None (o : obj) (k : string) : own o k = None -> ~ In k (map fst o).
Proof.
  induction o as [ | [k0 v0] o IH]; simpl; [tauto | ].
  destruct (decide (k0 = k)) as [-> | Hne]; [discriminate | ].
  intros H [E | Hin]; [congruence | now apply IH].
Qed.

Lemma In_own (o : obj) (k : string) (v : value) :
  List.NoDup (map fst o) -> In (k, v) o -> own o k = Some v.
Proof.
  induction o as [ | [k0 v0] o IH]; simpl; [tauto | ].
  intros Hnd [E | Hin].
  - injection E as -> ->. now destruct (decide (k = k)).
  - apply NoDup_cons_iff in Hnd as [Hk0 Hnd].
    destruct (decide (k0 = k)) as [-> | Hne]; [ | now apply IH].
    exfalso. apply Hk0. apply in_map_iff. now exists (k, v).
Qed.

Lemma NoDup_set_own (o : obj) (k : string) (v : value) :
  List.NoDup (map fst o) -> List.NoDup (map fst (set_own o k v)).
Proof.
  intros H. rewrite keys_set_own. destruct (own o k) eqn:E; [exact H | ].
  apply List.NoDup_app; [exact H | repeat constructor; intros [] | ].
  intros x Hx [<- | []]. now apply (own_None o k E).
Qed.

(** One step of the tally, for a host key that is not inherited. *)
Lemma own_tally (acc : obj) (l : Listing) (k : string) :
  proto_text (hostKey l) = None -> counts_only acc ->
  own (tally acc l) k
  = if decide (hostKey l = k) then Some (VNum (num_of (own acc k) + 1))
    else own acc k.
Proof.
  intros Hp Hacc. unfold tally.
  destruct (own acc (hostKey l)) as [v | ] eqn:E.
  - destruct (Hacc _ _ E) as [n ->]. rewrite own_set_own.
    destruct (decide (hostKey l = k)) as [<- | ]; [now rewrite E | reflexivity].
  - rewrite Hp, own_set_own.
    destruct (decide (hostKey l = k)) as [<- | ]; [now rewrite E | reflexivity].
Qed.

Lemma counts_only_tally (acc : obj) (l : Listing) :
  proto_text (hostKey l) = None -> counts_only acc -> counts_only (tally acc l).
Proof.
  intros Hp Hacc k v. rewrite (own_tally acc l k Hp Hacc).
  destruct (decide (hostKey l = k)); [intros [= <-]; eauto | apply Hacc].
Qed.

Lemma NoDup_tally (acc : obj) (l : Listing) :
  List.NoDup (map fst acc) -> List.NoDup (map fst (tally acc l)).
Proof.
  intros H. unfold tally.
  repeat match goal with
         | |- context [match ?t with _ => _ end] => destruct t
         end; try exact H; now apply NoDup_set_own.
Qed.

Lemma host_count_cons (k : string) (l : Listing) (ls : list Listing) :
  host_count k (l :: ls)
  = (if decide (hostKey l = k) then host_count k ls + 1 else host_count k ls)%N.
Proof.
  unfold host_count. simpl. unfold bool_decide.
  destruct (decide_rel eq (hostKey l) k) as [E | E];
    destruct (decide (hostKey l = k)); try contradiction; simpl length; lia.
Qed.

Lemma own_fold_tally (ls : list Listing) (acc : obj) (k : string) :
  Forall (fun l => proto_text (hostKey l) = None) ls -> counts_only acc ->
  counts_only (fold_left tally ls acc)
  /\ own (fold_left tally ls acc) k
     = if (host_count k ls =? 0)%N then own acc k
       else Some (VNum (num_of (own acc k) + host_count k ls)).
Proof.
  intros H. revert acc. induction H as [ | l ls Hl _ IH]; intros acc Hacc; simpl fold_left.
  - split; [exact Hacc | reflexivity].
  - destruct (IH (tally acc l) (counts_only_tally _ _ Hl Hacc)) as [Hc Ho].
    split; [exact Hc | ]. rewrite Ho, host_count_cons, (own_tally acc l k Hl Hacc).
    destruct (decide (hostKey l = k)) as [E | E].
    + destruct (host_count k ls =? 0)%N eqn:E0.
      * apply N.eqb_eq in E0. rewrite E0.
        replace (0 + 1 =? 0)%N with false by (symmetry; apply N.eqb_neq; lia).
        reflexivity.
      * replace (host_count k ls + 1 =? 0)%N with false by (symmetry; apply N.eqb_neq; lia).
        simpl num_of. do 2 f_equal. lia.
    + reflexivity.
Qed.

Lemma own_hostMap (ls : list Listing) (k : string) :
  Forall (fun l => proto_text (hostKey l) = None) ls ->
  own (hostMap ls) k
  = if (host_count k ls =? 0)%N then None else Some (VNum (host_count k ls)).
Proof.
  intros H. destruct (own_fold_tally ls empty k H) as [_ E]; [intros ? ? [=] | ].
  unfold hostMap. rewrite E. reflexivity.
Qed.

Lemma NoDup_hostMap (ls : list Listing) : List.NoDup (map fst (hostMap ls)).
Proof.
  unfold hostMap. generalize (List.NoDup_nil string).
  change (@nil string) with (map fst empty). generalize empty.
  induction ls as [ | l ls IH]; intros acc H; simpl; [exact H | ].
  apply IH. now apply NoDup_tally.
Qed.

(** [Object.entries] lists every own property once. *)
Lemma insert_index_perm (e : N * (string * value)) (l : list (N * (string * value))) :
  Permutation (insert_index e l) (e :: l).
Proof.
  induction l as [ | e' l IH]; simpl; [reflexivity | ].
  destruct (fst e <=? fst e')%N; [reflexivity | ].
  rewrite IH. apply perm_swap.
Qed.

Lemma entries_perm (o : obj) : Permutation (entries o) o.
Proof.
  unfold entries, index_entries.
  induction o as [ | kv o IH]; simpl; [reflexivity | ].
  destruct (array_index (fst kv)); simpl.
  - rewrite insert_index_perm. simpl. now rewrite IH.
  - rewrite <- Permutation_middle. now rewrite IH.
Qed.

Lemma sort_insert_perm (a : HostCount) (l : list HostCount) :
  Permutation (sort_insert a l) (a :: l).
Proof.
  induction l as [ | b l IH]; simpl; [reflexivity | ].
  destruct (after a b); [ | reflexivity].
  rewrite IH. apply perm_swap.
Qed.

Lemma sort_ranking_perm (l : list HostCount) : Permutation (sort_ranking l) l.
Proof.
  induction l as [ | a l IH]; simpl; [reflexivity | ].
  rewrite sort_insert_perm. now rewrite IH.
Qed.

Lemma after_counts (a b : HostCount) :
  is_count a -> is_count b -> after a b = (count_num a <? count_num b)%N.
Proof.
  intros [x Hx] [y Hy]. unfold after, compare_counts, count_num. rewrite Hx, Hy.
  destruct (x <? y)%N eqn:E.
  - apply N.ltb_lt in E. apply Z.ltb_lt. lia.
  - apply N.ltb_ge in E. apply Z.ltb_ge. lia.
Qed.

Lemma sort_insert_sorted (a : HostCount) (l : list HostCount) :
  is_count a -> Forall is_count l ->
  Sorted (fun x y => (count_num y <= count_num x)%N) l ->
  Sorted (fun x y => (count_num y <= count_num x)%N) (sort_insert a l).
Proof.
  intros Ha Hl Hs. induction Hs as [ | b l Hs IH Hb]; simpl.
  - repeat constructor.
  - apply Forall_cons_iff in Hl as [Hcb Hl].
    rewrite (after_counts a b Ha Hcb).
    destruct (count_num a <? count_num b)%N eqn:E.
    + apply N.ltb_lt in E. constructor; [now apply IH | ].
      destruct l as [ | c l]; simpl.
      * constructor. lia.
      * apply Forall_cons_iff in Hl as [Hcc _].
        rewrite (after_counts a c Ha Hcc).
        destruct (count_num a <? count_num c)%N; constructor; [now inversion Hb | lia].
    + apply N.ltb_ge in E. constructor; [now constructor | constructor; exact E].
Qed.

Lemma sort_ranking_sorted (l : list HostCount) :
  Forall is_count l ->
  Sorted (fun x y => (count_num y <= count_num x)%N) (sort_ranking l).
Proof.
  induction 1 as [ | a l Ha Hl IH]; simpl; [constructor | ].
  apply sort_insert_sorted; [exact Ha | | exact IH].
  apply Forall_forall. intros x Hx. rewrite Forall_forall in Hl. apply Hl.
  apply list_elem_of_In. apply list_elem_of_In in Hx.
  now rewrite <- (sort_ranking_perm l).
Qed.

End Ranking.

(** X17: For every listing set without a host key that [{}] inherits,
    [computeListingsByHost] returns one entry per host (with ["unknown"]
    for a missing or empty [host_id]), whose count is the number of
    listings of that host, sorted by count in descending order. *)
Lemma computeListingsByHost_counts (s : list Listing) :
  Forall (fun l => Obj.proto_text (hostKey l) = None) s ->
  Sorted (fun x y => (count_num y <= count_num x)%N) (eval computeListingsByHost s)
  /\ List.NoDup (map hc_host_id (eval computeListingsByHost s))
  /\ forall h, In h (eval computeListingsByHost s)
               <-> hc_count h = Obj.VNum (host_count (hc_host_id h) s)
                   /\ (0 < host_count (hc_host_id h) s)%N.
Proof.
  intros Hs.
  set (pairs := Obj.entries (hostMap s)).
  set (unsorted := map (fun '(host_id, count) => mkHostCount host_id count) pairs).
  assert (Er : eval computeListingsByHost s = sort_ranking unsorted) by reflexivity.
  assert (Hp : Permutation pairs (hostMap s)) by apply entries_perm.
  assert (Hin : forall h, In h unsorted
                          <-> Obj.own (hostMap s) (hc_host_id h) = Some (hc_count h)).
  { intros [k v]. simpl. unfold unsorted. rewrite in_map_iff. split.
    - intros ([k' v'] & [= -> ->] & Hkv). apply In_own; [apply NoDup_hostMap | ].
      apply list_elem_of_In. rewrite <- Hp. now apply list_elem_of_In.
    - intros Ho. exists (k, v). split; [reflexivity | ].
      apply list_elem_of_In. rewrite Hp. apply list_elem_of_In. now apply own_In. }
  assert (Hown : forall h, Obj.own (hostMap s) (hc_host_id h) = Some (hc_count h)
                           <-> hc_count h = Obj.VNum (host_count (hc_host_id h) s)
                               /\ (0 < host_count (hc_host_id h) s)%N).
  { intros h. rewrite (own_hostMap s _ Hs).
    destruct (host_count (hc_host_id h) s =? 0)%N eqn:E.
    - apply N.eqb_eq in E. split; [discriminate | intros [_ H]; lia].
    - apply N.eqb_neq in E. split; [intros [= <-]; split; [reflexivity | lia] | ].
      intros [-> _]. reflexivity. }
  rewrite Er. split; [ | split].
  - apply sort_ranking_sorted. apply Forall_forall. intros h Hh.
    apply list_elem_of_In in Hh.
    apply Hin, Hown in Hh as [Hh _]. eexists. exact Hh.
  - assert (Hk : Permutation (map hc_host_id (sort_ranking unsorted)) (map fst (hostMap s))).
    { rewrite sort_ranking_perm. unfold unsorted. rewrite map_map.
      rewrite <- Hp. apply Permutation_refl'. apply map_ext. now intros [k v]. }
    apply (Permutation_NoDup (Permutation_sym Hk)). apply NoDup_hostMap.
  - intros h. rewrite <- Hown, <- Hin.
    split; intros H; apply list_elem_of_In; apply list_elem_of_In in H.
    + now rewrite <- (sort_ranking_perm unsorted).
    + now rewrite (sort_ranking_perm unsorted).
Qed.

(** ** Claims on the host ranking *)

(** The example of the specification. *)
Example computeListingsByHost_example :
  eval computeListingsByHost [hosted_by "A"; hosted_by "A"; hosted_by "B"]
  = [mkHostCount "A" (Obj.VNum 2); mkHostCount "B" (Obj.VNum 1)].
Proof. vm_compute; reflexivity. Qed.

Example computeListingsByHost_unknown :
  eval computeListingsByHost [hosted_by ""; listing_of 100 []; hosted_by "B"]
  = [mkHostCount "unknown" (Obj.VNum 2); mkHostCount "B" (Obj.VNum 1)].
Proof. vm_compute; reflexivity. Qed.

(** C5 (the code differs): a host whose [host_id] is the name of a property
    that [{}] inherits is not counted.  For ["constructor"] the first read
    of [acc[hostKey]] finds the inherited function, and the stored "count"
    is its text followed by "1", not the Number 1; listings of the host
    ["__proto__"] leave no entry at all. *)
Theorem computeListingsByHost_inherited_key :
  eval computeListingsByHost [hosted_by "constructor"]
  = [mkHostCount "constructor" (Obj.VStr "function Object() { [native code] }1")]
  /\ eval computeListingsByHost [hosted_by "__proto__"; hosted_by "A"]
     = [mkHostCount "A" (Obj.VNum 1)].
Proof. split; vm_compute; reflexivity. Qed.

(** ** Rounding and the text of Numbers

    The integer logarithm [ilog] in a radix [b], from the number of digits
    of integers in that radix. *)

Section Ilog.
Variable b : Z.
Variable nd : Z -> Z.
Hypothesis b_gt_1 : (1 < b)%Z.
Hypothesis nd_spec :
  forall z, (1 <= z)%Z -> (1 <= nd z)%Z /\ (b ^ (nd z - 1) <= z < b ^ nd z)%Z.

Lemma base_pos : (0 < inject_Z b)%Q.
Proof. change 0%Q with (inject_Z 0). rewrite <- Zlt_Qlt. lia. Qed.

Lemma base_pow_pos (e : Z) : (0 < inject_Z b ^ e)%Q.
Proof. apply Qpower_0_lt, base_pos. Qed.

Lemma ilog_spec (q : Q) :
  (0 < q)%Q ->
  (inject_Z b ^ Num.ilog nd q <= q)%Q /\ (q < inject_Z b ^ (Num.ilog nd q + 1))%Q.
Proof.
  intros Hq. unfold Num.ilog.
  destruct (Qle_bool 1 q) eqn:H1.
  - apply Qle_bool_iff in H1.
    assert (Hz : (1 <= Qfloor q)%Z).
    { change 1%Z with (Qfloor 1). now apply Qfloor_resp_le. }
    destruct (nd_spec _ Hz) as (Hd & Hlo & Hhi).
    split.
    + rewrite <- Zpower_Qpower by lia.
      apply Qle_trans with (inject_Z (Qfloor q)); [ | apply Qfloor_le].
      rewrite <- Zle_Qle. exact Hlo.
    + replace (nd (Qfloor q) - 1 + 1)%Z with (nd (Qfloor q)) by lia.
      rewrite <- Zpower_Qpower by lia.
      apply Qlt_le_trans with (inject_Z (Qfloor q + 1)); [apply Qlt_floor | ].
      rewrite <- Zle_Qle. lia.
  - assert (Hq1 : (q < 1)%Q).
    { apply Qnot_le_lt. intros H. apply Qle_bool_iff in H. congruence. }
    assert (Hinv : (1 < / q)%Q).
    { change 1%Q with (/ 1)%Q.
      exact (proj1 (Qinv_lt_contravar q 1 Hq eq_refl) Hq1). }
    assert (Hc : (1 <= Qceiling (/ q) - 1)%Z).
    { assert (H : (1 < Qceiling (/ q))%Z); [ | lia].
      rewrite Zlt_Qlt. eapply Qlt_le_trans; [exact Hinv | apply Qle_ceiling]. }
    destruct (nd_spec _ Hc) as (Hd & Hlo & Hhi).
    set (d := nd (Qceiling (/ q) - 1)) in *.
    assert (Hqq : (q * / q == 1)%Q) by (apply Qmult_inv_r; lra).
    split.
    + rewrite Qpower_opp. apply Qle_shift_inv_r; [apply base_pow_pos | ].
      rewrite <- Hqq. apply Qmult_le_l; [exact Hq | ].
      apply Qle_trans with (inject_Z (Qceiling (/ q))); [apply Qle_ceiling | ].
      rewrite <- Zpower_Qpower by lia. rewrite <- Zle_Qle. lia.
    + replace (- d + 1)%Z with (- (d - 1))%Z by lia.
      rewrite Qpower_opp. apply Qlt_shift_inv_l; [apply base_pow_pos | ].
      rewrite <- Hqq. apply Qmult_lt_l; [exact Hq | ].
      apply Qle_lt_trans with (inject_Z (Qceiling (/ q) - 1)); [ | apply Qceiling_lt].
      rewrite <- Zpower_Qpower by lia. rewrite <- Zle_Qle. exact Hlo.
Qed.

Lemma base_pow_lt (e1 e2 : Z) :
  (inject_Z b ^ e1 < inject_Z b ^ e2)%Q -> (e1 < e2)%Z.
Proof.
  intros H. apply Qpower_lt_compat_l_inv with (q := inject_Z b); [exact H | ].
  change 1%Q with (inject_Z 1). rewrite <- Zlt_Qlt. exact b_gt_1.
Qed.

Lemma ilog_unique (q : Q) (E : Z) :
  (inject_Z b ^ E <= q)%Q -> (q < inject_Z b ^ (E + 1))%Q -> Num.ilog nd q = E.
Proof.
  intros Hlo Hhi.
  assert (Hq : (0 < q)%Q) by (eapply Qlt_le_trans; [apply base_pow_pos | exact Hlo]).
  destruct (ilog_spec q Hq) as [Hlo' Hhi'].
  assert (Num.ilog nd q < E + 1)%Z
    by (apply base_pow_lt; eapply Qle_lt_trans; [exact Hlo' | exact Hhi]).
  assert (E < Num.ilog nd q + 1)%Z
    by (apply base_pow_lt; eapply Qle_lt_trans; [exact Hlo | exact Hhi']).
  lia.
Qed.
End Ilog.

Lemma bits_spec (z : Z) :
  (1 <= z)%Z -> (1 <= Num.bits z)%Z /\ (2 ^ (Num.bits z - 1) <= z < 2 ^ Num.bits z)%Z.
Proof.
  intros Hz. unfold Num.bits.
  pose proof (Z.log2_nonneg z). pose proof (Z.log2_spec z ltac:(lia)) as H1.
  replace (Z.log2 z + 1 - 1)%Z with (Z.log2 z) by lia.
  split; [lia | ]. unfold Z.succ in H1. exact H1.
Qed.

(** Rounding to binary64: it respects the equality of rationals, gives
    canonical values, and leaves a canonical value as it is. *)

Section Rounding.
Local Open Scope Z_scope.

Lemma ilog2_spec (q : Q) :
  (0 < q)%Q -> (2 ^ Num.ilog2 q <= q)%Q /\ (q < 2 ^ (Num.ilog2 q + 1))%Q.
Proof. apply (ilog_spec 2 Num.bits); [lia | exact bits_spec]. Qed.

Lemma ilog2_unique (q : Q) (E : Z) :
  (2 ^ E <= q)%Q -> (q < 2 ^ (E + 1))%Q -> Num.ilog2 q = E.
Proof. apply (ilog_unique 2 Num.bits); [lia | exact bits_spec]. Qed.

Lemma ilog_comp (nd : Z -> Z) (q1 q2 : Q) :
  (q1 == q2)%Q -> Num.ilog nd q1 = Num.ilog nd q2.
Proof.
  intros H. unfold Num.ilog.
  assert (Hi : (/ q1 == / q2)%Q) by now rewrite H.
  rewrite (Qleb_comp 1%Q 1%Q (Qeq_refl 1%Q) _ _ H), (Qfloor_comp _ _ H),
    (Qceiling_comp _ _ Hi).
  reflexivity.
Qed.

Lemma round_even_comp (v1 v2 : Q) :
  (v1 == v2)%Q -> Num.round_even v1 = Num.round_even v2.
Proof.
  intros H. unfold Num.round_even.
  rewrite (Qfloor_comp _ _ H).
  assert (E : (v1 - inject_Z (Qfloor v2) == v2 - inject_Z (Qfloor v2))%Q)
    by now rewrite H.
  now rewrite (Qcompare_comp _ _ E _ _ (Qeq_refl _)).
Qed.

Lemma round_pos_comp (s : bool) (q1 q2 : Q) :
  (q1 == q2)%Q -> Num.round_pos s q1 = Num.round_pos s q2.
Proof.
  intros H. unfold Num.round_pos, Num.ilog2.
  rewrite (ilog_comp _ _ _ H).
  set (e := Z.max _ _).
  assert (E : (q1 / 2 ^ e == q2 / 2 ^ e)%Q) by now rewrite H.
  now rewrite (round_even_comp _ _ E).
Qed.

Lemma of_Q_comp (s : bool) (q1 q2 : Q) :
  (q1 == q2)%Q -> Num.of_Q s q1 = Num.of_Q s q2.
Proof.
  intros H. unfold Num.of_Q.
  rewrite (Qcompare_comp _ _ H _ _ (Qeq_refl 0%Q)).
  assert (E : (- q1 == - q2)%Q) by now rewrite H.
  now rewrite (round_pos_comp _ _ _ H), (round_pos_comp _ _ _ E).
Qed.

Lemma round_even_floor (v : Q) :
  (Qfloor v <= Num.round_even v <= Qfloor v + 1)%Z.
Proof.
  unfold Num.round_even.
  destruct (Qcompare _ _); [destruct (Z.even _) | | ]; lia.
Qed.

Lemma round_even_Z (z : Z) : Num.round_even (inject_Z z) = z.
Proof.
  unfold Num.round_even. rewrite Qfloor_Z.
  assert (E0 : (inject_Z z - inject_Z z == 0)%Q) by ring.
  now rewrite (Qcompare_comp _ _ E0 _ _ (Qeq_refl _)).
Qed.

Lemma digits2_pos_size (p : positive) : digits2_pos p = Pos.size p.
Proof. induction p as [p IH | p IH | ]; simpl; now rewrite ?IH. Qed.

Lemma digits2_pos_bits (p : positive) : Z.pos (digits2_pos p) = Num.bits (Z.pos p).
Proof.
  rewrite digits2_pos_size. unfold Num.bits.
  destruct p as [p | p | ]; simpl; try reflexivity; lia.
Qed.

Lemma pow2_Q (e1 e2 : Z) : (2 ^ (e1 + e2) == 2 ^ e1 * 2 ^ e2)%Q.
Proof. apply Qpower_plus. discriminate. Qed.

Lemma pow2_pos (e : Z) : (0 < 2 ^ e)%Q.
Proof. now apply Qpower_0_lt. Qed.

Lemma pow2_inject (e : Z) : (0 <= e)%Z -> (2 ^ e == inject_Z (2 ^ e))%Q.
Proof. intros H. now rewrite (Zpower_Qpower 2 e H). Qed.

(** The rounding of a positive real is a canonical binary64 value. *)
Lemma round_pos_valid (s : bool) (q : Q) :
  (0 < q)%Q -> Num.valid (Num.round_pos s q) = true.
Proof.
  intros Hq. unfold Num.round_pos.
  destruct (ilog2_spec q Hq) as [Hlo _].
  set (E := Num.ilog2 q) in *. set (e := Z.max (E - 52) (-1074)).
  set (m := Num.round_even (q / 2 ^ e)).
  assert (He : (-1074 <= e)%Z) by (unfold e; lia).
  destruct (2 ^ 53 <=? m)%Z eqn:Hm.
  - change (2 ^ 52)%Z with (Z.pos (2 ^ 52)).
    destruct (e + 1 <=? 971)%Z eqn:He1; [ | reflexivity].
    apply Z.leb_le in He1. unfold Num.valid, valid_binary, bounded, canonical_mantissa.
    apply andb_true_iff. split; [apply Z.eqb_eq | apply Z.leb_le; exact He1].
    unfold fexp, emin, Num.prec, Num.emax. simpl digits2_pos. lia.
  - apply Z.leb_gt in Hm.
    destruct m as [ | p | p ] eqn:Em; try reflexivity.
    destruct (e <=? 971)%Z eqn:He1; [ | reflexivity].
    apply Z.leb_le in He1. unfold Num.valid, valid_binary, bounded, canonical_mantissa.
    apply andb_true_iff. split; [apply Z.eqb_eq | apply Z.leb_le; exact He1].
    unfold fexp, emin, Num.prec, Num.emax. rewrite digits2_pos_bits.
    destruct (bits_spec (Z.pos p) ltac:(lia)) as (Hb & Hb1 & Hb2).
    assert (Num.bits (Z.pos p) <= 53)%Z.
    { apply Z.nlt_ge. intros Hc.
      assert (2 ^ 53 <= 2 ^ (Num.bits (Z.pos p) - 1))%Z
        by (apply Z.pow_le_mono_r; lia). lia. }
    destruct (Z.eq_dec e (-1074)) as [-> | Hne]; [lia | ].
    assert (Ee : e = (E - 52)%Z) by (unfold e in *; lia).
    assert (Hp : (2 ^ 52 <= Z.pos p)%Z).
    { rewrite <- Em. unfold m.
      apply Z.le_trans with (Qfloor (q / 2 ^ e)); [ | apply round_even_floor].
      change (2 ^ 52)%Z with (Qfloor (inject_Z (2 ^ 52))).
      apply Qfloor_resp_le. apply Qle_shift_div_l; [apply pow2_pos | ].
      rewrite <- (pow2_inject 52) by lia. rewrite <- pow2_Q.
      replace (52 + e)%Z with E by lia. exact Hlo. }
    assert (53 <= Num.bits (Z.pos p))%Z; [ | lia].
    apply Z.nlt_ge. intros Hc.
    assert (2 ^ Num.bits (Z.pos p) <= 2 ^ 52)%Z
      by (apply Z.pow_le_mono_r; lia). lia.
Qed.

Lemma of_Q_valid (s : bool) (q : Q) : Num.valid (Num.of_Q s q) = true.
Proof.
  unfold Num.of_Q. destruct (Qcompare q 0) eqn:E; [reflexivity | | ].
  - apply round_pos_valid. apply Qlt_alt in E. lra.
  - apply round_pos_valid. apply Qgt_alt in E. lra.
Qed.

(** Rounding the real of a canonical value gives the value back. *)
Lemma round_pos_exact (s : bool) (m : positive) (e : Z) :
  Num.valid (S754_finite s m e) = true ->
  Num.round_pos s (inject_Z (Z.pos m) * 2 ^ e) = S754_finite s m e.
Proof.
  unfold Num.valid, valid_binary, bounded, canonical_mantissa.
  rewrite andb_true_iff, Z.eqb_eq, Z.leb_le, digits2_pos_bits.
  unfold fexp, emin, Num.prec, Num.emax. intros [Hc He].
  destruct (bits_spec (Z.pos m) ltac:(lia)) as (Hb & Hb1 & Hb2).
  assert (HE : Num.ilog2 (inject_Z (Z.pos m) * 2 ^ e) = (Num.bits (Z.pos m) - 1 + e)%Z).
  { apply ilog2_unique.
    - rewrite pow2_Q. apply Qmult_le_compat_r; [ | apply Qlt_le_weak, pow2_pos].
      rewrite pow2_inject by lia. now rewrite <- Zle_Qle.
    - replace (Num.bits (Z.pos m) - 1 + e + 1)%Z with (Num.bits (Z.pos m) + e)%Z by lia.
      rewrite pow2_Q. apply Qmult_lt_compat_r; [apply pow2_pos | ].
      rewrite pow2_inject by lia. now rewrite <- Zlt_Qlt. }
  unfold Num.round_pos. rewrite HE.
  replace (Z.max (Num.bits (Z.pos m) - 1 + e - 52) (-1074)) with e by lia.
  assert (Hv : (inject_Z (Z.pos m) * 2 ^ e / 2 ^ e == inject_Z (Z.pos m))%Q).
  { apply Qdiv_mult_l. pose proof (pow2_pos e). lra. }
  rewrite (round_even_comp _ _ Hv), round_even_Z.
  assert (Hm : (Z.pos m < 2 ^ 53)%Z).
  { assert (Num.bits (Z.pos m) <= 53)%Z by lia.
    assert (2 ^ Num.bits (Z.pos m) <= 2 ^ 53)%Z by (apply Z.pow_le_mono_r; lia). lia. }
  apply Z.leb_gt in Hm. rewrite Hm.
  assert (He' : (e <=? 971) = true) by (apply Z.leb_le; lia).
  now rewrite He'.
Qed.

Lemma of_Q_exact (s0 : bool) (x : number) :
  Num.valid x = true ->
  (exists s m e, x = S754_finite s m e) ->
  Num.of_Q s0 (Num.to_Q x) = x.
Proof.
  intros Hv (s & m & e & ->). unfold Num.of_Q, Num.to_Q.
  assert (Hp : (0 < inject_Z (Z.pos m) * 2 ^ e)%Q).
  { apply Qmult_lt_0_compat; [ | apply pow2_pos].
    change 0%Q with (inject_Z 0). now rewrite <- Zlt_Qlt. }
  destruct s.
  - assert (En : (inject_Z (Z.neg m) * 2 ^ e == - (inject_Z (Z.pos m) * 2 ^ e))%Q).
    { change (Z.neg m) with (- Z.pos m). rewrite inject_Z_opp. ring. }
    assert (E : (inject_Z (Z.neg m) * 2 ^ e ?= 0)%Q = Lt).
    { apply Qlt_alt. rewrite <- (Qmult_0_l (2 ^ e)).
      apply Qmult_lt_compat_r; [apply pow2_pos | ].
      change 0%Q with (inject_Z 0). now rewrite <- Zlt_Qlt. }
    rewrite E. rewrite <- (round_pos_exact true m e Hv).
    apply round_pos_comp. rewrite En. ring.
  - assert (E : (inject_Z (Z.pos m) * 2 ^ e ?= 0)%Q = Gt).
    { apply Qgt_alt. exact Hp. }
    rewrite E. now apply round_pos_exact.
Qed.

End Rounding.

(** The decimal digits of an integer. *)

Section DigitsFacts.
Import Text Digits.
Local Open Scope Z_scope.

Lemma digits_val_from (l : chars) (acc : Z) :
  fold_left (fun a c => 10 * a + digit_val c) l acc
  = acc * 10 ^ Z.of_nat (length l) + digits_val l.
Proof.
  unfold digits_val. revert acc.
  induction l as [ | c l IH]; intros acc; simpl fold_left.
  - simpl. lia.
  - rewrite IH, (IH (10 * 0 + digit_val c)).
    change (length (c :: l)) with (S (length l)).
    rewrite Nat2Z.inj_succ, Z.pow_succ_r by lia. ring.
Qed.

Lemma digits_val_app (l1 l2 : chars) :
  digits_val (l1 ++ l2) = digits_val l1 * 10 ^ Z.of_nat (length l2) + digits_val l2.
Proof.
  unfold digits_val at 1. rewrite fold_left_app.
  fold (digits_val l1). apply digits_val_from.
Qed.

Lemma digits_val_cons (c : ascii) (l : chars) :
  digits_val (c :: l) = digit_val c * 10 ^ Z.of_nat (length l) + digits_val l.
Proof.
  change (c :: l) with ([c] ++ l). rewrite digits_val_app.
  unfold digits_val at 1. simpl. lia.
Qed.

Lemma digits_val_zeros (n : nat) : digits_val (repeat "0"%char n) = 0.
Proof.
  induction n as [ | n IH]; [reflexivity | ].
  simpl repeat. rewrite digits_val_cons, IH. reflexivity.
Qed.

Lemma code_digit_char (d : Z) :
  0 <= d < 10 -> code (digit_char d) = Z.to_N (d + 48).
Proof.
  intros H. unfold code, digit_char. apply N_ascii_embedding. lia.
Qed.

Lemma is_digit_digit_char (d : Z) : 0 <= d < 10 -> is_digit (digit_char d) = true.
Proof.
  intros H. unfold is_digit. rewrite code_digit_char by exact H.
  apply andb_true_iff. split; apply N.leb_le; lia.
Qed.

Lemma digit_val_digit_char (d : Z) : 0 <= d < 10 -> digit_val (digit_char d) = d.
Proof.
  intros H. unfold digit_val. rewrite code_digit_char by exact H. lia.
Qed.

(** What [digits_fuel] puts in front of the accumulator. *)
Lemma digits_fuel_spec (fuel : nat) (z : Z) (acc : chars) :
  (0 < fuel)%nat ->
  0 <= z < 2 ^ Z.of_nat fuel ->
  exists ds,
    digits_fuel fuel z acc = ds ++ acc
    /\ ds <> []
    /\ forallb is_digit ds = true
    /\ digits_val ds = z
    /\ (1 <= z -> 10 ^ (Z.of_nat (length ds) - 1) <= z < 10 ^ Z.of_nat (length ds))
    /\ (1 <= z -> exists c ds', ds = c :: ds' /\ (code c =? 48)%N = false).
Proof.
  revert z acc. induction fuel as [ | fuel IH]; intros z acc Hf Hz.
  - lia.
  - simpl digits_fuel. destruct (z <? 10) eqn:E.
    + apply Z.ltb_lt in E. exists [digit_char z].
      split; [reflexivity | split; [discriminate | split; [ | split; [ | split]]]].
      * simpl. now rewrite is_digit_digit_char by lia.
      * unfold digits_val. simpl. rewrite digit_val_digit_char by lia. lia.
      * intros H1. simpl. lia.
      * intros H1. exists (digit_char z), []. split; [reflexivity | ].
        rewrite code_digit_char by lia. apply N.eqb_neq. lia.
    + apply Z.ltb_ge in E.
      assert (Hq : 0 <= z / 10 < 2 ^ Z.of_nat fuel).
      { rewrite Nat2Z.inj_succ, Z.pow_succ_r in Hz by lia.
        split; [apply Z.div_pos; lia | ].
        apply Z.div_lt_upper_bound; lia. }
      assert (Hq1 : 1 <= z / 10) by (apply Z.div_le_lower_bound; lia).
      pose proof (Z.mod_pos_bound z 10 ltac:(lia)) as Hm.
      assert (Hf' : (0 < fuel)%nat).
      { destruct fuel; [simpl in Hq; lia | lia]. }
      destruct (IH (z / 10) (digit_char (z mod 10) :: acc) Hf' Hq)
        as (ds & E1 & Hne & Hd & Hv & Hlen & Hhd).
      exists (ds ++ [digit_char (z mod 10)]).
      split; [now rewrite E1, <- app_assoc | ].
      split; [destruct ds; discriminate | ].
      split; [ | split; [ | split]].
      * rewrite forallb_app, Hd. simpl. now rewrite is_digit_digit_char.
      * rewrite digits_val_app, Hv. unfold digits_val at 1. simpl.
        rewrite digit_val_digit_char by lia.
        pose proof (Z.div_mod z 10 ltac:(lia)). lia.
      * intros _. rewrite length_app. simpl length.
        destruct (Hlen Hq1) as [Hl1 Hl2].
        assert (Hpos : (0 < length ds)%nat) by (destruct ds; [congruence | simpl; lia]).
        replace (Z.of_nat (length ds + 1) - 1) with (Z.succ (Z.of_nat (length ds) - 1)) by lia.
        replace (Z.of_nat (length ds + 1)) with (Z.succ (Z.of_nat (length ds))) by lia.
        rewrite !Z.pow_succ_r by lia.
        pose proof (Z.div_mod z 10 ltac:(lia)). lia.
      * intros _. destruct (Hhd Hq1) as (c & ds' & -> & Hc).
        exists c, (ds' ++ [digit_char (z mod 10)]). split; [reflexivity | exact Hc].
Qed.

Lemma digits_of_spec (z : Z) :
  0 <= z ->
  digits_of z <> []
  /\ forallb is_digit (digits_of z) = true
  /\ digits_val (digits_of z) = z
  /\ (1 <= z -> 10 ^ (ndigits z - 1) <= z < 10 ^ ndigits z)
  /\ (1 <= z -> exists c ds', digits_of z = c :: ds' /\ (code c =? 48)%N = false).
Proof.
  intros Hz. unfold ndigits, digits_of.
  destruct (digits_fuel_spec (S (Z.to_nat (Z.log2 z))) z []) as (ds & E & H).
  - lia.
  - split; [exact Hz | ].
    rewrite Nat2Z.inj_succ, Z2Nat.id by apply Z.log2_nonneg.
    destruct (Z.eq_dec z 0) as [-> | Hne]; [reflexivity | ].
    apply Z.log2_spec. lia.
  - rewrite E, app_nil_r. exact H.
Qed.

Lemma ndigits_spec (z : Z) :
  1 <= z -> 1 <= ndigits z /\ 10 ^ (ndigits z - 1) <= z < 10 ^ ndigits z.
Proof.
  intros Hz. destruct (digits_of_spec z ltac:(lia)) as (Hne & _ & _ & Hlen & _).
  split; [ | now apply Hlen].
  unfold ndigits. destruct (digits_of z); [congruence | simpl length; lia].
Qed.

End DigitsFacts.

(** The search for the shortest digits always succeeds. *)

Section Shortest.
Import Text Digits NumberToString.
Local Open Scope Z_scope.

Lemma ilog10_spec (q : Q) :
  (0 < q)%Q -> (10 ^ ilog10 q <= q)%Q /\ (q < 10 ^ (ilog10 q + 1))%Q.
Proof. apply (ilog_spec 10 ndigits); [lia | exact ndigits_spec]. Qed.

Lemma pow10_pos (e : Z) : (0 < 10 ^ e)%Q.
Proof. now apply Qpower_0_lt. Qed.

Lemma pow10_lt (e1 e2 : Z) : (10 ^ e1 < 10 ^ e2)%Q -> e1 < e2.
Proof. apply (base_pow_lt 10). lia. Qed.

Lemma pow10_split (e : Z) : (10 ^ e == 2 ^ e * 5 ^ e)%Q.
Proof. rewrite <- Qmult_power. apply Qpower_comp; reflexivity. Qed.

Lemma pow10_Q (e1 e2 : Z) : (10 ^ (e1 + e2) == 10 ^ e1 * 10 ^ e2)%Q.
Proof. apply Qpower_plus. discriminate. Qed.

Lemma pick_sound (x : number) (X : Q) (k : Z) (c : Z * Z) :
  pick x X k = Some c -> rounds_to x c = true.
Proof.
  unfold pick. cbv zeta.
  match goal with |- context [if ?t =? ?u then _ else _] => destruct (t =? u) end;
    intros H;
    repeat match type of H with
           | context [match ?t with _ => _ end] => destruct t eqn:?
           end;
    inversion H; subst; assumption.
Qed.

Lemma pick_lo (x : number) (X : Q) (k : Z) :
  rounds_to x (Qfloor (X / 10 ^ (ilog10 X + 1 - k)), ilog10 X + 1 - k) = true ->
  is_Some (pick x X k).
Proof.
  intros H. unfold pick. cbv zeta. rewrite H.
  repeat match goal with
         | |- context [match ?t with _ => _ end] => destruct t
         end; eexists; reflexivity.
Qed.

Lemma search_sound (x : number) (X : Q) (fuel : nat) (k : Z) (c : Z * Z) :
  search x X fuel k = Some c -> rounds_to x c = true.
Proof.
  revert k. induction fuel as [ | fuel IH]; intros k; simpl; [discriminate | ].
  destruct (pick x X k) eqn:E.
  - intros [= <-]. eapply pick_sound, E.
  - apply IH.
Qed.

Lemma search_complete (x : number) (X : Q) (fuel : nat) (k k0 : Z) :
  k <= k0 < k + Z.of_nat fuel ->
  is_Some (pick x X k0) -> is_Some (search x X fuel k).
Proof.
  revert k. induction fuel as [ | fuel IH]; intros k Hk H0; [lia | ].
  simpl. destruct (pick x X k) eqn:E; [eexists; reflexivity | ].
  apply IH; [ | exact H0].
  destruct (Z.eq_dec k k0) as [-> | Hne]; [ | lia].
  rewrite E in H0. destruct H0 as [? H0]. discriminate H0.
Qed.

(** The bounds of a canonical binary64 value. *)
Lemma valid_bounds (s : bool) (m : positive) (e : Z) :
  Num.valid (S754_finite s m e) = true ->
  Z.pos m < 2 ^ 53 /\ -1074 <= e <= 971.
Proof.
  unfold Num.valid, valid_binary, bounded, canonical_mantissa.
  rewrite andb_true_iff, Z.eqb_eq, Z.leb_le, digits2_pos_bits.
  unfold fexp, emin, Num.prec, Num.emax. intros [Hc He].
  destruct (bits_spec (Z.pos m) ltac:(lia)) as (Hb & Hb1 & Hb2).
  split; [ | lia].
  assert (Num.bits (Z.pos m) <= 53) by lia.
  assert (2 ^ Num.bits (Z.pos m) <= 2 ^ 53) by (apply Z.pow_le_mono_r; lia). lia.
Qed.

Lemma exact_decimal (m : positive) (e : Z) :
  (inject_Z (exact_digits m e) * 10 ^ exact_exponent e
   == inject_Z (Z.pos m) * 2 ^ e)%Q.
Proof.
  unfold exact_digits, exact_exponent. destruct (e <? 0) eqn:E.
  - apply Z.ltb_lt in E. rewrite inject_Z_mult.
    rewrite (Zpower_Qpower 5 (- e)) by lia. rewrite pow10_split.
    assert (H : (inject_Z 5 ^ (- e) * 5 ^ e == 1)%Q).
    { change (inject_Z 5) with 5%Q. rewrite <- Qpower_plus by discriminate.
      replace (- e + e) with 0 by lia. reflexivity. }
    revert H. generalize (inject_Z 5 ^ (- e))%Q (5 ^ e)%Q (2 ^ e)%Q (inject_Z (Z.pos m)).
    intros a b c d H.
    transitivity (d * c * (a * b))%Q; [ring | rewrite H; ring].
  - apply Z.ltb_ge in E. rewrite inject_Z_mult.
    rewrite (Zpower_Qpower 2 e) by lia. change (inject_Z 2) with 2%Q.
    change (10 ^ 0)%Q with 1%Q. ring.
Qed.

Lemma exact_digits_bounds (m : positive) (e : Z) :
  Z.pos m < 2 ^ 53 -> -1074 <= e <= 971 ->
  1 <= exact_digits m e < 10 ^ 1090.
Proof.
  intros Hm He. unfold exact_digits. destruct (e <? 0) eqn:E.
  - apply Z.ltb_lt in E.
    assert (1 <= 5 ^ (- e)) by (apply (Z.pow_le_mono_r 5 0); lia).
    assert (5 ^ (- e) <= 5 ^ 1074) by (apply Z.pow_le_mono_r; lia).
    assert (2 ^ 53 * 5 ^ 1074 < 10 ^ 1090) by (apply Z.ltb_lt; vm_compute; reflexivity).
    split; [nia | ].
    apply Z.lt_le_trans with (2 ^ 53 * 5 ^ (- e)); [nia | ].
    apply Z.le_trans with (2 ^ 53 * 5 ^ 1074); [ | lia].
    apply Z.mul_le_mono_nonneg_l; lia.
  - apply Z.ltb_ge in E.
    assert (1 <= 2 ^ e) by (apply (Z.pow_le_mono_r 2 0); lia).
    assert (2 ^ e <= 2 ^ 971) by (apply Z.pow_le_mono_r; lia).
    assert (2 ^ 53 * 2 ^ 971 < 10 ^ 1090) by (apply Z.ltb_lt; vm_compute; reflexivity).
    split; [nia | ].
    apply Z.lt_le_trans with (2 ^ 53 * 2 ^ e); [nia | ].
    apply Z.le_trans with (2 ^ 53 * 2 ^ 971); [ | lia].
    apply Z.mul_le_mono_nonneg_l; lia.
Qed.

(** Every positive canonical value has a decimal that rounds to it, and
    the search finds one. *)
Lemma shortest_finds (m : positive) (e : Z) :
  Num.valid (S754_finite false m e) = true ->
  exists c, shortest (S754_finite false m e) = Some c
            /\ 0 < fst c
            /\ Num.of_Q false (decimal_Q c) = S754_finite false m e.
Proof.
  intros Hv. destruct (valid_bounds _ _ _ Hv) as [Hm He].
  set (x := S754_finite false m e). set (X := Num.to_Q x).
  set (N := exact_digits m e). set (P := exact_exponent e).
  destruct (exact_digits_bounds m e Hm He) as [HN1 HN2]. fold N in HN1, HN2.
  assert (HX : (inject_Z N * 10 ^ P == X)%Q) by apply exact_decimal.
  assert (HXpos : (0 < X)%Q).
  { rewrite <- HX. apply Qmult_lt_0_compat; [ | apply pow10_pos].
    change 0%Q with (inject_Z 0). rewrite <- Zlt_Qlt. lia. }
  destruct (ilog10_spec X HXpos) as [Hlo Hhi].
  assert (HN : (X / 10 ^ P == inject_Z N)%Q).
  { rewrite <- HX. apply Qdiv_mult_l. pose proof (pow10_pos P). lra. }
  assert (HP : P < ilog10 X + 1).
  { apply pow10_lt. eapply Qle_lt_trans; [ | exact Hhi].
    rewrite <- HX. rewrite <- (Qmult_1_l (10 ^ P)) at 1.
    apply Qmult_le_compat_r; [ | apply Qlt_le_weak, pow10_pos].
    change 1%Q with (inject_Z 1). rewrite <- Zle_Qle. lia. }
  assert (HK : ilog10 X - P < 1090).
  { apply pow10_lt. apply Qle_lt_trans with (inject_Z N).
    - rewrite <- HN. apply Qle_shift_div_l; [apply pow10_pos | ].
      rewrite <- pow10_Q. replace (ilog10 X - P + P) with (ilog10 X) by lia. exact Hlo.
    - rewrite <- (Zpower_Qpower 10 1090) by lia. now rewrite <- Zlt_Qlt. }
  assert (Hfound : is_Some (shortest x)).
  { unfold shortest. apply (search_complete _ _ _ _ (ilog10 X + 1 - P)).
    - unfold max_digits. lia.
    - apply pick_lo. fold X.
      replace (ilog10 X + 1 - (ilog10 X + 1 - P)) with P by lia.
      rewrite (Qfloor_comp _ _ HN), Qfloor_Z.
      unfold rounds_to. simpl fst. apply andb_true_iff. split; [apply Z.ltb_lt; lia | ].
      apply bool_decide_eq_true. unfold decimal_Q. simpl fst; simpl snd.
      rewrite (of_Q_comp _ _ _ HX). apply of_Q_exact; [exact Hv | ].
      now exists false, m, e. }
  destruct Hfound as [c Hc]. exists c. split; [exact Hc | ].
  apply search_sound in Hc. unfold rounds_to in Hc.
  apply andb_true_iff in Hc as [H1 H2].
  split; [now apply Z.ltb_lt | now apply bool_decide_eq_true in H2].
Qed.

End Shortest.

(** Decimal texts and their reading by [unsigned_decimal]. *)

Section NumberText.
Import Text Digits NumberToString ToNumber.
Local Open Scope Z_scope.

Lemma span_digits_app (ds rest : chars) :
  forallb is_digit ds = true ->
  span is_digit (ds ++ rest)
  = (ds ++ fst (span is_digit rest), snd (span is_digit rest)).
Proof.
  induction ds as [ | c ds IH]; simpl; intros H.
  - now destruct (span is_digit rest).
  - apply andb_true_iff in H as [Hc Hds]. rewrite Hc, (IH Hds). reflexivity.
Qed.

Lemma span_digits_all (ds : chars) :
  forallb is_digit ds = true -> span is_digit ds = (ds, []).
Proof.
  intros H. rewrite <- (app_nil_r ds) at 1. rewrite span_digits_app by exact H.
  simpl. now rewrite app_nil_r.
Qed.

Lemma span_digits_stop (ds : chars) (c : ascii) (rest : chars) :
  forallb is_digit ds = true -> is_digit c = false ->
  span is_digit (ds ++ c :: rest) = (ds, c :: rest).
Proof.
  intros H Hc. rewrite span_digits_app by exact H.
  simpl. rewrite Hc. simpl. now rewrite app_nil_r.
Qed.

Lemma exponent_part_exp_text (e : option Z) :
  exponent_part (exp_text e) = Some (default 0 e).
Proof.
  destruct e as [e | ]; [ | reflexivity].
  destruct (digits_of_spec (Z.abs e) ltac:(lia)) as (Hne & Hd & Hv & _).
  unfold exp_text.
  destruct (e <? 0) eqn:E; simpl; rewrite (span_digits_all _ Hd);
    (destruct (digits_of (Z.abs e)) eqn:Ed; [congruence | ]);
    rewrite Hv; f_equal;
    [apply Z.ltb_lt in E | apply Z.ltb_ge in E]; simpl; lia.
Qed.

Lemma forallb_number_char_digits (ds : chars) :
  forallb is_digit ds = true -> forallb JSON.number_char ds = true.
Proof.
  intros H. apply forallb_forall. intros c Hc.
  rewrite forallb_forall in H. unfold JSON.number_char. now rewrite (H c Hc).
Qed.

Lemma forallb_number_char_exp (e : option Z) :
  forallb JSON.number_char (exp_text e) = true.
Proof.
  destruct e as [e | ]; [ | reflexivity].
  destruct (digits_of_spec (Z.abs e) ltac:(lia)) as (_ & Hd & _).
  unfold exp_text. destruct (e <? 0); simpl;
    now rewrite forallb_number_char_digits.
Qed.

(** A decimal text put together from its integer digits, its fraction
    digits and its exponent is read back as those parts. *)
Lemma unsigned_decimal_compose (ip fp : chars) (e : option Z) :
  forallb is_digit ip = true -> forallb is_digit fp = true -> ip <> [] ->
  unsigned_decimal (ip ++ frac_text fp ++ exp_text e)
  = Some (Dec (digits_val (ip ++ fp)) (default 0 e - Z.of_nat (length fp))).
Proof.
  intros Hip Hfp Hne. unfold unsigned_decimal.
  assert (Hstop : forall ds, forallb is_digit ds = true ->
                             span is_digit (ds ++ exp_text e) = (ds, exp_text e)).
  { intros ds Hds. destruct e as [e | ]; simpl exp_text.
    - now apply span_digits_stop.
    - rewrite app_nil_r. now apply span_digits_all. }
  destruct fp as [ | f fp].
  - simpl frac_text. simpl app at 2. rewrite (Hstop ip Hip).
    assert (Hr : match exp_text e with
                 | "."%char :: r => span is_digit r
                 | _ => ([], exp_text e)
                 end = ([], exp_text e)).
    { destruct e as [e | ]; reflexivity. }
    rewrite Hr. rewrite exponent_part_exp_text.
    destruct (ip ++ []) eqn:E; [destruct ip; [congruence | discriminate] | ].
    reflexivity.
  - simpl frac_text.
    change (("."%char :: f :: fp) ++ exp_text e)
      with ("."%char :: (f :: fp) ++ exp_text e).
    rewrite (span_digits_stop ip "."%char _ Hip eq_refl).
    rewrite (Hstop (f :: fp) Hfp). rewrite exponent_part_exp_text.
    destruct (ip ++ f :: fp) eqn:E; [destruct ip; discriminate | ].
    reflexivity.
Qed.

Lemma json_grammar_compose (d : ascii) (ip fp : chars) (e : option Z) :
  forallb is_digit (d :: ip) = true -> forallb is_digit fp = true ->
  (code d =? 48)%N = false \/ ip = [] ->
  JSON.json_grammar ((d :: ip) ++ frac_text fp ++ exp_text e) = true.
Proof.
  intros Hip Hfp Hd. unfold JSON.json_grammar.
  assert (Hlead : forall b : bool,
             b = true ->
             (negb (code d =? 48)%N || bool_decide (ip = [])) && b = true).
  { intros b ->. rewrite andb_true_r.
    destruct Hd as [-> | ->]; [reflexivity | ].
    apply orb_true_iff. right. now apply bool_decide_eq_true. }
  destruct fp as [ | f fp].
  - simpl frac_text. simpl app at 2.
    destruct e as [e | ]; simpl exp_text.
    + rewrite (span_digits_stop (d :: ip) "e"%char _ Hip eq_refl).
      cbv beta iota. apply Hlead. reflexivity.
    + rewrite app_nil_r, (span_digits_all _ Hip).
      cbv beta iota. apply Hlead. reflexivity.
  - simpl frac_text.
    change (("."%char :: f :: fp) ++ exp_text e)
      with ("."%char :: f :: (fp ++ exp_text e)).
    rewrite (span_digits_stop (d :: ip) "."%char _ Hip eq_refl).
    cbv beta iota. apply Hlead.
    change (code "." =? 46)%N with true. cbv iota.
    simpl in Hfp. apply andb_true_iff in Hfp as [Hf Hfp].
    simpl span. rewrite Hf. destruct (span is_digit (fp ++ exp_text e)). reflexivity.
Qed.

Lemma number_char_compose (ip fp : chars) (e : option Z) :
  forallb is_digit ip = true -> forallb is_digit fp = true ->
  forallb JSON.number_char (ip ++ frac_text fp ++ exp_text e) = true.
Proof.
  intros Hip Hfp. rewrite !forallb_app, forallb_number_char_exp.
  rewrite (forallb_number_char_digits _ Hip).
  destruct fp; simpl frac_text; [reflexivity | ].
  change (forallb JSON.number_char ("."%char :: a :: fp))
    with (forallb JSON.number_char (a :: fp)).
  now rewrite (forallb_number_char_digits _ Hfp).
Qed.

End NumberText.

(** The layout of [Number::toString] denotes the decimal it was given. *)

Section LayoutFacts.
Import Text Digits NumberToString ToNumber.
Local Open Scope Z_scope.

Lemma forallb_take (p : ascii -> bool) (n : nat) (l : chars) :
  forallb p l = true -> forallb p (take n l) = true.
Proof.
  intros H. apply forallb_forall. intros c Hc.
  rewrite forallb_forall in H. apply H.
  apply list_elem_of_In. apply list_elem_of_In in Hc.
  eapply (subseteq_take n l), Hc.
Qed.

Lemma forallb_drop (p : ascii -> bool) (n : nat) (l : chars) :
  forallb p l = true -> forallb p (drop n l) = true.
Proof.
  intros H. apply forallb_forall. intros c Hc.
  rewrite forallb_forall in H. apply H.
  apply list_elem_of_In. apply list_elem_of_In in Hc.
  eapply (subseteq_drop n l), Hc.
Qed.

Lemma forallb_zeros (n : nat) : forallb is_digit (repeat "0"%char n) = true.
Proof. induction n; [reflexivity | exact IHn]. Qed.

(** The text laid out for [s * 10^p] is made of integer digits without a
    leading zero, fraction digits and an exponent that denote
    [s * 10^p]. *)
Lemma layout_parts (c : Z * Z) :
  0 < fst c ->
  exists (d : ascii) (ip fp : chars) (e : option Z),
    layout c = (d :: ip) ++ frac_text fp ++ exp_text e
    /\ forallb is_digit (d :: ip) = true
    /\ forallb is_digit fp = true
    /\ ((code d =? 48)%N = false \/ ip = [])
    /\ (MV (Dec (digits_val ((d :: ip) ++ fp))
                 (default 0 e - Z.of_nat (length fp))%Z)
        == decimal_Q c)%Q.
Proof.
  destruct c as [s p]. simpl fst. intros Hs.
  destruct (digits_of_spec s ltac:(lia)) as (_ & Hd & Hv & _ & Hhd).
  destruct (Hhd ltac:(lia)) as (c0 & ds' & Eds & Hc0).
  unfold layout, decimal_Q, MV. simpl fst; simpl snd. simpl mant; simpl exp10.
  rewrite Eds in *. clear Hhd.
  set (ds := c0 :: ds') in *.
  set (k := Z.of_nat (length ds)).
  assert (Hk : k = Z.of_nat (length ds') + 1) by (unfold k, ds; simpl length; lia).
  set (n := p + k).
  destruct ((k <=? n) && (n <=? 21)) eqn:CA.
  { apply andb_true_iff in CA as [C1 C2]. apply Z.leb_le in C1, C2.
    exists c0, (ds' ++ repeat "0"%char (Z.to_nat (n - k))), [], None.
    split; [simpl; now rewrite !app_nil_r | ].
    split; [change (c0 :: ds' ++ repeat "0"%char (Z.to_nat (n - k)))
              with (ds ++ repeat "0"%char (Z.to_nat (n - k)));
            now rewrite forallb_app, Hd, forallb_zeros | ].
    split; [reflexivity | split; [now left | ]].
    simpl app at 1. rewrite app_nil_r.
    change (c0 :: ds' ++ repeat "0"%char (Z.to_nat (n - k)))
      with (ds ++ repeat "0"%char (Z.to_nat (n - k))).
    rewrite digits_val_app, digits_val_zeros, Hv, repeat_length.
    rewrite Z2Nat.id by lia. simpl default. simpl length.
    replace (0 - Z.of_nat 0) with 0 by lia.
    rewrite Z.add_0_r, inject_Z_mult.
    rewrite (Zpower_Qpower 10 (n - k)) by lia.
    replace (n - k) with p by (unfold n; lia).
    change (inject_Z 10) with 10%Q. change (10 ^ 0)%Q with 1%Q. ring. }
  destruct ((0 <? n) && (n <=? 21)) eqn:CB.
  { apply andb_true_iff in CB as [C1 C2]. apply Z.ltb_lt in C1. apply Z.leb_le in C2.
    apply andb_false_iff in CA.
    assert (Hnk : n < k) by (destruct CA as [C | C]; [apply Z.leb_gt in C | apply Z.leb_gt in C]; lia).
    assert (Et : take (Z.to_nat n) ds = c0 :: take (Z.to_nat n - 1) ds').
    { unfold ds. destruct (Z.to_nat n) eqn:En; [lia | simpl]. now rewrite Nat.sub_0_r. }
    assert (Ed : exists f fp', drop (Z.to_nat n) ds = f :: fp').
    { destruct (drop (Z.to_nat n) ds) eqn:E; [ | eauto].
      apply (f_equal length) in E. rewrite length_drop in E. simpl in E. lia. }
    destruct Ed as (f & fp' & Ed).
    exists c0, (take (Z.to_nat n - 1) ds'), (drop (Z.to_nat n) ds), None.
    split; [rewrite <- Et, Ed; simpl; now rewrite app_nil_r | ].
    split; [rewrite <- Et; now apply forallb_take | ].
    split; [now apply forallb_drop | ].
    split; [now left | ].
    rewrite app_comm_cons, <- Et, take_drop, Hv, length_drop. simpl default.
    replace (0 - Z.of_nat (length ds - Z.to_nat n)) with p by (unfold n, k in *; lia).
    reflexivity. }
  destruct ((-6 <? n) && (n <=? 0)) eqn:CC.
  { apply andb_true_iff in CC as [C1 C2]. apply Z.ltb_lt in C1. apply Z.leb_le in C2.
    exists "0"%char, [], (repeat "0"%char (Z.to_nat (- n)) ++ ds), None.
    split.
    { simpl exp_text. rewrite app_nil_r.
      destruct (repeat "0"%char (Z.to_nat (- n)) ++ ds) eqn:E; [ | reflexivity].
      apply (f_equal length) in E. rewrite length_app in E. simpl in E. lia. }
    split; [reflexivity | ].
    split; [now rewrite forallb_app, forallb_zeros, Hd | ].
    split; [now right | ].
    change ([] ++ repeat "0"%char (Z.to_nat (- n)) ++ ds)
      with (repeat "0"%char (Z.to_nat (- n)) ++ ds).
    rewrite digits_val_cons, digits_val_app, digits_val_zeros, Hv.
    change (digit_val "0") with 0.
    rewrite length_app, repeat_length. simpl default.
    replace (0 - Z.of_nat (Z.to_nat (- n) + length ds)) with p by (unfold n, k in *; lia).
    rewrite !Z.mul_0_l, !Z.add_0_l. reflexivity. }
  destruct ds' as [ | c1 rest].
  - exists c0, [], [], (Some (n - 1)).
    split; [reflexivity | ]. split; [exact Hd | ]. split; [reflexivity | ].
    split; [now right | ].
    match goal with |- context [digits_val ?l] => change l with ds end.
    rewrite Hv. simpl default. simpl length.
    simpl length in Hk.
    replace (n - 1 - Z.of_nat 0) with p by (unfold n; lia). reflexivity.
  - exists c0, [], (c1 :: rest), (Some (n - 1)).
    split; [reflexivity | ].
    unfold ds in Hd. simpl forallb in Hd. apply andb_true_iff in Hd as [Hd0 Hd1].
    split; [simpl; now rewrite Hd0 | ]. split; [exact Hd1 | ].
    split; [now right | ].
    match goal with |- context [digits_val ?l] => change l with ds end.
    rewrite Hv. simpl default.
    replace (n - 1 - Z.of_nat (length (c1 :: rest))) with p by (unfold n; lia).
    reflexivity.
Qed.

(** Reading back the text of a positive value. *)
Lemma layout_reads_back (c : Z * Z) :
  0 < fst c ->
  JSON.json_grammar (layout c) = true
  /\ forallb JSON.number_char (layout c) = true
  /\ (exists d, unsigned_decimal (layout c) = Some d /\ (MV d == decimal_Q c)%Q)
  /\ (exists h t, layout c = h :: t /\ is_digit h = true).
Proof.
  intros Hs. destruct (layout_parts c Hs) as (d & ip & fp & e & -> & Hip & Hfp & Hd & HMV).
  split; [now apply json_grammar_compose | ].
  split; [now apply number_char_compose | ].
  split.
  - eexists. split; [apply unsigned_decimal_compose; [exact Hip | exact Hfp | discriminate] | exact HMV].
  - exists d. eexists. split; [reflexivity | ].
    simpl in Hip. now apply andb_true_iff in Hip as [Hd0 _].
Qed.

End LayoutFacts.

(** A finite Number is read back from its text. *)

Section NumberRoundTrip.
Import Text Digits NumberToString ToNumber.
Local Open Scope Z_scope.

Lemma round_pos_sign (q : Q) (m : positive) (e : Z) :
  Num.round_pos false q = S754_finite false m e ->
  Num.round_pos true q = S754_finite true m e.
Proof.
  unfold Num.round_pos.
  destruct (if _ <=? _ then _ else _) as [m' e'].
  destruct m'; try discriminate.
  destruct (e' <=? 971); [ | discriminate].
  now intros [= -> ->].
Qed.

Lemma digit_not_minus (h : ascii) : is_digit h = true -> (code h =? 45)%N = false.
Proof.
  unfold is_digit. rewrite andb_true_iff, !N.leb_le. intros [H1 H2].
  apply N.eqb_neq. lia.
Qed.

(** The text of a finite Number denotes the Number again. *)
Lemma parse_number_to_chars (x : number) :
  Num.valid x = true -> Num.is_finite x = true ->
  JSON.parse_number (to_chars x) = Some (reread x).
Proof.
  intros Hv Hf. destruct x as [s | s | | s m e]; try discriminate Hf.
  - reflexivity.
  - assert (Hv' : Num.valid (S754_finite false m e) = true) by exact Hv.
    destruct (shortest_finds m e Hv') as (c & Hc & Hs & Hr).
    destruct (layout_reads_back c Hs) as (Hg & _ & (d & Hd & HMV) & (h & t & Eh & Hh)).
    unfold to_chars, positive_to_chars. rewrite Hc.
    assert (Hpos : (0 < decimal_Q c)%Q).
    { unfold decimal_Q. apply Qmult_lt_0_compat; [ | apply pow10_pos].
      change 0%Q with (inject_Z 0). now rewrite <- Zlt_Qlt. }
    assert (Hround : Num.round_pos false (decimal_Q c) = S754_finite false m e).
    { unfold Num.of_Q in Hr.
      assert (E : (decimal_Q c ?= 0)%Q = Gt) by now apply Qgt_alt.
      now rewrite E in Hr. }
    destruct s.
    + change (JSON.parse_number (["-"%char] ++ layout c))
        with (if JSON.json_grammar (layout c)
              then match unsigned_decimal (layout c) with
                   | Some d => Some (Num.of_Q true (- MV d)%Q)
                   | None => None
                   end
              else None).
      rewrite Hg, Hd. f_equal. simpl reread.
      unfold Num.of_Q.
      assert (E : (- MV d ?= 0)%Q = Lt).
      { apply Qlt_alt. rewrite HMV. exact (Qopp_lt_compat 0 _ Hpos). }
      rewrite E.
      assert (Eq : (- - MV d == decimal_Q c)%Q) by (rewrite HMV; ring).
      rewrite (round_pos_comp _ _ _ Eq). now apply round_pos_sign.
    + change ([] ++ layout c) with (layout c).
      unfold JSON.parse_number. rewrite Eh. cbv beta iota.
      rewrite (digit_not_minus h Hh). rewrite <- Eh, Hg, Hd. f_equal.
      simpl reread. rewrite (of_Q_comp _ _ _ HMV). exact Hr.
Qed.

(** The text of a finite Number is made of number characters and starts
    with a digit or the minus sign. *)
Lemma to_chars_shape (x : number) :
  Num.valid x = true -> Num.is_finite x = true ->
  forallb JSON.number_char (to_chars x) = true
  /\ exists h t, to_chars x = h :: t
                 /\ (is_digit h = true \/ h = "-"%char).
Proof.
  intros Hv Hf. destruct x as [s | s | | s m e]; try discriminate Hf.
  - split; [reflexivity | ]. exists "0"%char, []. split; [reflexivity | now left].
  - assert (Hv' : Num.valid (S754_finite false m e) = true) by exact Hv.
    destruct (shortest_finds m e Hv') as (c & Hc & Hs & Hr).
    destruct (layout_reads_back c Hs) as (_ & Hn & _ & (h & t & Eh & Hh)).
    unfold to_chars, positive_to_chars. rewrite Hc. destruct s.
    + split; [simpl; exact Hn | ].
      exists "-"%char, (layout c). split; [reflexivity | now right].
    + split; [exact Hn | ]. exists h, t. split; [exact Eh | now left].
Qed.

(** A count below 2^53 is a finite Number. *)
Lemma of_nat_finite (n : nat) :
  Z.of_nat n < 2 ^ 53 -> Num.is_finite (Num.of_nat n) = true.
Proof.
  intros Hn. unfold Num.of_nat, Num.of_Z, Num.of_Q.
  destruct (Qcompare (inject_Z (Z.of_nat n)) 0) eqn:E; [reflexivity | | ].
  - apply Qlt_alt in E. change 0%Q with (inject_Z 0) in E.
    rewrite <- Zlt_Qlt in E. lia.
  - apply Qgt_alt in E. unfold Num.round_pos.
    destruct (ilog2_spec _ E) as [Hlo _].
    assert (Hi : Num.ilog2 (inject_Z (Z.of_nat n)) < 53).
    { apply (base_pow_lt 2); [lia | ]. change (inject_Z 2) with 2%Q.
      eapply Qle_lt_trans; [exact Hlo | ].
      rewrite (pow2_inject 53) by lia. now rewrite <- Zlt_Qlt. }
    set (e := Z.max _ _). assert (e <= 0) by (unfold e; lia).
    destruct (2 ^ 53 <=? _).
    + change (2 ^ 52) with (Z.pos (2 ^ 52)).
      destruct (e + 1 <=? 971) eqn:E1; [reflexivity | apply Z.leb_gt in E1; lia].
    + destruct (Num.round_even _); try reflexivity.
      destruct (e <=? 971) eqn:E1; [reflexivity | apply Z.leb_gt in E1; lia].
Qed.

End NumberRoundTrip.

(** [JSON.parse] on a number token. *)

Section JsonRoundTrip.
Import Text JSON.

Lemma span_all_stop (p : ascii -> bool) (tok rest : chars) :
  forallb p tok = true ->
  match rest with [] => True | c :: _ => p c = false end ->
  span p (tok ++ rest) = (tok, rest).
Proof.
  intros Ht Hr. induction tok as [ | c tok IH]; simpl.
  - destruct rest as [ | c rest]; [reflexivity | simpl; now rewrite Hr].
  - simpl in Ht. apply andb_true_iff in Ht as [Hc Ht]. now rewrite Hc, (IH Ht).
Qed.

(** A number token in front of a character that cannot continue it. *)
Lemma parse_value_number (fuel : nat) (tok rest : chars) (x : number) :
  (0 < fuel)%nat ->
  (exists h t, tok = h :: t /\ (is_digit h = true \/ h = "-"%char)) ->
  forallb number_char tok = true ->
  match rest with [] => True | c :: _ => number_char c = false end ->
  parse_number tok = Some x ->
  parse_value fuel (" "%char :: tok ++ rest) = Some (JNumber x, rest).
Proof.
  intros Hfuel (h & t & -> & Hh) Htok Hrest Hx.
  destruct fuel as [ | fuel]; [lia | ].
  assert (Hspan : span number_char ((h :: t) ++ rest) = (h :: t, rest))
    by now apply span_all_stop.
  destruct Hh as [Hh | ->].
  - assert (Hc : (48 <= code h <= 57)%N).
    { unfold is_digit in Hh. apply andb_true_iff in Hh as [H1 H2].
      apply N.leb_le in H1, H2. lia. }
    simpl parse_value. simpl skip_space.
    assert (Hs : is_json_space h = false).
    { unfold is_json_space. rewrite !orb_false_iff, !N.eqb_neq. lia. }
    change ((h :: t) ++ rest) with (h :: (t ++ rest)) in *.
    rewrite Hs.
    replace (code h =? 34)%N with false by (symmetry; apply N.eqb_neq; lia).
    replace (code h =? 91)%N with false by (symmetry; apply N.eqb_neq; lia).
    replace (code h =? 123)%N with false by (symmetry; apply N.eqb_neq; lia).
    simpl strip_prefix.
    destruct (decide ("n"%char = h)) as [<- | _]; [discriminate Hh | ].
    destruct (decide ("t"%char = h)) as [<- | _]; [discriminate Hh | ].
    destruct (decide ("f"%char = h)) as [<- | _]; [discriminate Hh | ].
    simpl span in Hspan. rewrite Hspan, Hx. reflexivity.
  - simpl parse_value. simpl skip_space.
    change (("-"%char :: t) ++ rest) with ("-"%char :: (t ++ rest)) in *.
    simpl. simpl in Hspan. rewrite Hspan, Hx. reflexivity.
Qed.

End JsonRoundTrip.

(** [JSON.parse] on the text of a stats object. *)

Section StatsRoundTrip.
Import Text JSON.

Lemma finite_number_text (x : number) :
  Num.valid x = true -> Num.is_finite x = true ->
  number_text (NumberToString.to_chars x) (reread x).
Proof.
  intros Hv Hf. destruct (to_chars_shape x Hv Hf) as [Hn Hh].
  split; [exact Hh | split; [exact Hn | now apply parse_number_to_chars]].
Qed.

Lemma serialize_stats (stats : Stats) :
  Num.is_finite (Num.of_nat (count stats)) = true ->
  Num.is_finite (averagePricePerRoom stats) = true ->
  serialize [] (stats_value stats)
  = "{"%char :: members (NumberToString.to_chars (Num.of_nat (count stats)))
                  (NumberToString.to_chars (averagePricePerRoom stats)).
Proof.
  intros H1 H2. unfold stats_value, members, last_member.
  cbn [serialize map join]. rewrite H1, H2.
  cbn [app]. rewrite <- !app_assoc. reflexivity.
Qed.

Lemma parse_last_member (fuel : nat) (t2 : chars) (x2 : number) :
  (1 < fuel)%nat -> number_text t2 x2 ->
  parse_members fuel (last_member t2)
  = Some ([("averagePricePerRoom"%string, JNumber x2)], []).
Proof.
  intros Hfuel (Hh & Hn & Hp).
  destruct fuel as [ | fuel]; [lia | ].
  unfold last_member. simpl.
  rewrite (parse_value_number fuel t2 _ x2); [reflexivity | lia | exact Hh | exact Hn | reflexivity | exact Hp].
Qed.

Lemma parse_members_stats (fuel : nat) (t1 t2 : chars) (x1 x2 : number) :
  (2 < fuel)%nat -> number_text t1 x1 -> number_text t2 x2 ->
  parse_members fuel (members t1 t2)
  = Some ([("count"%string, JNumber x1);
           ("averagePricePerRoom"%string, JNumber x2)], []).
Proof.
  intros Hfuel (Hh & Hn & Hp) H2.
  destruct fuel as [ | fuel]; [lia | ].
  unfold members. simpl.
  rewrite (parse_value_number fuel t1 _ x1); [ | lia | exact Hh | exact Hn | reflexivity | exact Hp].
  simpl. rewrite (parse_last_member fuel t2 x2); [reflexivity | lia | exact H2].
Qed.

Lemma parse_stats_text (t1 t2 : chars) (x1 x2 : number) :
  number_text t1 x1 -> number_text t2 x2 ->
  parse (to_string ("{"%char :: members t1 t2))
  = Some (JObject [("count"%string, JNumber x1);
                   ("averagePricePerRoom"%string, JNumber x2)]).
Proof.
  intros H1 H2. unfold parse, of_string, to_string.
  rewrite list_ascii_of_string_of_list_ascii.
  set (fuel := length ("{"%char :: members t1 t2)).
  assert (Hfuel : (2 < fuel)%nat) by (unfold fuel, members; simpl length; lia).
  change (parse_value (S fuel) ("{"%char :: members t1 t2))
    with (match skip_space (members t1 t2) with
          | c' :: r' =>
              if (code c' =? 125)%N then Some (JObject [], r')
              else match parse_members fuel (members t1 t2) with
                   | Some (ms, rest) => Some (JObject ms, rest)
                   | None => None
                   end
          | [] => None
          end).
  rewrite (parse_members_stats fuel t1 t2 x1 x2 Hfuel H1 H2).
  reflexivity.
Qed.

End StatsRoundTrip.

(** ** Claims on the export *)

Section Exporting.
Local Open Scope Z_scope.

Lemma reread_of_nat (n : nat) : reread (Num.of_nat n) = Num.of_nat n.
Proof.
  unfold Num.of_nat, Num.of_Z, Num.of_Q.
  destruct (Qcompare (inject_Z (Z.of_nat n)) 0) eqn:E; [reflexivity | | ].
  - apply Qlt_alt in E. change 0%Q with (inject_Z 0) in E.
    rewrite <- Zlt_Qlt in E. lia.
  - unfold Num.round_pos.
    destruct (if _ <=? _ then _ else _) as [m e].
    destruct m; [reflexivity | destruct (e <=? 971); reflexivity | reflexivity].
Qed.

Lemma reload_written (path text : string) (fs : FileSystem) :
  path ∉ unwritable fs ->
  exists fs', writeFile path text fs = Written fs'
              /\ reload path fs' = JSON.parse text.
Proof.
  intros Hw. unfold writeFile. destruct (decide (path ∈ unwritable fs)); [contradiction | ].
  eexists. split; [reflexivity | ].
  unfold reload. simpl files. now rewrite lookup_insert_eq.
Qed.

End Exporting.

(** C9 (as stated, refuted): the stats of a set whose only listing has the
    [bedrooms] text ["studio"] have the average NaN; [JSON.stringify]
    writes it as [null], and decoding gives [null], not the average. *)
Lemma export_reload_nan_average :
  ~ (forall (stats : Stats) (path : string) (fs : FileSystem),
        path ∉ unwritable fs ->
        exists fs', exportResults path (stats_value stats) fs = Written fs'
                    /\ reload path fs' = Some (stats_value stats)).
Proof.
  intros H.
  destruct (H (eval computeStats [studio]) "stats.json"%string empty_disk)
    as (fs' & E1 & E2); [apply not_elem_of_empty | ].
  vm_compute in E1. injection E1 as <-.
  vm_compute in E2. discriminate E2.
Qed.

(** C9 (amended): for every stats object whose [count] is below 2^53 (as
    every array length is) and whose [averagePricePerRoom] is a finite
    Number (a canonical binary64 value that is neither NaN nor infinite),
    exporting it with [exportResults] to a writable path and decoding the
    exported text gives the object with the same [count] and the same
    [averagePricePerRoom], except that an average [-0] is read back as
    [0]. *)
Theorem export_reload_finite_stats (stats : Stats) (path : string) (fs : FileSystem) :
  path ∉ unwritable fs ->
  (Z.of_nat (count stats) < 2 ^ 53)%Z ->
  Num.valid (averagePricePerRoom stats) = true ->
  Num.is_finite (averagePricePerRoom stats) = true ->
  exists fs',
    exportResults path (stats_value stats) fs = Written fs'
    /\ reload path fs'
       = Some (stats_value (mkStats (count stats) (reread (averagePricePerRoom stats)))).
Proof.
  intros Hw Hc Hv Hf.
  destruct (reload_written path (JSON.stringify (stats_value stats)) fs Hw)
    as (fs' & E1 & E2).
  exists fs'. split; [exact E1 | ]. rewrite E2.
  pose proof (of_nat_finite _ Hc) as Hcf.
  unfold JSON.stringify. rewrite (serialize_stats stats Hcf Hf).
  rewrite (parse_stats_text _ _ (reread (Num.of_nat (count stats)))
             (reread (averagePricePerRoom stats))).
  - unfold stats_value. simpl count. simpl averagePricePerRoom.
    now rewrite reread_of_nat.
  - apply finite_number_text; [apply of_Q_valid | exact Hcf].
  - now apply finite_number_text.
Qed.

Lemma export_reload_finite_stats_witness :
  ("stats.json"%string ∉ unwritable empty_disk)
  /\ (Z.of_nat (count (mkStats 2 (Num.of_Z 100))) < 2 ^ 53)%Z
  /\ Num.valid (averagePricePerRoom (mkStats 2 (Num.of_Z 100))) = true
  /\ Num.is_finite (averagePricePerRoom (mkStats 2 (Num.of_Z 100))) = true
  /\ exists fs',
      exportResults "stats.json" (stats_value (mkStats 2 (Num.of_Z 100))) empty_disk
      = Written fs'
      /\ reload "stats.json" fs'
         = Some (stats_value (mkStats 2 (reread (Num.of_Z 100)))).
Proof.
  assert (H1 : "stats.json"%string ∉ unwritable empty_disk) by apply not_elem_of_empty.
  assert (H2 : (Z.of_nat (count (mkStats 2 (Num.of_Z 100))) < 2 ^ 53)%Z) by reflexivity.
  assert (H3 : Num.valid (averagePricePerRoom (mkStats 2 (Num.of_Z 100))) = true)
    by (vm_compute; reflexivity).
  assert (H4 : Num.is_finite (averagePricePerRoom (mkStats 2 (Num.of_Z 100))) = true)
    by (vm_compute; reflexivity).
  split; [exact H1 | split; [exact H2 | split; [exact H3 | split; [exact H4 | ]]]].
  exact (export_reload_finite_stats (mkStats 2 (Num.of_Z 100)) "stats.json" empty_disk
           H1 H2 H3 H4).
Defined.

(** The exported text of the scenario's stats. *)
Example export_scenario_text :
  JSON.stringify (stats_value (mkStats 2 (Num.of_Z 100)))
  = Text.to_string
      ("{"%char :: JSON.newline
         :: Text.of_string "  " ++ JSON.quote "count" ++ Text.of_string ": 2,"
         ++ JSON.newline
         :: Text.of_string "  " ++ JSON.quote "averagePricePerRoom"
         ++ Text.of_string ": 100" ++ [JSON.newline; "}"%char]).
Proof. vm_compute; reflexivity. Qed.

(** * Further properties of the code *)

(** ** More on filtering *)

Section NumberOrder.

Lemma gt_nan_l (x : number) : Num.gt Num.NaN x = false.
Proof. destruct x; reflexivity. Qed.

Lemma gt_nan_r (x : number) : Num.gt x Num.NaN = false.
Proof. destruct x; reflexivity. Qed.

Lemma compare_order_key (x y : number) :
  Num.is_nan x = false -> Num.is_nan y = false ->
  SFcompare x y = Some (lex3 (order_key x) (order_key y)).
Proof.
  intros Hx Hy.
  destruct x as [sx | sx | | sx mx ex]; try discriminate Hx;
    destruct y as [sy | sy | | sy my ey]; try discriminate Hy;
    try (destruct sx; destruct sy; reflexivity);
    try (destruct sx; reflexivity); try (destruct sy; reflexivity).
  destruct sx, sy; try reflexivity; unfold SFcompare, lex3, order_key;
    cbn [fst snd].
  rewrite Z.compare_refl, Z.compare_opp, (Z.compare_antisym ey ex).
  destruct (ey ?= ex)%Z eqn:E; cbn [CompOpp]; reflexivity.
Qed.

(** The three facts about comparisons that the filter uses. *)
Lemma lt_order_key (x y : number) :
  Num.is_nan x = false -> Num.is_nan y = false ->
  Num.lt x y = match lex3 (order_key x) (order_key y) with Lt => true | _ => false end.
Proof.
  intros Hx Hy. unfold Num.lt, SFltb. now rewrite compare_order_key.
Qed.

Lemma strict_eq_order_key (x y : number) :
  Num.is_nan x = false -> Num.is_nan y = false ->
  Num.strict_eq x y = match lex3 (order_key x) (order_key y) with Eq => true | _ => false end.
Proof.
  intros Hx Hy. unfold Num.strict_eq, SFeqb. now rewrite compare_order_key.
Qed.

Lemma lex3_spec (a b : Z * Z * Z) :
  match lex3 a b with
  | Lt => (fst (fst a) < fst (fst b)
           \/ fst (fst a) = fst (fst b)
              /\ (snd (fst a) < snd (fst b)
                  \/ snd (fst a) = snd (fst b) /\ snd a < snd b))%Z
  | Eq => a = b
  | Gt => (fst (fst b) < fst (fst a)
           \/ fst (fst a) = fst (fst b)
              /\ (snd (fst b) < snd (fst a)
                  \/ snd (fst a) = snd (fst b) /\ snd b < snd a))%Z
  end.
Proof.
  destruct a as [[a1 a2] a3], b as [[b1 b2] b3]. unfold lex3. simpl fst; simpl snd.
  destruct (Z.compare_spec a1 b1); [ | lia | lia].
  destruct (Z.compare_spec a2 b2); [ | lia | lia].
  destruct (Z.compare_spec a3 b3); [congruence | lia | lia].
Qed.

(** Between equal bounds: neither below nor above means equal. *)
Lemma between_equal_bounds (x p : number) :
  Num.is_nan p = false ->
  negb (Num.lt x p) && negb (Num.gt x p) = Num.strict_eq x p || Num.is_nan x.
Proof.
  intros Hp. destruct (Num.is_nan x) eqn:Hx.
  - destruct x; try discriminate Hx. rewrite orb_true_r.
    now rewrite lt_nan_l, gt_nan_l.
  - change (Num.gt x p) with (Num.lt p x). rewrite orb_false_r.
    rewrite (lt_order_key x p Hx Hp), (lt_order_key p x Hp Hx),
      (strict_eq_order_key x p Hx Hp).
    pose proof (lex3_spec (order_key x) (order_key p)) as H1.
    pose proof (lex3_spec (order_key p) (order_key x)) as H2.
    destruct (lex3 (order_key x) (order_key p)), (lex3 (order_key p) (order_key x));
      try reflexivity; exfalso; try (rewrite H1 in H2); try (rewrite H2 in H1); lia.
Qed.

(** Bounds that exclude each other: nothing that compares passes both. *)
Lemma between_crossed_bounds (x lo hi : number) :
  Num.is_nan x = false -> Num.lt hi lo = true ->
  negb (Num.lt x lo) && negb (Num.gt x hi) = false.
Proof.
  intros Hx Hc.
  assert (Hhi : Num.is_nan hi = false) by (destruct hi; [reflexivity.. | discriminate Hc | reflexivity]).
  assert (Hlo : Num.is_nan lo = false).
  { destruct lo; try reflexivity. now rewrite lt_nan_r in Hc. }
  change (Num.gt x hi) with (Num.lt hi x). rewrite (lt_order_key hi lo Hhi Hlo) in Hc.
  rewrite (lt_order_key x lo Hx Hlo), (lt_order_key hi x Hhi Hx).
  pose proof (lex3_spec (order_key hi) (order_key lo)) as H0.
  pose proof (lex3_spec (order_key x) (order_key lo)) as H1.
  pose proof (lex3_spec (order_key hi) (order_key x)) as H2.
  destruct (lex3 (order_key hi) (order_key lo)); try discriminate Hc.
  destruct (lex3 (order_key x) (order_key lo)), (lex3 (order_key hi) (order_key x));
    try reflexivity; exfalso;
    try (rewrite H1 in *); try (rewrite <- H2 in *); lia.
Qed.

End NumberOrder.

(** X1: a [filterListings] call repeated with the same criteria changes
    nothing the second time. *)
Theorem filterListings_idempotent (c : Criteria) (s : list Listing) :
  exec (let* _ := filterListings c in filterListings c) s = exec (filterListings c) s.
Proof.
  change (List.filter (keeps c) (List.filter (keeps c) s) = List.filter (keeps c) s).
  rewrite filter_filter. apply filter_ext. intros l. now destruct (keeps c l).
Qed.

(** X2: two [filterListings] calls give the same listing set in either
    order. *)
Theorem filterListings_commute (c1 c2 : Criteria) (s : list Listing) :
  exec (let* _ := filterListings c1 in filterListings c2) s
  = exec (let* _ := filterListings c2 in filterListings c1) s.
Proof.
  change (List.filter (keeps c2) (List.filter (keeps c1) s)
          = List.filter (keeps c1) (List.filter (keeps c2) s)).
  rewrite !filter_filter. apply filter_ext. intros l. apply andb_comm.
Qed.

(** X3: with [minPrice] and [maxPrice] set to the same Number [p], the
    listings kept are those whose price equals [p] ([===]) and those whose
    price is NaN. *)
Theorem filterListings_equal_price_bounds (p : number) (s : list Listing) :
  Num.is_nan p = false ->
  exec (filterListings (mkCriteria (Some p) (Some p) None None None None)) s
  = List.filter (fun l => Num.strict_eq (price l) p || Num.is_nan (price l)) s.
Proof.
  intros Hp. rewrite exec_filterListings. apply filter_ext. intros l.
  rewrite <- (between_equal_bounds (price l) p Hp).
  unfold keeps, below, above. simpl minPrice; simpl maxPrice.
  destruct (Num.lt (price l) p); [reflexivity | ].
  destruct (Num.gt (price l) p); reflexivity.
Qed.

Lemma filterListings_equal_price_bounds_witness :
  Num.is_nan (Num.of_Z 200) = false
  /\ exec (filterListings (mkCriteria (Some (Num.of_Z 200)) (Some (Num.of_Z 200))
                             None None None None))
       [listing_of 100 []; listing_of 200 []]
     = List.filter (fun l => Num.strict_eq (price l) (Num.of_Z 200) || Num.is_nan (price l))
         [listing_of 100 []; listing_of 200 []].
Proof.
  split; [vm_compute; reflexivity | ].
  apply (filterListings_equal_price_bounds (Num.of_Z 200)). vm_compute; reflexivity.
Defined.

(** X4: when [maxPrice] is below [minPrice], every listing whose price is a
    number is removed; only listings with a NaN price are left. *)
Theorem filterListings_crossed_price_bounds (lo hi : number) (s : list Listing) :
  Num.lt hi lo = true ->
  exec (filterListings (mkCriteria (Some lo) (Some hi) None None None None)) s
  = List.filter (fun l => Num.is_nan (price l)) s.
Proof.
  intros Hc. rewrite exec_filterListings. apply filter_ext. intros l.
  unfold keeps, below, above. simpl minPrice; simpl maxPrice.
  destruct (Num.is_nan (price l)) eqn:Hn.
  - destruct (price l); try discriminate Hn.
    now rewrite lt_nan_l, gt_nan_l.
  - pose proof (between_crossed_bounds (price l) lo hi Hn Hc) as H.
    destruct (Num.lt (price l) lo); [reflexivity | ].
    destruct (Num.gt (price l) hi); [reflexivity | discriminate H].
Qed.

Lemma filterListings_crossed_price_bounds_witness :
  Num.lt (Num.of_Z 100) (Num.of_Z 300) = true
  /\ exec (filterListings (mkCriteria (Some (Num.of_Z 300)) (Some (Num.of_Z 100))
                             None None None None))
       [listing_of 100 []; listing_of 200 []]
     = List.filter (fun l => Num.is_nan (price l)) [listing_of 100 []; listing_of 200 []].
Proof.
  split; [vm_compute; reflexivity | ].
  apply (filterListings_crossed_price_bounds (Num.of_Z 300) (Num.of_Z 100)).
  vm_compute; reflexivity.
Defined.

(** X5: room bounds do nothing to listings whose [bedrooms] is missing or is
    not the text of a number: with only [minRooms] and [maxRooms] supplied,
    such a listing set is left unchanged. *)
Theorem filterListings_rooms_without_numbers
  (minRooms maxRooms : option number) (s : list Listing) :
  Forall (fun l => Num.is_nan (ToNumber.Number (bedrooms l)) = true) s ->
  exec (filterListings (mkCriteria None None minRooms maxRooms None None)) s = s.
Proof.
  intros H. rewrite exec_filterListings. apply filter_all_true. intros l Hl.
  rewrite Forall_forall in H. apply list_elem_of_In in Hl. specialize (H l Hl).
  unfold keeps, below, above. simpl.
  destruct (ToNumber.Number (bedrooms l)); try discriminate H.
  destruct minRooms as [a | ], maxRooms as [b | ];
    now rewrite ?lt_nan_l, ?gt_nan_l.
Qed.

Lemma filterListings_rooms_without_numbers_witness :
  Forall (fun l => Num.is_nan (ToNumber.Number (bedrooms l)) = true)
    [studio; listing_of 100 []]
  /\ exec (filterListings (mkCriteria None None (Some (Num.of_Z 2)) (Some (Num.of_Z 3))
                             None None))
       [studio; listing_of 100 []]
     = [studio; listing_of 100 []].
Proof.
  assert (H : Forall (fun l => Num.is_nan (ToNumber.Number (bedrooms l)) = true)
                [studio; listing_of 100 []]).
  { repeat constructor; vm_compute; reflexivity. }
  split; [exact H | ].
  exact (filterListings_rooms_without_numbers (Some (Num.of_Z 2)) (Some (Num.of_Z 3)) _ H).
Defined.

(** X6: one call with several bounds does what a sequence of calls with one
    bound each does: the six bounds of a criteria object act independently. *)
Theorem filterListings_split_bounds (c : Criteria) (s : list Listing) :
  exec (let* _ := filterListings (mkCriteria (minPrice c) None None None None None) in
        let* _ := filterListings (mkCriteria None (maxPrice c) None None None None) in
        let* _ := filterListings (mkCriteria None None (minRooms c) None None None) in
        let* _ := filterListings (mkCriteria None None None (maxRooms c) None None) in
        let* _ := filterListings (mkCriteria None None None None (minReview c) None) in
        filterListings (mkCriteria None None None None None (maxReview c))) s
  = exec (filterListings c) s.
Proof.
  change (List.filter (keeps (mkCriteria None None None None None (maxReview c)))
            (List.filter (keeps (mkCriteria None None None None (minReview c) None))
               (List.filter (keeps (mkCriteria None None None (maxRooms c) None None))
                  (List.filter (keeps (mkCriteria None None (minRooms c) None None None))
                     (List.filter (keeps (mkCriteria None (maxPrice c) None None None None))
                        (List.filter
                           (keeps (mkCriteria (minPrice c) None None None None None)) s)))))
          = List.filter (keeps c) s).
  rewrite !filter_filter. apply filter_ext. intros l.
  unfold keeps. cbn [minPrice maxPrice minRooms maxRooms minReview maxReview below above].
  repeat match goal with
         | |- context [below ?v ?b] => destruct (below v b); simpl; try reflexivity
         | |- context [above ?v ?b] => destruct (above v b); simpl; try reflexivity
         end.
Qed.

(** ** The price of a listing, and the failures of loading *)

Section PriceCoercion.
Import Text ToNumber.
Local Open Scope Z_scope.

Lemma kept_cases (c : ascii) :
  kept c = true -> In c (of_string "0123456789.").
Proof.
  destruct c as [[] [] [] [] [] [] [] []]; intros H;
    try discriminate H; simpl; tauto.
Qed.

Lemma kept_not_space (c : ascii) : kept c = true -> is_space c = false.
Proof.
  intros H. apply kept_cases in H. simpl in H.
  repeat (destruct H as [<- | H]; [reflexivity | ]). destruct H.
Qed.

Lemma kept_not_digit (c : ascii) :
  kept c = true -> is_digit c = false -> c = "."%char.
Proof.
  intros H. apply kept_cases in H. simpl in H.
  repeat (destruct H as [<- | H]; [intros; (discriminate || reflexivity) | ]).
  destruct H.
Qed.

Lemma of_string_to_string (l : chars) : of_string (to_string l) = l.
Proof. apply list_ascii_of_string_of_list_ascii. Qed.

Lemma drop_spaces_kept (t : chars) :
  forallb kept t = true -> drop_spaces t = t.
Proof.
  destruct t as [ | c t]; [reflexivity | ]. simpl.
  intros H. apply andb_true_iff in H as [Hc _].
  now rewrite (kept_not_space c Hc).
Qed.

Lemma forallb_rev {A} (p : A -> bool) (l : list A) :
  forallb p (rev l) = forallb p l.
Proof.
  induction l as [ | a l IH]; [reflexivity | ].
  simpl. rewrite forallb_app, IH. simpl. rewrite andb_true_r. apply andb_comm.
Qed.

Lemma trim_kept (t : chars) : forallb kept t = true -> trim t = t.
Proof.
  intros H. unfold trim. rewrite (drop_spaces_kept t H).
  rewrite drop_spaces_kept by now rewrite forallb_rev.
  apply rev_involutive.
Qed.

Lemma span_spec (p : ascii -> bool) (l : chars) :
  l = fst (span p l) ++ snd (span p l)
  /\ forallb p (fst (span p l)) = true
  /\ match snd (span p l) with
     | [] => True
     | c :: _ => p c = false
     end.
Proof.
  induction l as [ | c l (IH1 & IH2 & IH3)]; simpl; [auto | ].
  destruct (p c) eqn:E.
  - destruct (span p l) as [a b]. simpl in *. rewrite E.
    split; [now f_equal | split; [exact IH2 | exact IH3]].
  - simpl. rewrite E. auto.
Qed.

(** The decimal read from a text of digits and points. *)
Lemma unsigned_decimal_kept (t : chars) :
  forallb kept t = true ->
  unsigned_decimal t
  = match snd (span is_digit t) with
    | [] => match t with
            | [] => None
            | _ :: _ => Some (Dec (digits_val t) 0)
            end
    | _ :: r =>
        match fst (span is_digit t) ++ r with
        | [] => None
        | ds => if forallb is_digit r
                then Some (Dec (digits_val ds) (0 - Z.of_nat (length r)))
                else None
        end
    end.
Proof.
  intros H. unfold unsigned_decimal.
  destruct (span_spec is_digit t) as (Ht & Hip & Hr1).
  destruct (span is_digit t) as [ip r1]. simpl in Ht, Hip, Hr1. simpl snd; simpl fst.
  destruct r1 as [ | c r].
  - rewrite app_nil_r in Ht. subst ip. rewrite app_nil_r.
    destruct t; reflexivity.
  - assert (Hk : forallb kept (c :: r) = true).
    { rewrite Ht, forallb_app in H. now apply andb_true_iff in H. }
    simpl in Hk. apply andb_true_iff in Hk as [Hc Hk].
    rewrite (kept_not_digit c Hc Hr1) in *. clear Hc Hr1 c.
    destruct (span_spec is_digit r) as (Hr & Hfp & Hr2).
    destruct (span is_digit r) as [fp r2]. simpl in Hr, Hfp, Hr2.
    destruct r2 as [ | c r2].
    + rewrite app_nil_r in Hr. subst fp. rewrite Hfp. simpl exponent_part.
      destruct (ip ++ r); reflexivity.
    + assert (Hd : forallb is_digit r = false).
      { rewrite Hr, forallb_app. simpl. rewrite Hr2. now rewrite andb_false_r. }
      rewrite Hd.
      assert (Hc : kept c = true).
      { rewrite Hr, forallb_app in Hk. apply andb_true_iff in Hk as [_ Hk].
        simpl in Hk. now apply andb_true_iff in Hk as [Hk _]. }
      rewrite (kept_not_digit c Hc Hr2).
      change (exponent_part ("."%char :: r2)) with (@None Z).
      destruct (ip ++ fp), (ip ++ r); reflexivity.
Qed.

Lemma of_chars_kept (t : chars) :
  forallb kept t = true ->
  of_chars t
  = match t with
    | [] => Num.zero
    | _ :: _ =>
        match unsigned_decimal t with
        | Some d => Num.of_Q false (MV d)
        | None => Num.NaN
        end
    end.
Proof.
  intros H. unfold of_chars. rewrite (trim_kept t H).
  destruct t as [ | c t]; [reflexivity | ].
  assert (Hnd : non_decimal (c :: t) = None).
  { destruct t as [ | c' ds]; [now destruct c as [[] [] [] [] [] [] [] []] | ].
    simpl in H. apply andb_true_iff in H as [_ H].
    apply andb_true_iff in H as [Hc' _]. apply kept_cases in Hc'. simpl in Hc'.
    destruct c as [[] [] [] [] [] [] [] []]; try reflexivity.
    simpl. destruct (decide (ds = [])); [reflexivity | ].
    repeat (destruct Hc' as [<- | Hc']; [reflexivity | ]). destruct Hc'. }
  assert (Hinf : str_unsigned false (c :: t)
                 = match unsigned_decimal (c :: t) with
                   | Some d => Num.of_Q false (MV d)
                   | None => Num.NaN
                   end).
  { unfold str_unsigned. destruct (decide _) as [E | _]; [ | reflexivity].
    rewrite E in H. discriminate H. }
  simpl in H. apply andb_true_iff in H as [Hc _]. apply kept_cases in Hc. simpl in Hc.
  repeat (destruct Hc as [<- | Hc]; [rewrite ?Hnd; exact Hinf | ]). destruct Hc.
Qed.

Lemma filter_kept_point (l : chars) :
  List.filter is_point (List.filter kept l) = List.filter is_point l.
Proof.
  rewrite filter_filter. apply filter_ext. intros c. unfold kept.
  destruct (is_point c); [now rewrite orb_true_r | now rewrite andb_false_r].
Qed.

Lemma filter_kept_digit (l : chars) :
  List.filter is_digit (List.filter kept l) = List.filter is_digit l.
Proof.
  rewrite filter_filter. apply filter_ext. intros c. unfold kept.
  destruct (is_digit c); [reflexivity | now rewrite andb_false_r].
Qed.

Lemma forallb_filter {A} (p : A -> bool) (l : list A) :
  forallb p (List.filter p l) = true.
Proof.
  induction l as [ | a l IH]; [reflexivity | ].
  simpl. destruct (p a) eqn:E; [simpl; now rewrite E | exact IH].
Qed.

Lemma filter_forallb {A} (p : A -> bool) (l : list A) :
  forallb p l = true -> List.filter p l = l.
Proof.
  intros H. apply filter_all_true. now apply forallb_forall.
Qed.

Lemma digit_not_point (c : ascii) : is_digit c = true -> is_point c = false.
Proof.
  unfold is_digit, is_point. rewrite andb_true_iff, !N.leb_le. intros [H1 H2].
  apply N.eqb_neq. lia.
Qed.

Lemma no_point_in_digits (l : chars) :
  forallb is_digit l = true -> List.filter is_point l = [].
Proof.
  induction l as [ | c l IH]; [reflexivity | ]. simpl.
  intros H. apply andb_true_iff in H as [Hc H].
  now rewrite (digit_not_point c Hc), IH.
Qed.

Lemma point_in_kept (l : chars) :
  forallb kept l = true -> forallb is_digit l = false ->
  (1 <= length (List.filter is_point l))%nat.
Proof.
  induction l as [ | c l IH]; [discriminate | ]. simpl.
  intros H. apply andb_true_iff in H as [Hc H].
  destruct (is_digit c) eqn:Ed.
  - simpl. intros Hd. rewrite (digit_not_point c Ed). now apply IH.
  - intros _. rewrite (kept_not_digit c Hc Ed). simpl. lia.
Qed.

Lemma span_not_point_kept (l : chars) :
  List.filter is_digit (drop 1 (snd (span (fun c => negb (is_point c)) (List.filter kept l))))
  = List.filter is_digit (drop 1 (snd (span (fun c => negb (is_point c)) l))).
Proof.
  induction l as [ | c l IH]; [reflexivity | ].
  simpl. unfold kept at 1. destruct (is_point c) eqn:Ep.
  - rewrite orb_true_r. simpl. rewrite Ep. simpl. rewrite !drop_0.
    apply filter_kept_digit.
  - rewrite orb_false_r. destruct (is_digit c) eqn:Ed.
    + simpl. rewrite Ep. simpl.
      destruct (span _ (List.filter kept l)), (span _ l). exact IH.
    + simpl. destruct (span _ l). exact IH.
Qed.

Lemma span_kept (t : chars) :
  forallb kept t = true ->
  span (fun c => negb (is_point c)) t = span is_digit t.
Proof.
  induction t as [ | c t IH]; [reflexivity | ]. simpl.
  intros H. apply andb_true_iff in H as [Hc H]. rewrite (IH H).
  destruct (is_digit c) eqn:Ed.
  - now rewrite (digit_not_point c Ed).
  - now rewrite (kept_not_digit c Hc Ed).
Qed.

Lemma of_Q_not_nan (s : bool) (q : Q) : Num.of_Q s q <> Num.NaN.
Proof.
  unfold Num.of_Q, Num.round_pos.
  destruct (q ?= 0)%Q; try discriminate;
    destruct (if _ <=? _ then _ else _) as [m e];
    destruct m; try discriminate; destruct (e <=? 971); discriminate.
Qed.

Lemma of_Q_not_negative (q : Q) :
  (0 <= q)%Q ->
  Num.lt (Num.of_Q false q) Num.zero = false /\ Num.of_Q false q <> Num.neg_zero.
Proof.
  intros Hq. unfold Num.of_Q.
  destruct (q ?= 0)%Q eqn:E.
  - split; [reflexivity | discriminate].
  - apply Qlt_alt in E. exfalso. apply (Qlt_not_le _ _ E Hq).
  - unfold Num.round_pos.
    destruct (if _ <=? _ then _ else _) as [m e].
    destruct m; [split; [reflexivity | discriminate] | | split; [reflexivity | discriminate]].
    destruct (e <=? 971); split; (reflexivity || discriminate).
Qed.

Lemma digits_val_nonneg (l : chars) : forallb is_digit l = true -> 0 <= digits_val l.
Proof.
  induction l as [ | c l IH] using rev_ind; [easy | ].
  rewrite forallb_app. simpl. rewrite andb_true_r, andb_true_iff. intros [Hl Hc].
  rewrite digits_val_app. specialize (IH Hl).
  unfold is_digit in Hc. rewrite andb_true_iff, !N.leb_le in Hc.
  assert (0 <= digits_val [c]) by (unfold digits_val, digit_val; simpl; lia).
  change (length [c]) with 1%nat. lia.
Qed.

Lemma decimal_value (z : Z) (k : nat) :
  (MV (Dec z (0 - Z.of_nat k)) == inject_Z z / inject_Z (10 ^ Z.of_nat k))%Q.
Proof.
  unfold MV. simpl mant; simpl exp10.
  rewrite Z.sub_0_l, Qpower_opp, Zpower_Qpower by lia. reflexivity.
Qed.

(** The stripped text is read as [price_value] says. *)
Lemma of_chars_price_value (text : string) :
  of_chars (List.filter kept (of_string text)) = price_value text.
Proof.
  unfold price_value, points, digits_in, fraction_digits.
  rewrite <- (filter_kept_point (of_string text)),
    <- (filter_kept_digit (of_string text)),
    <- (span_not_point_kept (of_string text)).
  pose proof (forallb_filter kept (of_string text)) as H.
  set (t := List.filter kept (of_string text)) in *. clearbody t.
  rewrite (of_chars_kept t H), (unsigned_decimal_kept t H), (span_kept t H).
  destruct (span_spec is_digit t) as (Ht & Hip & Hr1).
  destruct (span is_digit t) as [ip r1]. simpl in Ht, Hip, Hr1. simpl snd; simpl fst.
  pose proof (no_point_in_digits ip Hip) as Hpi.
  pose proof (filter_forallb is_digit ip Hip) as Hdi.
  destruct r1 as [ | c r].
  - rewrite app_nil_r in Ht. subst ip. rewrite Hpi, Hdi. simpl.
    destruct t as [ | c t]; [reflexivity | ].
    apply of_Q_comp. apply (decimal_value _ 0).
  - assert (Hk : forallb kept (c :: r) = true).
    { rewrite Ht, forallb_app in H. now apply andb_true_iff in H. }
    simpl in Hk. apply andb_true_iff in Hk as [Hc Hk].
    rewrite (kept_not_digit c Hc Hr1) in *. clear Hc Hr1 c.
    rewrite Ht, !List.filter_app, Hpi, Hdi. simpl. rewrite drop_0.
    destruct (forallb is_digit r) eqn:Hd.
    + rewrite (no_point_in_digits r Hd), (filter_forallb is_digit r Hd). simpl.
      destruct (ip ++ r) as [ | d ds] eqn:E.
      * rewrite bool_decide_eq_true_2 by reflexivity. now destruct ip.
      * rewrite bool_decide_eq_false_2 by discriminate.
        destruct ip; apply of_Q_comp, decimal_value.
    + pose proof (point_in_kept r Hk Hd) as Hp.
      destruct (length (List.filter is_point r)) as [ | n]; [lia | ].
      simpl. destruct (ip ++ r); [now destruct ip | now destruct ip].
Qed.

End PriceCoercion.

(** X7: the price given to a listing is determined by the digits and the
    decimal points of the cell alone: NaN when the cell has two or more
    points, or one point and no digit; otherwise the decimal whose digits
    are the digits of the cell, with as many decimals as there are digits
    after the point. *)
Theorem coerce_price_price_value (text : string) :
  coerce_price text = price_value text.
Proof.
  unfold coerce_price, ToNumber.StringToNumber, strip_non_numeric.
  rewrite of_string_to_string. apply of_chars_price_value.
Qed.

(** X8: the price is NaN exactly when the cell has two or more decimal
    points, or one point and no digit. *)
Theorem coerce_price_nan_iff (text : string) :
  coerce_price text = Num.NaN
  <-> (2 <= points text)%nat \/ (points text = 1%nat /\ digits_in text = []).
Proof.
  unfold coerce_price, ToNumber.StringToNumber, strip_non_numeric.
  rewrite of_string_to_string, of_chars_price_value. unfold price_value.
  destruct (2 <=? points text)%nat eqn:E2; simpl.
  - apply Nat.leb_le in E2. tauto.
  - apply Nat.leb_gt in E2.
    destruct (points text =? 1)%nat eqn:E1; simpl.
    + apply Nat.eqb_eq in E1. destruct (decide (digits_in text = [])) as [E | E].
      * rewrite bool_decide_eq_true_2 by exact E. tauto.
      * rewrite bool_decide_eq_false_2 by exact E.
        split; [intros H; now apply of_Q_not_nan in H | ].
        intros [H | [_ H]]; [lia | contradiction].
    + apply Nat.eqb_neq in E1.
      split; [intros H; now apply of_Q_not_nan in H | ].
      intros [H | [H _]]; [lia | contradiction].
Qed.

(** X9: a cell without a decimal point is given the integer written by its
    digits, every other character ignored; without digits, that is 0. *)
Theorem coerce_price_integer (text : string) :
  points text = 0%nat ->
  coerce_price text = Num.of_Z (Text.digits_val (digits_in text)).
Proof.
  intros Hp.
  unfold coerce_price, ToNumber.StringToNumber, strip_non_numeric.
  rewrite of_string_to_string, of_chars_price_value. unfold price_value.
  rewrite Hp. simpl. unfold Num.of_Z. apply of_Q_comp.
  assert (Hf : fraction_digits text = []).
  { unfold fraction_digits, points in *.
    apply length_zero_iff_nil in Hp.
    induction (Text.of_string text) as [ | c l IH]; [reflexivity | ].
    simpl in Hp |- *. destruct (is_point c); [discriminate Hp | ].
    simpl. specialize (IH Hp). now destruct (Text.span _ l). }
  rewrite Hf. change (inject_Z (10 ^ Z.of_nat (length (@nil ascii)))) with 1%Q. field.
Qed.

Lemma coerce_price_integer_witness :
  points "-$1,200" = 0%nat /\ coerce_price "-$1,200" = Num.of_Z 1200.
Proof.
  split; [reflexivity | ].
  exact (coerce_price_integer "-$1,200" eq_refl).
Defined.

(** X10: the price given to a listing is never negative and never [-0]: a
    minus sign in the cell is removed with the other characters. *)
Theorem coerce_price_not_negative (text : string) :
  Num.lt (coerce_price text) Num.zero = false
  /\ coerce_price text <> Num.neg_zero.
Proof.
  unfold coerce_price, ToNumber.StringToNumber, strip_non_numeric.
  rewrite of_string_to_string, of_chars_price_value. unfold price_value.
  destruct (_ || _); [split; [reflexivity | discriminate] | ].
  apply of_Q_not_negative.
  assert (H : (0 <= Text.digits_val (digits_in text))%Z).
  { apply digits_val_nonneg, forallb_filter. }
  assert (H10 : (0 < 10 ^ Z.of_nat (length (fraction_digits text)))%Z).
  { apply Z.pow_pos_nonneg; lia. }
  apply Qle_shift_div_l.
  - change 0%Q with (inject_Z 0). now rewrite <- Zlt_Qlt.
  - rewrite Qmult_0_l. change 0%Q with (inject_Z 0). now rewrite <- Zle_Qle.
Qed.

Section Loading.

Lemma on_rows_without_price (rows : list Row) (results : list Listing) :
  Exists (fun row => row !! "price"%string = None) rows ->
  on_rows results rows = inl TypeError.
Proof.
  intros H. revert results.
  induction H as [row rows H | row rows _ IH]; intros results; simpl; unfold on_data.
  - now rewrite H.
  - destruct (row !! "price"%string); [apply IH | reflexivity].
Qed.

End Loading.

(** X11: when some row has no [price], loading fails with the TypeError of
    the callback, whatever the other rows are and however the stream ends;
    no handler is made. *)
Theorem loadAirBnBData_row_without_price (rows : list Row) (fin : stream_end) :
  Exists (fun row => row !! "price"%string = None) rows ->
  loadAirBnBData rows fin = Failed TypeError.
Proof.
  intros H. unfold loadAirBnBData, parseCSV.
  now rewrite (on_rows_without_price rows [] H).
Qed.

Lemma loadAirBnBData_row_without_price_witness :
  Exists (fun row => row !! "price"%string = None)
    [complete_row; row_of [("bedrooms", "2")]%string]
  /\ loadAirBnBData [complete_row; row_of [("bedrooms", "2")]%string] End
     = Failed TypeError.
Proof.
  assert (H : Exists (fun row => row !! "price"%string = None)
                [complete_row; row_of [("bedrooms", "2")]%string]).
  { apply Exists_cons_tl, Exists_cons_hd. reflexivity. }
  split; [exact H | ].
  exact (loadAirBnBData_row_without_price _ End H).
Defined.



(** ** Statistics of listings that are not numbers *)

Section StatisticsOfNaN.

Lemma add_nan_r (x : number) : Num.add x Num.NaN = Num.NaN.
Proof. destruct x as [ | [ | ] | | ]; reflexivity. Qed.

Lemma sum_from_nan (xs : list number) : sum_from Num.NaN xs = Num.NaN.
Proof. induction xs as [ | x xs IH]; [reflexivity | exact IH]. Qed.

Lemma sum_from_with_nan (xs : list number) (acc : number) :
  Exists (fun x => Num.is_nan x = true) xs -> sum_from acc xs = Num.NaN.
Proof.
  intros H. revert acc. induction H as [x xs Hx | x xs _ IH]; intros acc; simpl.
  - destruct x; try discriminate Hx. fold Num.NaN. rewrite add_nan_r. apply sum_from_nan.
  - apply IH.
Qed.

Lemma div_nan_l (y : number) : Num.div Num.NaN y = Num.NaN.
Proof. reflexivity. Qed.

Lemma div_nan_r (x : number) : Num.div x Num.NaN = Num.NaN.
Proof. destruct x as [ | [ | ] | | ]; reflexivity. Qed.

End StatisticsOfNaN.

(** X13: one listing whose [bedrooms] is missing or is not the text of a
    number makes the average price per room NaN, whatever the other
    listings are. *)
Theorem computeStats_rooms_not_a_number (s : list Listing) :
  Exists (fun l => Num.is_nan (ToNumber.Number (bedrooms l)) = true) s ->
  averagePricePerRoom (eval computeStats s) = Num.NaN.
Proof.
  intros H. rewrite average_computeStats.
  destruct (decide (s = [])) as [-> | _]; [inversion H | ].
  assert (E : sum (rooms s) = Num.NaN).
  { apply sum_from_with_nan. unfold rooms. apply Exists_exists in H as (l & Hl & Hn).
    apply Exists_exists. exists (ToNumber.Number (bedrooms l)).
    split; [ | exact Hn].
    apply list_elem_of_In, (in_map (fun l => ToNumber.Number (bedrooms l))).
    now apply list_elem_of_In. }
  rewrite E. simpl. apply div_nan_r.
Qed.

Lemma computeStats_rooms_not_a_number_witness :
  Exists (fun l => Num.is_nan (ToNumber.Number (bedrooms l)) = true)
    [listing_of 100 [("bedrooms", "2")]%string; studio]
  /\ averagePricePerRoom
       (eval computeStats [listing_of 100 [("bedrooms", "2")]%string; studio])
     = Num.NaN.
Proof.
  assert (H : Exists (fun l => Num.is_nan (ToNumber.Number (bedrooms l)) = true)
                [listing_of 100 [("bedrooms", "2")]%string; studio]).
  { apply Exists_cons_tl, Exists_cons_hd. vm_compute; reflexivity. }
  split; [exact H | ].
  exact (computeStats_rooms_not_a_number _ H).
Defined.

(** X14: one listing with the price NaN makes the average NaN, unless the
    summed bedrooms are 0, when the average is 0. *)
Theorem computeStats_price_not_a_number (s : list Listing) :
  Exists (fun l => Num.is_nan (price l) = true) s ->
  averagePricePerRoom (eval computeStats s)
  = if Num.strict_eq (totalRooms s) Num.zero then Num.zero else Num.NaN.
Proof.
  intros H. rewrite average_computeStats, totalRooms_sum.
  destruct (decide (s = [])) as [-> | _]; [inversion H | ].
  destruct (Num.strict_eq (sum (rooms s)) Num.zero); [reflexivity | ].
  assert (E : sum (prices s) = Num.NaN).
  { apply sum_from_with_nan. unfold prices. apply Exists_exists in H as (l & Hl & Hn).
    apply Exists_exists. exists (price l).
    split; [ | exact Hn]. apply list_elem_of_In, (in_map price). now apply list_elem_of_In. }
  rewrite E. apply div_nan_l.
Qed.

Lemma computeStats_price_not_a_number_witness :
  Exists (fun l => Num.is_nan (price l) = true)
    [mkListing Num.NaN (row_of [("bedrooms", "2")]%string)]
  /\ averagePricePerRoom
       (eval computeStats [mkListing Num.NaN (row_of [("bedrooms", "2")]%string)])
     = if Num.strict_eq (totalRooms [mkListing Num.NaN (row_of [("bedrooms", "2")]%string)])
            Num.zero
       then Num.zero else Num.NaN.
Proof.
  assert (H : Exists (fun l => Num.is_nan (price l) = true)
                [mkListing Num.NaN (row_of [("bedrooms", "2")]%string)]).
  { apply Exists_cons_hd. reflexivity. }
  split; [exact H | ].
  exact (computeStats_price_not_a_number _ H).
Defined.

(** X15: an average that is NaN or infinite is exported as [null]: the text
    written for the stats is the text of the object with [null] for
    [averagePricePerRoom]. *)
Theorem stringify_stats_not_finite (stats : Stats) :
  Num.is_finite (averagePricePerRoom stats) = false ->
  JSON.stringify (stats_value stats)
  = JSON.stringify
      (JSON.JObject
         [("count"%string, JSON.JNumber (Num.of_nat (count stats)));
          ("averagePricePerRoom"%string, JSON.JNull)]).
Proof.
  intros H. unfold JSON.stringify, stats_value. f_equal.
  cbn [JSON.serialize map JSON.join]. now rewrite H.
Qed.

Lemma stringify_stats_not_finite_witness :
  Num.is_finite (averagePricePerRoom (eval computeStats [studio])) = false
  /\ JSON.stringify (stats_value (eval computeStats [studio]))
     = JSON.stringify
         (JSON.JObject
            [("count"%string, JSON.JNumber (Num.of_nat (count (eval computeStats [studio]))));
             ("averagePricePerRoom"%string, JSON.JNull)]).
Proof.
  split; [vm_compute; reflexivity | ].
  apply (stringify_stats_not_finite (eval computeStats [studio])).
  vm_compute; reflexivity.
Defined.

Lemma computeStats_no_rooms_witness :
  Forall (fun l => Num.strict_eq (ToNumber.Number (bedrooms l)) Num.zero = true)
    [listing_of 100 [("bedrooms", "0")]%string; listing_of 50 [("bedrooms", " ")]%string]
  /\ averagePricePerRoom
       (eval computeStats
          [listing_of 100 [("bedrooms", "0")]%string;
           listing_of 50 [("bedrooms", " ")]%string])
     = Num.zero.
Proof.
  assert (H : Forall (fun l => Num.strict_eq (ToNumber.Number (bedrooms l)) Num.zero = true)
                [listing_of 100 [("bedrooms", "0")]%string;
                 listing_of 50 [("bedrooms", " ")]%string]).
  { repeat constructor; vm_compute; reflexivity. }
  split; [exact H | ].
  exact (computeStats_no_rooms _ H).
Defined.

(** ** The order and the total of the ranking *)

Section RankingOrder.
Import Obj.

Lemma with_count_sort_insert (c : N) (a : HostCount) (l : list HostCount) :
  is_count a -> Forall is_count l ->
  with_count c (sort_insert a l) = with_count c (a :: l).
Proof.
  intros Ha Hl. induction Hl as [ | b l Hb Hl IH]; [reflexivity | ].
  simpl sort_insert. rewrite (after_counts a b Ha Hb).
  destruct (count_num a <? count_num b)%N eqn:E; [ | reflexivity].
  apply N.ltb_lt in E. unfold with_count in *. simpl List.filter in *.
  rewrite IH.
  destruct (count_num a =? c)%N eqn:Ea, (count_num b =? c)%N eqn:Eb; try reflexivity.
  apply N.eqb_eq in Ea, Eb. lia.
Qed.

Lemma is_count_sort_ranking (l : list HostCount) :
  Forall is_count l -> Forall is_count (sort_ranking l).
Proof.
  intros H. apply Forall_forall. intros x Hx. rewrite Forall_forall in H. apply H.
  apply list_elem_of_In. apply list_elem_of_In in Hx.
  now rewrite <- (sort_ranking_perm l).
Qed.

(** The sort is stable: entries with the same count keep their order. *)
Lemma with_count_sort_ranking (c : N) (l : list HostCount) :
  Forall is_count l -> with_count c (sort_ranking l) = with_count c l.
Proof.
  induction 1 as [ | a l Ha Hl IH]; [reflexivity | ].
  simpl sort_ranking.
  rewrite (with_count_sort_insert c a _ Ha (is_count_sort_ranking l Hl)).
  unfold with_count in *. simpl. now rewrite IH.
Qed.

Lemma total_count_perm (l l' : list HostCount) :
  Permutation l l' -> total_count l = total_count l'.
Proof.
  induction 1; simpl; lia || congruence.
Qed.

Lemma own_is_Some (o : obj) (k : string) : is_Some (own o k) <-> In k (map fst o).
Proof.
  split.
  - intros [v Hv]. apply own_In in Hv. apply in_map_iff. now exists (k, v).
  - intros Hin. destruct (own o k) eqn:E; [eauto | ].
    exfalso. now apply (own_None o k E).
Qed.

Lemma keys_tally (acc : obj) (l : Listing) :
  proto_text (hostKey l) = None -> counts_only acc ->
  map fst (tally acc l)
  = if bool_decide (hostKey l ∈ map fst acc) then map fst acc
    else map fst acc ++ [hostKey l].
Proof.
  intros Hp Hacc. unfold tally.
  destruct (own acc (hostKey l)) as [v | ] eqn:E.
  - destruct (Hacc _ _ E) as [n ->]. rewrite keys_set_own, E.
    rewrite bool_decide_eq_true_2; [reflexivity | ].
    apply list_elem_of_In, own_is_Some. eauto.
  - rewrite Hp, keys_set_own, E.
    rewrite bool_decide_eq_false_2; [reflexivity | ].
    intros Hin. apply list_elem_of_In in Hin. now apply (own_None acc _ E).
Qed.

Lemma keys_fold_tally (ls : list Listing) (acc : obj) :
  Forall (fun l => proto_text (hostKey l) = None) ls -> counts_only acc ->
  map fst (fold_left tally ls acc)
  = fold_left (fun seen k => if bool_decide (k ∈ seen) then seen else seen ++ [k])
      (map hostKey ls) (map fst acc).
Proof.
  intros H. revert acc. induction H as [ | l ls Hl _ IH]; intros acc Hacc; [reflexivity | ].
  simpl. rewrite (IH _ (counts_only_tally acc l Hl Hacc)).
  now rewrite (keys_tally acc l Hl Hacc).
Qed.

Lemma keys_hostMap (ls : list Listing) :
  Forall (fun l => proto_text (hostKey l) = None) ls ->
  map fst (hostMap ls) = first_seen (map hostKey ls).
Proof.
  intros H. unfold hostMap, first_seen.
  rewrite (keys_fold_tally ls empty H); [reflexivity | intros ? ? [=]].
Qed.

Lemma counts_hostMap (ls : list Listing) (k : string) (v : value) :
  Forall (fun l => proto_text (hostKey l) = None) ls ->
  In (k, v) (hostMap ls) -> v = VNum (host_count k ls).
Proof.
  intros H Hin. apply (In_own _ _ _ (NoDup_hostMap ls)) in Hin.
  rewrite (own_hostMap ls k H) in Hin.
  destruct (host_count k ls =? 0)%N; congruence.
Qed.

Lemma entries_without_index (o : obj) :
  Forall (fun kv => array_index (fst kv) = None) o -> entries o = o.
Proof.
  intros H. unfold entries, index_entries.
  assert (E : omap (fun kv => match array_index (fst kv) with
                              | Some i => Some (i, kv)
                              | None => None
                              end) o = []).
  { induction H as [ | kv o Hkv _ IH]; [reflexivity | ]. simpl. now rewrite Hkv. }
  rewrite E. simpl. apply filter_all_true. intros kv Hin.
  rewrite Forall_forall in H. apply list_elem_of_In in Hin. now rewrite (H kv Hin).
Qed.

Lemma total_set_own (o : obj) (k : string) (v : value) :
  (total_count (map (fun '(host_id, count) => mkHostCount host_id count) (set_own o k v))
   + num_of (own o k)
   = total_count (map (fun '(host_id, count) => mkHostCount host_id count) o)
     + num_of (Some v))%N.
Proof.
  induction o as [ | [k0 v0] o IH]; cbn [set_own own].
  - simpl. unfold count_num. simpl. destruct v; lia.
  - destruct (decide (k0 = k)) as [-> | Hne]; cbn [map total_count fold_right].
    + unfold count_num. simpl. destruct v, v0; lia.
    + fold (total_count
              (map (fun '(host_id, count) => mkHostCount host_id count) (set_own o k v))).
      fold (total_count (map (fun '(host_id, count) => mkHostCount host_id count) o)).
      lia.
Qed.

Lemma total_tally (acc : obj) (l : Listing) :
  proto_text (hostKey l) = None -> counts_only acc ->
  total_count (map (fun '(host_id, count) => mkHostCount host_id count) (tally acc l))
  = (total_count (map (fun '(host_id, count) => mkHostCount host_id count) acc) + 1)%N.
Proof.
  intros Hp Hacc. unfold tally.
  destruct (own acc (hostKey l)) as [v | ] eqn:E.
  - destruct (Hacc _ _ E) as [n ->].
    pose proof (total_set_own acc (hostKey l) (VNum (n + 1))) as H.
    rewrite E in H. simpl in H. lia.
  - rewrite Hp.
    pose proof (total_set_own acc (hostKey l) (VNum 1)) as H.
    rewrite E in H. simpl in H. lia.
Qed.

Lemma total_fold_tally (ls : list Listing) (acc : obj) :
  Forall (fun l => proto_text (hostKey l) = None) ls -> counts_only acc ->
  total_count (map (fun '(host_id, count) => mkHostCount host_id count)
                 (fold_left tally ls acc))
  = (total_count (map (fun '(host_id, count) => mkHostCount host_id count) acc)
     + N.of_nat (length ls))%N.
Proof.
  intros H. revert acc. induction H as [ | l ls Hl _ IH]; intros acc Hacc; simpl fold_left.
  - simpl. lia.
  - rewrite (IH _ (counts_only_tally acc l Hl Hacc)), (total_tally acc l Hl Hacc).
    simpl length. lia.
Qed.

Lemma first_seen_from (keys seen : list string) (k : string) :
  In k (fold_left (fun seen k => if bool_decide (k ∈ seen) then seen else seen ++ [k])
          keys seen) ->
  In k seen \/ In k keys.
Proof.
  revert seen. induction keys as [ | k0 keys IH]; intros seen; simpl; [auto | ].
  intros H. apply IH in H as [H | H]; [ | auto].
  destruct (bool_decide (k0 ∈ seen)); [auto | ].
  apply in_app_or in H as [H | [<- | []]]; auto.
Qed.

Lemma hostMap_keys_from (ls : list Listing) (k : string) (v : value) :
  Forall (fun l => proto_text (hostKey l) = None) ls ->
  In (k, v) (hostMap ls) -> exists l, In l ls /\ hostKey l = k.
Proof.
  intros H Hin.
  assert (Hk : In k (map fst (hostMap ls))) by (apply in_map_iff; now exists (k, v)).
  rewrite (keys_hostMap ls H) in Hk. apply first_seen_from in Hk as [[] | Hk].
  apply in_map_iff in Hk as (l & <- & Hl). eauto.
Qed.

Lemma is_count_hostMap (ls : list Listing) :
  Forall (fun l => proto_text (hostKey l) = None) ls ->
  Forall is_count (map (fun '(host_id, count) => mkHostCount host_id count) (hostMap ls)).
Proof.
  intros H. apply Forall_forall. intros h Hh.
  apply list_elem_of_In, in_map_iff in Hh as ([k v] & <- & Hin).
  rewrite (counts_hostMap ls k v H Hin). now eexists.
Qed.

Lemma with_count_keys (ls : list Listing) (c : N) (o : obj) :
  (forall k v, In (k, v) o -> v = VNum (host_count k ls)) ->
  map hc_host_id
    (with_count c (map (fun '(host_id, count) => mkHostCount host_id count) o))
  = List.filter (fun k => (host_count k ls =? c)%N) (map fst o).
Proof.
  unfold with_count. induction o as [ | [k v] o IH]; intros H; [reflexivity | ].
  simpl. rewrite (H k v) by now left. unfold count_num at 1. simpl.
  destruct (host_count k ls =? c)%N; simpl; rewrite IH; auto;
    intros k' v' Hin; apply H; now right.
Qed.

End RankingOrder.

(** X18: for every listing set without a host key that [{}] inherits, the
    counts of the ranking add up to the number of listings: every listing
    is counted once. *)
Theorem computeListingsByHost_total (s : list Listing) :
  Forall (fun l => Obj.proto_text (hostKey l) = None) s ->
  total_count (eval computeListingsByHost s) = N.of_nat (length s).
Proof.
  intros H.
  change (eval computeListingsByHost s)
    with (sort_ranking (map (fun '(host_id, count) => mkHostCount host_id count)
                          (Obj.entries (hostMap s)))).
  rewrite (total_count_perm _ _ (sort_ranking_perm _)).
  rewrite (total_count_perm _ _ (Permutation_map _ (entries_perm (hostMap s)))).
  unfold hostMap. rewrite (total_fold_tally s Obj.empty H); [reflexivity | intros ? ? [=]].
Qed.

Lemma computeListingsByHost_total_witness :
  Forall (fun l => Obj.proto_text (hostKey l) = None)
    [hosted_by "B"; hosted_by "A"; hosted_by ""; hosted_by "A"]
  /\ total_count
       (eval computeListingsByHost [hosted_by "B"; hosted_by "A"; hosted_by ""; hosted_by "A"])
     = N.of_nat (length [hosted_by "B"; hosted_by "A"; hosted_by ""; hosted_by "A"]).
Proof.
  assert (H : Forall (fun l => Obj.proto_text (hostKey l) = None)
                [hosted_by "B"; hosted_by "A"; hosted_by ""; hosted_by "A"]).
  { repeat constructor. }
  split; [exact H | ].
  exact (computeListingsByHost_total _ H).
Defined.

(** X19: hosts with the same number of listings are ranked in the order in
    which they first appear in the listing set, when no host key is
    inherited by [{}] or is an array index. *)
Theorem computeListingsByHost_ties_first_seen (s : list Listing) (c : N) :
  Forall (fun l => Obj.proto_text (hostKey l) = None
                   /\ Obj.array_index (hostKey l) = None) s ->
  map hc_host_id (with_count c (eval computeListingsByHost s))
  = List.filter (fun k => (host_count k s =? c)%N) (first_seen (map hostKey s)).
Proof.
  intros H.
  assert (Hp : Forall (fun l => Obj.proto_text (hostKey l) = None) s).
  { eapply Forall_impl; [exact H | now intros l [? _]]. }
  change (eval computeListingsByHost s)
    with (sort_ranking (map (fun '(host_id, count) => mkHostCount host_id count)
                          (Obj.entries (hostMap s)))).
  rewrite entries_without_index.
  - rewrite (with_count_sort_ranking c _ (is_count_hostMap s Hp)).
    rewrite (with_count_keys s c (hostMap s)).
    + now rewrite (keys_hostMap s Hp).
    + intros k v. apply (counts_hostMap s k v Hp).
  - apply Forall_forall. intros [k v] Hin. apply list_elem_of_In in Hin.
    destruct (hostMap_keys_from s k v Hp Hin) as (l & Hl & <-).
    rewrite Forall_forall in H. apply list_elem_of_In in Hl. now apply (H l Hl).
Qed.

Lemma computeListingsByHost_ties_first_seen_witness :
  Forall (fun l => Obj.proto_text (hostKey l) = None
                   /\ Obj.array_index (hostKey l) = None)
    [hosted_by "zoe"; hosted_by "amy"; hosted_by "bob"; hosted_by "bob"]
  /\ map hc_host_id
       (with_count 1
          (eval computeListingsByHost
             [hosted_by "zoe"; hosted_by "amy"; hosted_by "bob"; hosted_by "bob"]))
     = List.filter
         (fun k => (host_count k [hosted_by "zoe"; hosted_by "amy"; hosted_by "bob";
                                  hosted_by "bob"] =? 1)%N)
         (first_seen
            (map hostKey [hosted_by "zoe"; hosted_by "amy"; hosted_by "bob"; hosted_by "bob"])).
Proof.
  assert (H : Forall (fun l => Obj.proto_text (hostKey l) = None
                               /\ Obj.array_index (hostKey l) = None)
                [hosted_by "zoe"; hosted_by "amy"; hosted_by "bob"; hosted_by "bob"]).
  { repeat constructor. }
  split; [exact H | ].
  exact (computeListingsByHost_ties_first_seen _ 1 H).
Defined.

Section RankingByIndex.
Import Obj.

Lemma array_index_not_inherited (k : string) :
  is_Some (array_index k) -> proto_text k = None.
Proof.
  intros [i Hi]. unfold proto_text.
  destruct (decide (k = "__proto__"%string)) as [-> | _]; [discriminate Hi | ].
  destruct (decide (k = "constructor"%string)) as [-> | _]; [discriminate Hi | ].
  destruct (bool_decide _) eqn:E; [ | reflexivity].
  apply bool_decide_eq_true in E. apply list_elem_of_In in E. simpl in E.
  repeat (destruct E as [<- | E]; [discriminate Hi | ]). destruct E.
Qed.

Lemma insert_index_sorted (e : N * (string * value)) (l : list (N * (string * value))) :
  StronglySorted (fun a b => (fst a <= fst b)%N) l ->
  StronglySorted (fun a b => (fst a <= fst b)%N) (insert_index e l).
Proof.
  induction 1 as [ | e' l Hs IH He']; simpl.
  - repeat constructor.
  - destruct (fst e <=? fst e')%N eqn:E.
    + apply N.leb_le in E. constructor; [now constructor | ].
      constructor; [exact E | ].
      eapply Forall_impl; [exact He' | ]. intros x Hx. simpl in *. lia.
    + apply N.leb_gt in E. constructor; [exact IH | ].
      apply Forall_forall. intros x Hx. apply list_elem_of_In in Hx.
      apply (Permutation_in _ (insert_index_perm e l)) in Hx as [<- | Hx]; [lia | ].
      rewrite Forall_forall in He'. apply He'. now apply list_elem_of_In.
Qed.

Lemma index_entries_sorted (o : obj) :
  StronglySorted (fun a b => (fst a <= fst b)%N) (index_entries o).
Proof.
  unfold index_entries. induction (omap _ o) as [ | e l IH]; simpl; [constructor | ].
  now apply insert_index_sorted.
Qed.

Lemma index_entries_index (o : obj) (e : N * (string * value)) :
  In e (index_entries o) -> array_index (fst (snd e)) = Some (fst e).
Proof.
  unfold index_entries. intros H.
  assert (Hp : forall l, Permutation (foldr insert_index [] l) l).
  { induction l as [ | x l IH]; simpl; [reflexivity | ].
    now rewrite insert_index_perm, IH. }
  apply (Permutation_in _ (Hp _)) in H. clear Hp.
  induction o as [ | kv o IH]; simpl in H; [destruct H | ].
  destruct (array_index (fst kv)) eqn:E; [ | now apply IH].
  destruct H as [<- | H]; [exact E | now apply IH].
Qed.

Lemma entries_all_index (o : obj) :
  Forall (fun kv => is_Some (array_index (fst kv))) o ->
  entries o = map snd (index_entries o).
Proof.
  intros H. unfold entries.
  assert (E : List.filter (fun kv => match array_index (fst kv) with
                                     | Some _ => false
                                     | None => true
                                     end) o = []).
  { induction H as [ | kv o [i Hi] _ IH]; [reflexivity | ]. simpl. now rewrite Hi. }
  rewrite E. apply app_nil_r.
Qed.

Lemma sorted_host_index (l : list (N * (string * value))) :
  (forall e, In e l -> array_index (fst (snd e)) = Some (fst e)) ->
  StronglySorted (fun a b => (fst a <= fst b)%N) l ->
  StronglySorted (fun a b => (host_index a <= host_index b)%N)
    (map (fun '(host_id, count) => mkHostCount host_id count) (map snd l)).
Proof.
  intros Hi Hs. induction Hs as [ | e l Hs IH He]; simpl; [constructor | ].
  assert (Hx : forall x, In x (e :: l) ->
                         host_index ((fun '(host_id, count) => mkHostCount host_id count)
                                       (snd x)) = fst x).
  { intros [i [k v]] Hx. unfold host_index. simpl.
    pose proof (Hi _ Hx) as E. simpl in E. now rewrite E. }
  constructor.
  - apply IH. intros x Hin. apply Hi. now right.
  - rewrite Forall_map, Forall_map. apply Forall_forall. intros x Hin.
    rewrite (Hx e) by now left.
    apply list_elem_of_In in Hin. rewrite (Hx x) by now right.
    rewrite Forall_forall in He. apply He. now apply list_elem_of_In.
Qed.

Lemma with_count_sorted (R : HostCount -> HostCount -> Prop) (c : N)
    (l : list HostCount) :
  StronglySorted R l -> StronglySorted R (with_count c l).
Proof.
  unfold with_count. induction 1 as [ | a l Hs IH Ha]; simpl; [constructor | ].
  destruct (count_num a =? c)%N; [ | exact IH].
  constructor; [exact IH | ].
  apply Forall_forall. intros x Hx. apply list_elem_of_In, filter_In in Hx as [Hx _].
  rewrite Forall_forall in Ha. apply Ha. now apply list_elem_of_In.
Qed.

End RankingByIndex.

(** X20: when the host keys are array indices (decimal numbers below
    2^32 - 1, as numeric host ids are), hosts with the same number of
    listings are ranked by ascending host id, not by first appearance:
    [Object.entries] lists such keys in numeric order. *)
Theorem computeListingsByHost_ties_by_index (s : list Listing) (c : N) :
  Forall (fun l => is_Some (Obj.array_index (hostKey l))) s ->
  StronglySorted (fun a b => (host_index a <= host_index b)%N)
    (with_count c (eval computeListingsByHost s)).
Proof.
  intros H.
  assert (Hp : Forall (fun l => Obj.proto_text (hostKey l) = None) s).
  { eapply Forall_impl; [exact H | ]. intros l. apply array_index_not_inherited. }
  change (eval computeListingsByHost s)
    with (sort_ranking (map (fun '(host_id, count) => mkHostCount host_id count)
                          (Obj.entries (hostMap s)))).
  assert (Hc : Forall is_count
                 (map (fun '(host_id, count) => mkHostCount host_id count)
                    (Obj.entries (hostMap s)))).
  { apply Forall_forall. intros h Hh.
    apply list_elem_of_In, in_map_iff in Hh as ([k v] & <- & Hin).
    apply (Permutation_in _ (entries_perm (hostMap s))) in Hin.
    rewrite (counts_hostMap s k v Hp Hin). now eexists. }
  rewrite (with_count_sort_ranking c _ Hc).
  apply with_count_sorted. rewrite entries_all_index.
  - apply sorted_host_index; [apply index_entries_index | apply index_entries_sorted].
  - apply Forall_forall. intros [k v] Hin. apply list_elem_of_In in Hin.
    destruct (hostMap_keys_from s k v Hp Hin) as (l & Hl & <-).
    rewrite Forall_forall in H. apply list_elem_of_In in Hl. now apply (H l Hl).
Qed.

Lemma computeListingsByHost_ties_by_index_witness :
  Forall (fun l => is_Some (Obj.array_index (hostKey l)))
    [hosted_by "200"; hosted_by "30"; hosted_by "4"; hosted_by "4"]
  /\ StronglySorted (fun a b => (host_index a <= host_index b)%N)
       (with_count 1
          (eval computeListingsByHost
             [hosted_by "200"; hosted_by "30"; hosted_by "4"; hosted_by "4"])).
Proof.
  assert (H : Forall (fun l => is_Some (Obj.array_index (hostKey l)))
                [hosted_by "200"; hosted_by "30"; hosted_by "4"; hosted_by "4"]).
  { repeat constructor; eexists; vm_compute; reflexivity. }
  split; [exact H | ].
  exact (computeListingsByHost_ties_by_index _ 1 H).
Defined.

Example computeListingsByHost_numeric_ids :
  eval computeListingsByHost
    [hosted_by "200"; hosted_by "30"; hosted_by "4"; hosted_by "4"]
  = [mkHostCount "4" (Obj.VNum 2); mkHostCount "30" (Obj.VNum 1);
     mkHostCount "200" (Obj.VNum 1)].
Proof. vm_compute; reflexivity. Qed.

Lemma computeListingsByHost_counts_witness :
  Forall (fun l => Obj.proto_text (hostKey l) = None)
    [hosted_by "B"; hosted_by "A"; hosted_by "A"]
  /\ Sorted (fun x y => (count_num y <= count_num x)%N)
       (eval computeListingsByHost [hosted_by "B"; hosted_by "A"; hosted_by "A"])
  /\ List.NoDup
       (map hc_host_id
          (eval computeListingsByHost [hosted_by "B"; hosted_by "A"; hosted_by "A"]))
  /\ forall h,
      In h (eval computeListingsByHost [hosted_by "B"; hosted_by "A"; hosted_by "A"])
      <-> hc_count h
          = Obj.VNum (host_count (hc_host_id h) [hosted_by "B"; hosted_by "A"; hosted_by "A"])
          /\ (0 < host_count (hc_host_id h) [hosted_by "B"; hosted_by "A"; hosted_by "A"])%N.
Proof.
  assert (H : Forall (fun l => Obj.proto_text (hostKey l) = None)
                [hosted_by "B"; hosted_by "A"; hosted_by "A"]).
  { repeat constructor. }
  split; [exact H | ].
  exact (computeListingsByHost_counts _ H).
Defined.

Section UnknownHost.
Import Obj.

Lemma hostKey_unknown (l : Listing) :
  hostKey l = "unknown"%string
  <-> host_id l = None \/ host_id l = Some ""%string \/ host_id l = Some "unknown"%string.
Proof.
  unfold hostKey. destruct (host_id l) as [h | ].
  - destruct (decide (h = ""%string)) as [-> | Hne].
    + split; auto.
    + split; [intros ->; auto | ]. intros [[=] | [[= ->] | [= ->]]]; congruence.
  - split; auto.
Qed.

Lemma hostMap_entry (ls : list Listing) (k : string) :
  Forall (fun l => proto_text (hostKey l) = None) ls ->
  (0 < host_count k ls)%N ->
  In (mkHostCount k (VNum (host_count k ls))) (eval computeListingsByHost ls).
Proof.
  intros H Hpos.
  change (eval computeListingsByHost ls)
    with (sort_ranking (map (fun '(host_id, count) => mkHostCount host_id count)
                          (entries (hostMap ls)))).
  apply (Permutation_in _ (Permutation_sym (sort_ranking_perm _))).
  apply in_map_iff. exists (k, VNum (host_count k ls)). split; [reflexivity | ].
  apply (Permutation_in _ (Permutation_sym (entries_perm _))).
  apply own_In. rewrite (own_hostMap ls k H).
  destruct (host_count k ls =? 0)%N eqn:E; [apply N.eqb_eq in E; lia | reflexivity].
Qed.

End UnknownHost.

(** X21: the listings without a [host_id], those with an empty one and those
    of a host that is called ["unknown"] are counted together, in the one
    entry ["unknown"]. *)
Theorem computeListingsByHost_unknown_merged (s : list Listing) :
  Forall (fun l => Obj.proto_text (hostKey l) = None) s ->
  Exists (fun l => host_id l = None \/ host_id l = Some ""%string
                   \/ host_id l = Some "unknown"%string) s ->
  In (mkHostCount "unknown"
        (Obj.VNum
           (N.of_nat
              (length
                 (List.filter
                    (fun l => bool_decide (host_id l = None \/ host_id l = Some ""%string
                                           \/ host_id l = Some "unknown"%string)) s)))))
    (eval computeListingsByHost s).
Proof.
  intros H Hex.
  assert (E : List.filter
                (fun l => bool_decide (host_id l = None \/ host_id l = Some ""%string
                                       \/ host_id l = Some "unknown"%string)) s
              = List.filter (fun l => bool_decide (hostKey l = "unknown"%string)) s).
  { apply filter_ext. intros l. apply bool_decide_ext. symmetry. apply hostKey_unknown. }
  rewrite E. fold (host_count "unknown" s).
  apply hostMap_entry; [exact H | ].
  unfold host_count. apply Exists_exists in Hex as (l & Hl & Hh).
  apply hostKey_unknown in Hh.
  set (us := List.filter (fun l => bool_decide (hostKey l = "unknown"%string)) s).
  assert (Hin : In l us).
  { apply filter_In. split; [now apply list_elem_of_In | now apply bool_decide_eq_true]. }
  destruct us; [destruct Hin | simpl; lia].
Qed.

Lemma computeListingsByHost_unknown_merged_witness :
  Forall (fun l => Obj.proto_text (hostKey l) = None)
    [hosted_by "unknown"; listing_of 100 []; hosted_by ""; hosted_by "A"]
  /\ Exists (fun l => host_id l = None \/ host_id l = Some ""%string
                      \/ host_id l = Some "unknown"%string)
       [hosted_by "unknown"; listing_of 100 []; hosted_by ""; hosted_by "A"]
  /\ In (mkHostCount "unknown"
           (Obj.VNum
              (N.of_nat
                 (length
                    (List.filter
                       (fun l => bool_decide (host_id l = None \/ host_id l = Some ""%string
                                              \/ host_id l = Some "unknown"%string))
                       [hosted_by "unknown"; listing_of 100 []; hosted_by ""; hosted_by "A"])))))
       (eval computeListingsByHost
          [hosted_by "unknown"; listing_of 100 []; hosted_by ""; hosted_by "A"]).
Proof.
  assert (H1 : Forall (fun l => Obj.proto_text (hostKey l) = None)
                 [hosted_by "unknown"; listing_of 100 []; hosted_by ""; hosted_by "A"]).
  { repeat constructor. }
  assert (H2 : Exists (fun l => host_id l = None \/ host_id l = Some ""%string
                                \/ host_id l = Some "unknown"%string)
                 [hosted_by "unknown"; listing_of 100 []; hosted_by ""; hosted_by "A"]).
  { apply Exists_cons_hd. right. right. reflexivity. }
  split; [exact H1 | split; [exact H2 | ]].
  exact (computeListingsByHost_unknown_merged _ H1 H2).
Defined.

(** ** Sessions of the command-line front end *)

Example run_scenario :
  exists s,
    run (Some "listings.csv"%string) three_rows End
      ["1"; "150"; ""; ""; ""; ""; ""; " 2 "; "4"; "stats"; "out.json"; "5"; "x"]%string
      empty_disk
    = Returned tt s
    /\ stdin s = ["x"%string]
    /\ length (airbnbHandler s) = 2%nat
    /\ files (disk s) !! "out.json"%string
       = Some (JSON.stringify (stats_value (mkStats 2 (Num.of_Z 100))))
    /\ In (LogStats (mkStats 2 (Num.of_Z 100))) (console s).
Proof.
  eexists. split; [vm_compute; reflexivity | ].
  repeat split; try (vm_compute; reflexivity).
  vm_compute. tauto.
Qed.

(** An invariant [I] of sessions is kept by a whole run when the effects
    of the front end keep it.  [V] is a fact known of every answer read and
    [L] a fact known of the last one; [W] is what is known when a question
    stays unanswered, [T] what is known of a path whose write fails, [X]
    what is known when the loop is left. *)
Section SessionInvariant.

Variable I : Session -> Prop.
Variable V : string -> Prop.
Variable L : string -> Session -> Prop.
Variable W : Session -> Prop.
Variable T : string -> Prop.
Variable X : Session -> Prop.

Hypothesis I_write : forall s e,
  I s -> I (mkSession (stdin s) (airbnbHandler s) (disk s) (console s ++ [e])).
Hypothesis L_write : forall answer s e,
  L answer s ->
  L answer (mkSession (stdin s) (airbnbHandler s) (disk s) (console s ++ [e])).
Hypothesis I_answer : forall answer rest h d c,
  I (mkSession (answer :: rest) h d c) ->
  I (mkSession rest h d c) /\ V answer /\ L answer (mkSession rest h d c).
Hypothesis I_wait : forall s question,
  I s -> stdin s = [] ->
  W (mkSession (stdin s) (airbnbHandler s) (disk s)
       (console s ++ [Prompt ("~> " +:+ question)])).
Hypothesis I_listings : forall s ls,
  I s -> sublist ls (airbnbHandler s) -> I (mkSession (stdin s) ls (disk s) (console s)).
Hypothesis I_export : forall s exportChoice outputPath data,
  I s -> V exportChoice -> V outputPath ->
  exportChoice = "stats"%string \/ exportChoice = "hostRanking"%string ->
  match exportResults outputPath data (disk s) with
  | Written fs => I (mkSession (stdin s) (airbnbHandler s) fs (console s))
  | WriteError path => T path
  end.
Hypothesis I_exit : forall choice s,
  I s -> L choice s -> trimmed choice = "5"%string -> X s.

(** [E] says whether the computation may end the process. *)
Definition post {A} (E : Prop) (Q : A -> Session -> Prop) (r : result A) : Prop :=
  match r with
  | Returned a s => Q a s
  | Waiting s => W s
  | Thrown path s => I s /\ T path
  | Exited _ s => I s /\ E
  | NoFuel => False
  end.

Lemma post_bind {A B} (E : Prop) (m : CLI A) (k : A -> CLI B)
    (Q' : A -> Session -> Prop) (Q : B -> Session -> Prop) (s : Session) :
  post E Q' (m s) -> (forall a s', Q' a s' -> post E Q (k a s')) ->
  post E Q (cli_bind m k s).
Proof.
  unfold cli_bind. destruct (m s); simpl; intros H Hk; auto.
Qed.

Lemma post_weaken {A} (E E' : Prop) (Q Q' : A -> Session -> Prop) (r : result A) :
  post E Q r -> (E -> E') -> (forall a s, Q a s -> Q' a s) -> post E' Q' r.
Proof. destruct r; simpl; intuition. Qed.

(** What a step leaves: the invariant, and no more lines than before. *)
Definition kept_from (s : Session) (s' : Session) : Prop :=
  I s' /\ (length (stdin s') <= length (stdin s))%nat.

Lemma write_post (e : event) (s : Session) :
  I s -> post False (fun _ s' => kept_from s s') (write e s).
Proof. intros H. split; [now apply I_write | reflexivity]. Qed.

Lemma askQuestion_post (question : string) (s : Session) :
  I s ->
  post False
    (fun answer s' => I s' /\ V answer /\ L answer s'
                      /\ (length (stdin s') < length (stdin s))%nat)
    (askQuestion question s).
Proof.
  intros H. unfold askQuestion, cli_bind, write.
  cbn [stdin airbnbHandler disk console].
  destruct (stdin s) as [ | answer rest] eqn:E; cbn [post].
  - rewrite <- E. now apply I_wait.
  - pose proof (I_write s (Prompt ("~> " +:+ question)) H) as H'. rewrite E in H'.
    destruct (I_answer _ _ _ _ _ H') as (H1 & H2 & H3).
    repeat split; [exact H1 | exact H2 | exact H3 | simpl; lia].
Qed.

Lemma call_post {A} (method : Handler A) (s : Session) :
  I s -> sublist (exec method (airbnbHandler s)) (airbnbHandler s) ->
  post False (fun a s' => kept_from s s' /\ a = eval method (airbnbHandler s))
    (call method s).
Proof.
  intros H Hm. unfold call, exec, eval in *.
  destruct (method (airbnbHandler s)) as [a ls]. simpl in *.
  split; [split; [now apply I_listings | reflexivity] | reflexivity].
Qed.

Lemma export_post (exportChoice outputPath : string) (data : JSON.json) (s : Session) :
  I s -> V exportChoice -> V outputPath ->
  exportChoice = "stats"%string \/ exportChoice = "hostRanking"%string ->
  post False (fun _ s' => kept_from s s') (export outputPath data s).
Proof.
  intros H H1 H2 Hc. unfold export.
  pose proof (I_export s exportChoice outputPath data H H1 H2 Hc) as P.
  destruct (exportResults outputPath data (disk s)) eqn:E; simpl.
  - split; [exact P | reflexivity].
  - split; [exact H | exact P].
Qed.

Lemma log_hosts_post (ranking : list HostCount) (s : Session) :
  I s -> post False (fun _ s' => kept_from s s') (log_hosts ranking s).
Proof.
  revert s. induction ranking as [ | host ranking IH]; intros s H; simpl.
  - split; [exact H | reflexivity].
  - eapply post_bind; [apply write_post, H | ].
    intros _ s1 [H1 L1]. eapply post_weaken; [apply IH, H1 | tauto | ].
    intros _ s2 [H2 L2]. split; [exact H2 | lia].
Qed.

Ltac step :=
  eapply post_bind;
  [ first [ apply write_post | apply askQuestion_post | apply log_hosts_post
          | apply call_post; [ | first [apply filter_sublist | reflexivity ] ] ];
    eassumption
  | cbv beta; intros ? ? ? ].

Ltac open_post :=
  repeat match goal with
         | H : kept_from _ _ /\ _ |- _ => destruct H as [? ?]
         | H : kept_from _ _ |- _ => destruct H as [? ?]
         | H : I _ /\ V _ /\ _ |- _ => destruct H as (? & ? & ? & ?)
         end.

Ltac export_step choice side :=
  eapply post_bind;
  [ match goal with
    | E : ?c = choice |- _ =>
        apply (export_post c); [assumption | assumption | assumption | side; exact E]
    end
  | cbv beta; intros ? ? ? ].

(** A turn of the loop reads at least one line, and never ends the
    process. *)
Lemma iteration_post (s : Session) :
  I s ->
  post False
    (fun exitRequested s' =>
       I s' /\ (length (stdin s') < length (stdin s))%nat
       /\ (exitRequested = true -> X s'))
    (iteration s).
Proof.
  intros H. unfold iteration, console_log.
  step. open_post. step. open_post.
  repeat match goal with
         | |- context [decide (trimmed ?c = ?t)] => destruct (decide (trimmed c = t))
         end.
  - repeat (step; open_post). simpl. repeat split; [assumption | lia | discriminate].
  - repeat (step; open_post). simpl. repeat split; [assumption | lia | discriminate].
  - repeat (step; open_post). simpl. repeat split; [assumption | lia | discriminate].
  - step. open_post. step. open_post.
    eapply post_bind
      with (Q' := fun _ s' => I s' /\ (length (stdin s') < length (stdin s))%nat).
    + repeat match goal with
             | |- context [decide (?c = ?t)] => destruct (decide (c = t))
             end.
      * repeat (step; open_post). split; [now apply I_write | simpl; lia].
      * step. open_post. export_step "stats"%string ltac:(left). open_post.
        split; [now apply I_write | simpl; lia].
      * step. open_post. export_step "hostRanking"%string ltac:(right). open_post.
        split; [now apply I_write | simpl; lia].
      * split; [now apply I_write | simpl; lia].
    + intros _ sx [Hx Lx]. simpl. repeat split; [assumption | lia | discriminate].
  - unfold cli_bind, write, cli_ret. cbn [post stdin].
    repeat split; [now apply I_write | lia | ].
    intros _. eapply I_exit; [now apply I_write | apply L_write; eassumption | assumption].
  - step. open_post. simpl. repeat split; [assumption | lia | discriminate].
Qed.

(** The loop ends when it has more fuel than there are lines. *)
Lemma loop_post (fuel : nat) (s : Session) :
  I s -> (length (stdin s) < fuel)%nat ->
  post False (fun _ s' => I s' /\ X s') (loop fuel s).
Proof.
  revert s. induction fuel as [ | fuel IH]; intros s H Hl; [lia | ].
  simpl. eapply post_bind; [apply iteration_post, H | ].
  intros exitRequested s' (H' & Hl' & HX).
  destruct exitRequested; [split; [exact H' | now apply HX] | ].
  apply IH; [exact H' | lia].
Qed.

Lemma main_post (csvFilePath : option string) (rows : list Row) (fin : stream_end)
    (s : Session) :
  I s ->
  (forall ls, loadAirBnBData rows fin = Resolved ls ->
              I (mkSession (stdin s) ls (disk s) (console s))) ->
  post True (fun _ s' => I s' /\ X s') (main csvFilePath rows fin s).
Proof.
  intros H Hload. unfold main, console_error, console_log, process_exit.
  assert (Hw : forall e k, (forall s', I s' -> @post unit True (fun _ s' => I s' /\ X s') (k s')) ->
                           @post unit True (fun _ s' => I s' /\ X s')
                             (cli_bind (write e) (fun _ => k) s)).
  { intros e k Hk. eapply post_bind.
    - eapply post_weaken; [apply write_post, H | tauto | intros ? ? P; exact P].
    - intros _ s' [H' _]. now apply Hk. }
  assert (Hexit : @post unit True (fun _ s' => I s' /\ X s')
                    (cli_bind
                       (write (LogError "Please provide the path to the CSV file as an argument."))
                       (fun _ s' => Exited 1 s') s)).
  { apply Hw. intros s' H'. now split. }
  destruct csvFilePath as [[ | c path] | ]; try exact Hexit.
  destruct (loadAirBnBData rows fin) as [ls | [ | msg]] eqn:E.
  - eapply post_bind with (Q' := fun _ s' => I s').
    + simpl. now apply Hload.
    + intros _ s1 H1. eapply post_bind with (Q' := fun _ s' => I s').
      * eapply post_weaken; [apply write_post, H1 | tauto | now intros ? ? [P _]].
      * intros _ s2 H2. eapply post_bind with (Q' := fun _ s' => I s' /\ X s').
        -- eapply post_weaken; [apply loop_post; [exact H2 | lia] | tauto | auto].
        -- intros _ s3 H3. exact H3.
  - now split.
  - apply Hw. intros s1 H1. eapply post_bind with (Q' := fun _ s' => I s').
    + eapply post_weaken; [apply write_post, H1 | tauto | now intros ? ? [P _]].
    + intros _ s2 H2. now split.
Qed.

Lemma run_post (csvFilePath : option string) (rows : list Row) (fin : stream_end)
    (lines : list string) (fs : FileSystem) :
  I (mkSession lines [] fs []) ->
  (forall ls, loadAirBnBData rows fin = Resolved ls -> I (mkSession lines ls fs [])) ->
  post True (fun _ s' => I s' /\ X s') (run csvFilePath rows fin lines fs).
Proof.
  intros H Hload. unfold run.
  pose proof (main_post csvFilePath rows fin (mkSession lines [] fs []) H Hload) as P.
  destruct (main csvFilePath rows fin (mkSession lines [] fs [])); simpl in *; auto.
  destruct P as [P1 P2]. split; [ | exact P2]. now apply (I_write _ (LogCliError path)) in P1.
Qed.

End SessionInvariant.

(** X22: a run always comes to an end, and the listings that the handler
    holds then are among the loaded ones, in their order: the front end
    only ever removes listings. *)
Theorem run_listings_sublist (csvFilePath : option string) (rows : list Row)
    (fin : stream_end) (lines : list string) (fs : FileSystem) :
  exists s,
    final (run csvFilePath rows fin lines fs) = Some s
    /\ match loadAirBnBData rows fin with
       | Resolved ls => sublist (airbnbHandler s) ls
       | Failed _ => airbnbHandler s = []
       end.
Proof.
  set (Inv := fun s : Session =>
              match loadAirBnBData rows fin with
              | Resolved ls => sublist (airbnbHandler s) ls
              | Failed _ => airbnbHandler s = []
              end).
  assert (P : post Inv Inv (fun _ => True) True (fun _ s' => Inv s' /\ True)
                (run csvFilePath rows fin lines fs)).
  { apply (run_post Inv (fun _ => True) (fun _ _ => True)); unfold Inv; simpl; auto.
    - intros s ls. destruct (loadAirBnBData rows fin).
      + intros H1 H2. now transitivity (airbnbHandler s).
      + intros -> H. now apply sublist_nil_r in H.
    - intros s _ path data H _ _ _. now destruct (exportResults _ _ _).
    - destruct (loadAirBnBData rows fin); [apply sublist_nil_l | reflexivity].
    - intros ls ->. reflexivity. }
  destruct (run csvFilePath rows fin lines fs) as [[] s | s | p s | c s | ];
    unfold Inv in P; simpl in P; [exists s | exists s | exists s | exists s | contradiction];
    (split; [reflexivity | tauto]).
Qed.

(** X23: the files that a run changes are at paths given as answers: every
    other file is as before, and so is what can be written. *)
Theorem run_writes_answered_paths (csvFilePath : option string) (rows : list Row)
    (fin : stream_end) (lines : list string) (fs : FileSystem) :
  exists s,
    final (run csvFilePath rows fin lines fs) = Some s
    /\ unwritable (disk s) = unwritable fs
    /\ forall path, ~ In path lines -> files (disk s) !! path = files fs !! path.
Proof.
  set (Inv := fun s : Session =>
              (forall a, In a (stdin s) -> In a lines)
              /\ unwritable (disk s) = unwritable fs
              /\ forall path, ~ In path lines -> files (disk s) !! path = files fs !! path).
  assert (P : post Inv Inv (fun _ => True) True (fun _ s' => Inv s' /\ True)
                (run csvFilePath rows fin lines fs)).
  { apply (run_post Inv (fun a => In a lines) (fun _ _ => True)); unfold Inv; simpl; auto.
    - intros answer rest _ d _ (H1 & H2 & H3).
      split; [split; [ | split]; auto | ]; auto.
    - intros s _ path data (H1 & H2 & H3) _ Hp _.
      unfold exportResults, writeFile.
      destruct (decide _); [exact I | ]. simpl.
      split; [exact H1 | split; [exact H2 | ]].
      intros p Hn. rewrite lookup_insert_ne by (intros ->; contradiction). now apply H3. }
  destruct (run csvFilePath rows fin lines fs) as [[] s | s | p s | c s | ];
    unfold Inv in P; simpl in P; [exists s | exists s | exists s | exists s | contradiction];
    (split; [reflexivity | tauto]).
Qed.

(** X24: a run in which no answer is exactly [stats] or [hostRanking]
    writes no file: the export choice is compared as typed, and the choice
    [listings] exports nothing. *)
Theorem run_without_export_choice (csvFilePath : option string) (rows : list Row)
    (fin : stream_end) (lines : list string) (fs : FileSystem) :
  ~ In "stats"%string lines -> ~ In "hostRanking"%string lines ->
  exists s, final (run csvFilePath rows fin lines fs) = Some s /\ disk s = fs.
Proof.
  intros Hs Hr.
  set (V := fun a : string => a <> "stats"%string /\ a <> "hostRanking"%string).
  set (Inv := fun s : Session => Forall V (stdin s) /\ disk s = fs).
  assert (P : post Inv Inv (fun _ => True) True (fun _ s' => Inv s' /\ True)
                (run csvFilePath rows fin lines fs)).
  { assert (H0 : Forall V lines).
    { apply Forall_forall. intros a Ha. apply list_elem_of_In in Ha.
      split; intros ->; contradiction. }
    apply (run_post Inv V (fun _ _ => True)); unfold Inv; simpl; auto.
    - intros answer rest _ d _ [H1 H2]. apply Forall_cons_iff in H1 as [Ha H1]. auto.
    - intros s choice path data _ [H1 H2] _ [-> | ->]; contradiction. }
  destruct (run csvFilePath rows fin lines fs) as [[] s | s | p s | c s | ];
    unfold Inv in P; simpl in P; [exists s | exists s | exists s | exists s | contradiction];
    (split; [reflexivity | tauto]).
Qed.

Lemma run_without_export_choice_witness :
  ~ In "stats"%string ["4"; " stats"; "out.json"; "4"; "listings"; "out.json"; "5"]%string
  /\ ~ In "hostRanking"%string
       ["4"; " stats"; "out.json"; "4"; "listings"; "out.json"; "5"]%string
  /\ exists s,
      final (run (Some "listings.csv"%string) three_rows End
               ["4"; " stats"; "out.json"; "4"; "listings"; "out.json"; "5"]%string
               empty_disk) = Some s
      /\ disk s = empty_disk.
Proof.
  assert (H1 : ~ In "stats"%string
                 ["4"; " stats"; "out.json"; "4"; "listings"; "out.json"; "5"]%string).
  { simpl. intros H. repeat (destruct H as [H | H]; [discriminate H | ]). exact H. }
  assert (H2 : ~ In "hostRanking"%string
                 ["4"; " stats"; "out.json"; "4"; "listings"; "out.json"; "5"]%string).
  { simpl. intros H. repeat (destruct H as [H | H]; [discriminate H | ]). exact H. }
  split; [exact H1 | split; [exact H2 | ]].
  exact (run_without_export_choice (Some "listings.csv"%string) three_rows End _
           empty_disk H1 H2).
Defined.

(** X25: the run returns, [rl.close()] reached, right after reading a line
    that is [5] once trimmed: the lines after it are left unread. *)
Theorem run_returns_after_exit_choice (csvFilePath : option string) (rows : list Row)
    (fin : stream_end) (lines : list string) (fs : FileSystem) (s : Session) :
  run csvFilePath rows fin lines fs = Returned tt s ->
  exists before line,
    lines = before ++ line :: stdin s /\ trimmed line = "5"%string.
Proof.
  intros E.
  set (Inv := fun s : Session => exists before, lines = before ++ stdin s).
  set (L := fun (a : string) (s : Session) => exists before, lines = before ++ a :: stdin s).
  set (X := fun s : Session =>
              exists before line,
                lines = before ++ line :: stdin s /\ trimmed line = "5"%string).
  assert (P : post Inv (fun _ => True) (fun _ => True) True (fun _ s' => Inv s' /\ X s')
                (run csvFilePath rows fin lines fs)).
  { apply (run_post Inv (fun _ => True) L); unfold Inv, L, X; simpl; auto.
    - intros answer rest _ _ _ [before H].
      split; [exists (before ++ [answer]); now rewrite <- app_assoc | ].
      split; [exact I | now exists before].
    - intros s0 _ path data H _ _ _. now destruct (exportResults _ _ _).
    - intros choice s0 _ [before H] Hc. now exists before, choice.
    - now exists [].
    - intros ls _. now exists []. }
  rewrite E in P. apply P.
Qed.

Lemma run_returns_after_exit_choice_witness :
  exists s,
    run (Some "listings.csv"%string) three_rows End ["2"; " 5"; "3"]%string empty_disk
    = Returned tt s
    /\ exists before line,
        ["2"; " 5"; "3"]%string = before ++ line :: stdin s /\ trimmed line = "5"%string.
Proof.
  eexists. split; [vm_compute; reflexivity | ].
  apply (run_returns_after_exit_choice (Some "listings.csv"%string) three_rows End
           ["2"; " 5"; "3"]%string empty_disk).
  vm_compute; reflexivity.
Defined.

(** X26: the run is left waiting only when every line has been read, and
    the last thing shown is then a question that got no answer. *)
Theorem run_waits_at_question (csvFilePath : option string) (rows : list Row)
    (fin : stream_end) (lines : list string) (fs : FileSystem) (s : Session) :
  run csvFilePath rows fin lines fs = Waiting s ->
  stdin s = []
  /\ exists question, last (console s) = Some (Prompt ("~> " +:+ question)).
Proof.
  intros E.
  set (W := fun s : Session =>
              stdin s = []
              /\ exists question, last (console s) = Some (Prompt ("~> " +:+ question))).
  assert (P : post (fun _ => True) W (fun _ => True) True (fun _ s' => True /\ True)
                (run csvFilePath rows fin lines fs)).
  { apply (run_post (fun _ => True) (fun _ => True) (fun _ _ => True));
      unfold W; simpl; auto.
    - intros s0 question _ H. split; [exact H | ]. exists question. apply last_snoc.
    - intros s0 _ path data _ _ _ _. now destruct (exportResults _ _ _). }
  rewrite E in P. exact P.
Qed.

Lemma run_waits_at_question_witness :
  exists s,
    run (Some "listings.csv"%string) three_rows End ["1"; "100"]%string empty_disk
    = Waiting s
    /\ stdin s = []
    /\ exists question, last (console s) = Some (Prompt ("~> " +:+ question)).
Proof.
  eexists. split; [vm_compute; reflexivity | ].
  apply (run_waits_at_question (Some "listings.csv"%string) three_rows End
           ["1"; "100"]%string empty_disk).
  vm_compute; reflexivity.
Defined.

(** X27: the only error that reaches the [catch] of [main] is a failed
    write: of a path that was given as an answer, after an answer [stats]
    or [hostRanking], and that cannot be written. *)
Theorem run_thrown_unwritable (csvFilePath : option string) (rows : list Row)
    (fin : stream_end) (lines : list string) (fs : FileSystem) (path : string)
    (s : Session) :
  run csvFilePath rows fin lines fs = Thrown path s ->
  In path lines /\ path ∈ unwritable fs
  /\ (In "stats"%string lines \/ In "hostRanking"%string lines)
  /\ last (console s) = Some (LogCliError path).
Proof.
  intros E.
  set (Inv := fun s : Session =>
              (forall a, In a (stdin s) -> In a lines)
              /\ unwritable (disk s) = unwritable fs).
  set (T := fun p : string =>
              In p lines /\ p ∈ unwritable fs
              /\ (In "stats"%string lines \/ In "hostRanking"%string lines)).
  assert (P : post Inv Inv T True (fun _ s' => Inv s' /\ True)
                (run csvFilePath rows fin lines fs)).
  { apply (run_post Inv (fun a => In a lines) (fun _ _ => True)); unfold Inv, T; simpl; auto.
    - intros answer rest _ d _ (H1 & H2). auto.
    - intros s0 choice p data (H1 & H2) Hc Hp Hch.
      unfold exportResults, writeFile.
      destruct (decide _) as [Hin | _]; simpl; [ | auto].
      rewrite H2 in Hin. split; [exact Hp | split; [exact Hin | ]].
      destruct Hch as [-> | ->]; auto. }
  rewrite E in P. destruct P as [_ (H1 & H2 & H3)].
  repeat split; try assumption.
  unfold run in E. destruct (main _ _ _ _); try discriminate E.
  injection E as <- <-. simpl. apply last_snoc.
Qed.

Lemma run_thrown_unwritable_witness :
  exists s,
    run (Some "listings.csv"%string) three_rows End ["4"; "stats"; "/"; "5"]%string
      (mkFileSystem ∅ {["/"%string]})
    = Thrown "/" s
    /\ In "/"%string ["4"; "stats"; "/"; "5"]%string
    /\ "/"%string ∈ unwritable (mkFileSystem ∅ {["/"%string]})
    /\ (In "stats"%string ["4"; "stats"; "/"; "5"]%string
        \/ In "hostRanking"%string ["4"; "stats"; "/"; "5"]%string)
    /\ last (console s) = Some (LogCliError "/").
Proof.
  eexists. split; [vm_compute; reflexivity | ].
  apply (run_thrown_unwritable (Some "listings.csv"%string) three_rows End
           ["4"; "stats"; "/"; "5"]%string (mkFileSystem ∅ {["/"%string]})).
  vm_compute; reflexivity.
Defined.

Section ExitAndBlank.

Lemma loop_never_exits (fuel : nat) (s : Session) (code : Z) (s' : Session) :
  (length (stdin s) < fuel)%nat -> loop fuel s <> Exited code s'.
Proof.
  intros L E.
  assert (P : post (fun _ => True) (fun _ => True) (fun _ => True) False
                (fun _ _ => True /\ True) (loop fuel s)).
  { apply (loop_post (fun _ => True) (fun _ => True) (fun _ _ => True)); auto.
    intros ? ? ? ? _ _ _ _. now destruct (exportResults _ _ _). }
  rewrite E in P. simpl in P. tauto.
Qed.

Lemma drop_spaces_blank (l : Text.chars) :
  forallb Text.is_space l = true -> Text.drop_spaces l = [].
Proof.
  induction l as [ | c l IH]; [reflexivity | ]. simpl.
  intros H. apply andb_true_iff in H as [Hc H]. rewrite Hc. now apply IH.
Qed.

End ExitAndBlank.

(** X28: the process exits, with code 1, exactly when no path of a CSV file
    is given or the loading fails; it does so before the first question:
    no line has been read and no file written. *)
Theorem run_exits_before_questions (csvFilePath : option string) (rows : list Row)
    (fin : stream_end) (lines : list string) (fs : FileSystem) :
  (forall code s,
      run csvFilePath rows fin lines fs = Exited code s ->
      code = 1%Z /\ stdin s = lines /\ disk s = fs /\ airbnbHandler s = [])
  /\ ((exists s, run csvFilePath rows fin lines fs = Exited 1 s)
      <-> csvFilePath = None \/ csvFilePath = Some ""%string
          \/ exists e, loadAirBnBData rows fin = Failed e).
Proof.
  unfold run.
  destruct csvFilePath as [[ | c path] | ].
  - split; [intros code s [= <- <-]; auto | ].
    split; [auto | intros _; eexists; reflexivity].
  - destruct (loadAirBnBData rows fin) as [ls | e] eqn:E.
    + assert (Hm : forall code s,
                 main (Some (String c path)) rows fin (mkSession lines [] fs [])
                 <> Exited code s).
      { intros code s. unfold main. rewrite E. unfold cli_bind at 1 2 3.
        unfold console_log, write. cbn [stdin airbnbHandler disk console].
        destruct (loop _ _) as [[] s1 | s1 | p s1 | c1 s1 | ] eqn:El; try discriminate.
        apply loop_never_exits in El; [destruct El | cbn [stdin]; lia]. }
      destruct (main _ _ _ _) as [[] s1 | s1 | p s1 | c1 s1 | ] eqn:Em;
        try (split; [intros code s [=] | ];
             split; [intros [s [=]] | intros [[=] | [[=] | [e [=]]]]]).
      exfalso. now apply (Hm c1 s1).
    + assert (Hm : exists text,
                 main (Some (String c path)) rows fin (mkSession lines [] fs [])
                 = Exited 1 (mkSession lines [] fs text)).
      { unfold main. rewrite E. destruct e; eexists; reflexivity. }
      destruct Hm as [text ->].
      split; [intros code s [= <- <-]; auto | ].
      split; [intros _; right; right; eexists; reflexivity | intros _; eexists; reflexivity].
  - split; [intros code s [= <- <-]; auto | ].
    split; [auto | intros _; eexists; reflexivity].
Qed.

(** X29: an answer to a filter question is left out only when it is empty.
    An answer made of white space alone is converted by [Number] to 0, and
    sets the bound 0. *)
Theorem bound_of_answer_blank (answer : string) :
  (bound_of_answer answer = None <-> answer = ""%string)
  /\ (answer <> ""%string ->
      forallb Text.is_space (Text.of_string answer) = true ->
      bound_of_answer answer = Some Num.zero).
Proof.
  unfold bound_of_answer. destruct (decide (answer = ""%string)) as [E | E].
  - split; [tauto | contradiction].
  - split; [split; [discriminate | contradiction] | ].
    intros _ H. f_equal.
    unfold ToNumber.StringToNumber, ToNumber.of_chars, Text.trim.
    now rewrite (drop_spaces_blank _ H).
Qed.
